(** * Foodgram backend: short links, shopping-cart aggregation, memberships

    A shallow embedding of [backend/api/models.py], [backend/api/serializers.py]
    and [backend/api/views.py].

    - The relational store is a record of tables; a table is the list of its
      rows in insertion order.  Every write is committed when it is made:
      the sources open no [transaction.atomic] block, so Django runs in
      autocommit mode.
    - An insert is checked against the constraints that [models.py]
      declares ([UniqueConstraint], [CheckConstraint], [unique=True]) and
      against the column of a [PositiveSmallIntegerField], as PostgreSQL
      creates it: [smallint] with the check [>= 0].  The validators of a
      model field ([MinValueValidator], [MaxValueValidator]) are run by the
      serializer fields before [validate], never by [save] or
      [objects.create].  Foreign keys are not checked on insert, since the
      views resolve every row they refer to before they write; where a
      property needs keys and references to hold they are assumed through
      [wf_store].  Strings are taken to fit their columns.
    - Python exceptions are the [Err] case of [Result]; code that touches the
      store lives in the monad [M St], whose failure case keeps the state
      reached when the exception was raised.
    - [get_random_string] is a stream of candidate strings indexed by the
      number of draws made so far.
    - A query without ordering returns its rows in an order chosen by the
      database: the rows fetched are any rearrangement of the rows
      computed. *)

From Stdlib Require Import List String Ascii ZArith Arith Bool Lia Permutation.
From Stdlib Require Import Decimal DecimalString.
Import ListNotations.



(** ** Exceptions and results *)

(** The texts raised by the sources, one constructor per message. *)
Inductive Message : Type :=
| MsgAuthRequired                       (* 'Требуется авторизация' *)
| MsgSelfSubscribe                      (* 'Нельзя подписаться на самого себя' *)
| MsgAlreadySubscribed (subscriber author : string)
| MsgAlreadyInCart (recipe : string)
| MsgAlreadyInFavorites (recipe : string)
| MsgNotSubscribed (author : string)
| MsgNotInCart (recipe : string)
| MsgNotInFavorites (recipe : string)
| MsgNoIngredients | MsgDupIngredients | MsgNoTags | MsgDupTags
| MsgCartEmpty                          (* 'Список покупок пуст' *)
| MsgCartFailed                         (* 'Ошибка при формировании списка покупок' *)
| MsgRedirectFailed.                    (* 'Не удалось перенаправить по короткой ссылке' *)

(** The constraints declared in [models.py]; the last two are the checks
    that come with the [PositiveSmallIntegerField] columns
    [Recipe.cooking_time] and [RecipeIngredient.amount]. *)
Inductive ConstraintName : Type :=
| unique_measurement_unit_name
| unique_subscription
| self_subscribe
| unique_short_link
| unique_recipe_ingredient
| unique_favorite
| unique_shopping_cart_list
| recipe_cooking_time_check
| recipeingredient_amount_check.

(** [DataError] is [django.db.DataError]: a value that its column type
    cannot hold. *)
Inductive Exception : Type :=
| Http404
| MultipleObjectsReturned
| NotAuthenticated
| ValidationError (msg : Message)
| ValueError
| IntegrityError (c : ConstraintName)
| DataError.

Inductive Result (A : Type) : Type :=
| Ok (a : A)
| Err (e : Exception).
Arguments Ok {A} a.
Arguments Err {A} e.

(** State and exception monad: an exception does not undo the writes made
    before it. *)
Definition M (St A : Type) : Type := St -> Result A * St.

Definition ret {St A} (a : A) : M St A := fun s => (Ok a, s).
Definition raise {St A} (e : Exception) : M St A := fun s => (Err e, s).
Definition bind {St A B} (c : M St A) (k : A -> M St B) : M St B :=
  fun s => match c s with
           | (Ok a, s') => k a s'
           | (Err e, s') => (Err e, s')
           end.
Definition get {St} : M St St := fun s => (Ok s, s).
Definition put {St} (s : St) : M St unit := fun _ => (Ok tt, s).

Declare Scope monad_scope.
Delimit Scope monad_scope with monad.
Notation "x <- c ;; k" := (bind c (fun x => k))
  (at level 61, c at next level, right associativity) : monad_scope.
Notation "c ;;; k" := (bind c (fun _ => k))
  (at level 61, right associativity) : monad_scope.
Local Open Scope monad_scope.

(** ** Data model ([models.py]) *)

Record User : Type := mkUser
  { user_id : nat; username : string }.

Record Ingredient : Type := mkIngredient
  { ingredient_id : nat; ingredient_name : string; measurement_unit : string }.

Record Subscription : Type := mkSubscription
  { sub_author : nat; sub_subscriber : nat }.

(** [recipe_id] is [None] until the instance has been saved.  [pub_date]
    (a clock reading) is left out. *)
Record Recipe : Type := mkRecipe
  { recipe_id : option nat;
    recipe_name : string;
    recipe_text : string;
    cooking_time : Z;
    recipe_image : string;
    recipe_author : nat;
    short_link : string }.

Record RecipeIngredient : Type := mkRecipeIngredient
  { ri_recipe : nat; ri_ingredient : nat; ri_amount : Z }.

Record Favorite : Type := mkFavorite
  { favorite_user : nat; favorite_recipe : nat }.

Record ShoppingCart : Type := mkShoppingCart
  { cart_user : nat; cart_recipe : nat }.

(** The tables.  [recipe_tags] is the join table of [Recipe.tags];
    [next_recipe_id] is the sequence behind the recipes' primary key. *)
Record Store : Type := mkStore
  { users : list User;
    tags : list nat;
    ingredients : list Ingredient;
    subscriptions : list Subscription;
    recipes : list Recipe;
    next_recipe_id : nat;
    recipe_tags : list (nat * nat);
    recipe_ingredients : list RecipeIngredient;
    favorites : list Favorite;
    shopping_cart : list ShoppingCart }.

Definition empty_store : Store :=
  mkStore [] [] [] [] [] 1 [] [] [] [].

Definition set_subscriptions (s : Store) (t : list Subscription) : Store :=
  mkStore (users s) (tags s) (ingredients s) t (recipes s)
          (next_recipe_id s) (recipe_tags s) (recipe_ingredients s)
          (favorites s) (shopping_cart s).

Definition set_recipes (s : Store) (t : list Recipe) (next : nat) : Store :=
  mkStore (users s) (tags s) (ingredients s) (subscriptions s) t
          next (recipe_tags s) (recipe_ingredients s)
          (favorites s) (shopping_cart s).

Definition set_recipe_tags (s : Store) (t : list (nat * nat)) : Store :=
  mkStore (users s) (tags s) (ingredients s) (subscriptions s) (recipes s)
          (next_recipe_id s) t (recipe_ingredients s)
          (favorites s) (shopping_cart s).

Definition set_recipe_ingredients (s : Store) (t : list RecipeIngredient)
  : Store :=
  mkStore (users s) (tags s) (ingredients s) (subscriptions s) (recipes s)
          (next_recipe_id s) (recipe_tags s) t
          (favorites s) (shopping_cart s).

Definition set_favorites (s : Store) (t : list Favorite) : Store :=
  mkStore (users s) (tags s) (ingredients s) (subscriptions s) (recipes s)
          (next_recipe_id s) (recipe_tags s) (recipe_ingredients s)
          t (shopping_cart s).

Definition set_shopping_cart (s : Store) (t : list ShoppingCart) : Store :=
  mkStore (users s) (tags s) (ingredients s) (subscriptions s) (recipes s)
          (next_recipe_id s) (recipe_tags s) (recipe_ingredients s)
          (favorites s) t.

Definition set_short_link (r : Recipe) (l : string) : Recipe :=
  mkRecipe (recipe_id r) (recipe_name r) (recipe_text r) (cooking_time r)
           (recipe_image r) (recipe_author r) l.

Definition set_recipe_id (r : Recipe) (i : nat) : Recipe :=
  mkRecipe (Some i) (recipe_name r) (recipe_text r) (cooking_time r)
           (recipe_image r) (recipe_author r) (short_link r).

Definition has_id (i : nat) (r : Recipe) : bool :=
  match recipe_id r with
  | Some j => Nat.eqb i j
  | None => false
  end.

Definition has_short_link (l : string) (r : Recipe) : bool :=
  String.eqb (short_link r) l.

(** ** Query helpers *)

(** [get_object_or_404(Model, **filter)]: the single matching row. *)
Definition get_object_or_404 {A} (table : Store -> list A) (p : A -> bool)
  : M Store A :=
  s <- get ;;
  match filter p (table s) with
  | [] => raise Http404
  | [a] => ret a
  | _ :: _ :: _ => raise MultipleObjectsReturned
  end.

(** [queryset.delete()]: the number of rows deleted and the rows left. *)
Definition qs_delete {A} (p : A -> bool) (rows : list A) : nat * list A :=
  (List.length (filter p rows), filter (fun a => negb (p a)) rows).

(** A value written to a [PositiveSmallIntegerField] column: one outside
    the range of [smallint] is refused with [DataError], a negative one
    inside it by the column's check, with [IntegrityError]. *)
Definition PositiveSmallIntegerField (check : ConstraintName) (value : Z)
  : Result unit :=
  if (value <? -32768)%Z || (32767 <? value)%Z then Err DataError
  else if (value <? 0)%Z then Err (IntegrityError check)
  else Ok tt.

(** The validators that [models.py] attaches to [Recipe.cooking_time] and
    to [RecipeIngredient.amount]: [MinValueValidator(1)] and
    [MaxValueValidator(10000)].  The serializer fields built from these
    model fields run them on a payload before [validate] sees it. *)
Definition MinValueValidator (limit_value value : Z) : bool :=
  (limit_value <=? value)%Z.

Definition MaxValueValidator (limit_value value : Z) : bool :=
  (value <=? limit_value)%Z.

Definition amount_validators (value : Z) : bool :=
  MinValueValidator 1 value && MaxValueValidator 10000 value.

(** ** Short links ([Recipe.get_short_link], [Recipe.save]) *)

(** The process state of a request that saves recipes: the store and the
    number of random strings drawn so far. *)
Record World : Type := mkWorld
  { db : Store; drawn : nat }.

Definition lift_db {A} (c : M Store A) : M World A :=
  fun w => let (r, s') := c (db w) in (r, mkWorld s' (drawn w)).

Section ShortLink.

(** [get_random_string length n]: the string returned by the [n]-th call
    of [django.utils.crypto.get_random_string(length=length)]. *)
Variable get_random_string : nat -> nat -> string.

Definition draw (length : nat) : M World string :=
  fun w => (Ok (get_random_string length (drawn w)),
            mkWorld (db w) (S (drawn w))).

(** [Recipe.get_short_link(self, length=10, attempt=10)]: the
    [for _ in range(attempt)] loop with its [else] branch. *)
Fixpoint get_short_link (self : Recipe) (length attempt : nat)
  : M World Recipe :=
  match attempt with
  | O => raise ValueError
  | S rest =>
      candidate <- draw length ;;
      w <- get ;;
      if negb (existsb (has_short_link candidate) (recipes (db w)))
      then ret (set_short_link self candidate)
      else get_short_link self length rest
  end.

(** [models.Model.save]: INSERT for a fresh instance, UPDATE of the row
    with the instance's key otherwise (INSERT when no such row exists).
    The row written is checked against the [cooking_time] column, then
    the unique index on [short_link] against the other rows. *)
Definition Model_save (self : Recipe) : M Store Recipe :=
  fun s =>
    match PositiveSmallIntegerField recipe_cooking_time_check
                                    (cooking_time self) with
    | Err e => (Err e, s)
    | Ok _ =>
        match recipe_id self with
        | None =>
            if existsb (has_short_link (short_link self)) (recipes s)
            then (Err (IntegrityError unique_short_link), s)
            else
              let saved := set_recipe_id self (next_recipe_id s) in
              (Ok saved,
               set_recipes s (recipes s ++ [saved]) (S (next_recipe_id s)))
        | Some i =>
            if existsb (fun r => has_short_link (short_link self) r
                                 && negb (has_id i r)) (recipes s)
            then (Err (IntegrityError unique_short_link), s)
            else if existsb (has_id i) (recipes s)
            then (Ok self,
                  set_recipes s
                    (map (fun r => if has_id i r then self else r)
                         (recipes s))
                    (next_recipe_id s))
            else (Ok self,
                  set_recipes s (recipes s ++ [self]) (next_recipe_id s))
        end
    end.

Definition is_empty (l : string) : bool :=
  match l with
  | EmptyString => true
  | String _ _ => false
  end.

Definition save (self : Recipe) : M World Recipe :=
  self' <- (if is_empty (short_link self)
            then get_short_link self 10 10
            else ret self) ;;
  lift_db (Model_save self').

End ShortLink.

(** ** Responses *)

Inductive Cell : Type :=
| CStr (s : string)
| CInt (z : Z).

Inductive Body : Type :=
| NoBody
| ErrorBody (msg : Message)
| ShortLinkBody (url : string)
| ShortRecipeBody (r : Recipe)
| AuthorBody (u : User).

Inductive Response : Type :=
| Response_ (body : Body) (status : nat)
| HttpResponse (content_type disposition : string) (rows : list (list Cell))
| HttpResponseRedirect (url : string).

Definition HTTP_200_OK := 200.
Definition HTTP_201_CREATED := 201.
Definition HTTP_204_NO_CONTENT := 204.
Definition HTTP_400_BAD_REQUEST := 400.
Definition HTTP_500_INTERNAL_SERVER_ERROR := 500.

Definition status_code (r : Response) : nat :=
  match r with
  | Response_ _ st => st
  | HttpResponse _ _ _ => 200
  | HttpResponseRedirect _ => 302
  end.

(** The framework's exception handler: the status a client sees when a view
    raises.  Exceptions it does not know become a server error. *)
Definition http_status (r : Result Response) : nat :=
  match r with
  | Ok resp => status_code resp
  | Err Http404 => 404
  | Err NotAuthenticated => 401
  | Err (ValidationError _) => 400
  | Err _ => 500
  end.

Definition client_error (st : nat) : bool :=
  (400 <=? st) && (st <? 500).

(** ** Short-link redirect ([views.redirect_to_recipe]) *)

Definition str_of_nat (n : nat) : string :=
  NilEmpty.string_of_uint (Nat.to_uint n).

(** [request.build_absolute_uri(path)] with the request's scheme and host
    in [origin]. *)
Definition build_absolute_uri (origin path : string) : string :=
  (origin ++ path)%string.

Definition recipe_path (r : Recipe) : string :=
  match recipe_id r with
  | Some i => ("/recipes/" ++ str_of_nat i ++ "/")%string
  | None => "/recipes/None/"%string
  end.

(** The [try] block of the view. *)
Definition redirect_to_recipe_try (origin link : string) : M Store Response :=
  recipe <- get_object_or_404 recipes (has_short_link link) ;;
  ret (HttpResponseRedirect (build_absolute_uri origin (recipe_path recipe))).

(** [try: ... except Exception: return fallback]. *)
Definition try_except {St A} (c : M St A) (fallback : A) : M St A :=
  fun s => match c s with
           | (Ok a, s') => (Ok a, s')
           | (Err _, s') => (Ok fallback, s')
           end.

Definition redirect_to_recipe (origin link : string) : M Store Response :=
  try_except (redirect_to_recipe_try origin link)
    (Response_ (ErrorBody MsgRedirectFailed) HTTP_500_INTERNAL_SERVER_ERROR).

(** ** Memberships ([serializers.py], [views.py]) *)

(** [permission_classes=[IsAuthenticated]]; [None] is the anonymous user. *)
Definition IsAuthenticated (request_user : option User) : M Store User :=
  match request_user with
  | Some u => ret u
  | None => raise NotAuthenticated
  end.

Definition is_user (id : nat) (u : User) : bool := Nat.eqb (user_id u) id.

Definition is_subscription (author subscriber : nat) (row : Subscription)
  : bool :=
  Nat.eqb (sub_author row) author && Nat.eqb (sub_subscriber row) subscriber.

Definition is_favorite (user recipe : nat) (row : Favorite) : bool :=
  Nat.eqb (favorite_user row) user && Nat.eqb (favorite_recipe row) recipe.

Definition is_cart (user recipe : nat) (row : ShoppingCart) : bool :=
  Nat.eqb (cart_user row) user && Nat.eqb (cart_recipe row) recipe.

Definition pk (r : Recipe) : nat :=
  match recipe_id r with
  | Some i => i
  | None => 0
  end.

(** [Model.objects.create]: the INSERT, checked against [Meta.constraints]. *)
Definition Subscription_create (author subscriber : nat)
  : M Store Subscription :=
  s <- get ;;
  if Nat.eqb author subscriber
  then raise (IntegrityError self_subscribe)
  else if existsb (is_subscription author subscriber) (subscriptions s)
  then raise (IntegrityError unique_subscription)
  else
    let row := mkSubscription author subscriber in
    put (set_subscriptions s (subscriptions s ++ [row])) ;;;
    ret row.

Definition Favorite_create (user recipe : nat) : M Store Favorite :=
  s <- get ;;
  if existsb (is_favorite user recipe) (favorites s)
  then raise (IntegrityError unique_favorite)
  else
    let row := mkFavorite user recipe in
    put (set_favorites s (favorites s ++ [row])) ;;;
    ret row.

Definition ShoppingCart_create (user recipe : nat) : M Store ShoppingCart :=
  s <- get ;;
  if existsb (is_cart user recipe) (shopping_cart s)
  then raise (IntegrityError unique_shopping_cart_list)
  else
    let row := mkShoppingCart user recipe in
    put (set_shopping_cart s (shopping_cart s ++ [row])) ;;;
    ret row.

(** [SubscriptionSerializer.validate]; the result is (author, subscriber). *)
Definition SubscriptionSerializer_validate
  (request_user : option User) (author : User) : M Store (User * User) :=
  match request_user with
  | None => raise (ValidationError MsgAuthRequired)
  | Some subscriber =>
      if Nat.eqb (user_id subscriber) (user_id author)
      then raise (ValidationError MsgSelfSubscribe)
      else
        s <- get ;;
        if existsb (is_subscription (user_id author) (user_id subscriber))
                   (subscriptions s)
        then raise (ValidationError
                      (MsgAlreadySubscribed (username subscriber)
                                            (username author)))
        else ret (author, subscriber)
  end.

(** [ShoppingCartSerializer.validate]; the result is (user, recipe). *)
Definition ShoppingCartSerializer_validate
  (request_user : option User) (recipe : Recipe) : M Store (User * Recipe) :=
  match request_user with
  | None => raise (ValidationError MsgAuthRequired)
  | Some user =>
      s <- get ;;
      if existsb (is_cart (user_id user) (pk recipe)) (shopping_cart s)
      then raise (ValidationError (MsgAlreadyInCart (recipe_name recipe)))
      else ret (user, recipe)
  end.

(** [FavoriteSerializer.validate]; the result is (user, recipe). *)
Definition FavoriteSerializer_validate
  (request_user : option User) (recipe : Recipe) : M Store (User * Recipe) :=
  match request_user with
  | None => raise (ValidationError MsgAuthRequired)
  | Some user =>
      s <- get ;;
      if existsb (is_favorite (user_id user) (pk recipe)) (favorites s)
      then raise (ValidationError (MsgAlreadyInFavorites (recipe_name recipe)))
      else ret (user, recipe)
  end.

(** [UserViewSet.subscribe] *)
Definition subscribe (request_user : option User) (id : nat)
  : M Store Response :=
  _ <- IsAuthenticated request_user ;;
  author <- get_object_or_404 users (is_user id) ;;
  data <- SubscriptionSerializer_validate request_user author ;;
  _ <- Subscription_create (user_id (fst data)) (user_id (snd data)) ;;
  ret (Response_ (AuthorBody author) HTTP_201_CREATED).

(** [UserViewSet.unsubscribe] *)
Definition unsubscribe (request_user : option User) (id : nat)
  : M Store Response :=
  user <- IsAuthenticated request_user ;;
  author <- get_object_or_404 users (is_user id) ;;
  s <- get ;;
  let (delete_count, rest) :=
    qs_delete (is_subscription (user_id author) (user_id user))
              (subscriptions s) in
  put (set_subscriptions s rest) ;;;
  if Nat.eqb delete_count 0
  then raise (ValidationError (MsgNotSubscribed (username author)))
  else ret (Response_ NoBody HTTP_204_NO_CONTENT).

(** [RecipeViewSet.shopping_cart] *)
Definition shopping_cart_add (request_user : option User) (pk_ : nat)
  : M Store Response :=
  _ <- IsAuthenticated request_user ;;
  recipe <- get_object_or_404 recipes (has_id pk_) ;;
  data <- ShoppingCartSerializer_validate request_user recipe ;;
  _ <- ShoppingCart_create (user_id (fst data)) (pk (snd data)) ;;
  ret (Response_ (ShortRecipeBody recipe) HTTP_201_CREATED).

(** [RecipeViewSet.delete_from_shopping_cart] *)
Definition delete_from_shopping_cart (request_user : option User) (pk_ : nat)
  : M Store Response :=
  user <- IsAuthenticated request_user ;;
  recipe <- get_object_or_404 recipes (has_id pk_) ;;
  s <- get ;;
  let (delete_count, rest) :=
    qs_delete (is_cart (user_id user) (pk recipe)) (shopping_cart s) in
  put (set_shopping_cart s rest) ;;;
  if Nat.eqb delete_count 0
  then raise (ValidationError (MsgNotInCart (recipe_name recipe)))
  else ret (Response_ NoBody HTTP_204_NO_CONTENT).

(** [RecipeViewSet.favorite] *)
Definition favorite (request_user : option User) (pk_ : nat)
  : M Store Response :=
  _ <- IsAuthenticated request_user ;;
  recipe <- get_object_or_404 recipes (has_id pk_) ;;
  data <- FavoriteSerializer_validate request_user recipe ;;
  _ <- Favorite_create (user_id (fst data)) (pk (snd data)) ;;
  ret (Response_ (ShortRecipeBody recipe) HTTP_201_CREATED).

(** [RecipeViewSet.delete_from_favorites] *)
Definition delete_from_favorites (request_user : option User) (pk_ : nat)
  : M Store Response :=
  user <- IsAuthenticated request_user ;;
  recipe <- get_object_or_404 recipes (has_id pk_) ;;
  s <- get ;;
  let (delete_count, rest) :=
    qs_delete (is_favorite (user_id user) (pk recipe)) (favorites s) in
  put (set_favorites s rest) ;;;
  if Nat.eqb delete_count 0
  then raise (ValidationError (MsgNotInFavorites (recipe_name recipe)))
  else ret (Response_ NoBody HTTP_204_NO_CONTENT).

(** The three membership relations and the router's dispatch of
    [POST] and [DELETE] on their paths. *)
Inductive Relation : Type := RFavorite | RShoppingCart | RSubscription.

Definition add (k : Relation) (actor : option User) (target : nat)
  : M Store Response :=
  match k with
  | RFavorite => favorite actor target
  | RShoppingCart => shopping_cart_add actor target
  | RSubscription => subscribe actor target
  end.

Definition remove (k : Relation) (actor : option User) (target : nat)
  : M Store Response :=
  match k with
  | RFavorite => delete_from_favorites actor target
  | RShoppingCart => delete_from_shopping_cart actor target
  | RSubscription => unsubscribe actor target
  end.

(** Number of rows of relation [k] that hold the pair (actor, target). *)
Definition rows_of (k : Relation) (actor target : nat) (s : Store) : nat :=
  match k with
  | RFavorite => List.length (filter (is_favorite actor target) (favorites s))
  | RShoppingCart =>
      List.length (filter (is_cart actor target) (shopping_cart s))
  | RSubscription =>
      List.length (filter (is_subscription target actor) (subscriptions s))
  end.

(** The target of relation [k] with key [target] is resolved by
    [get_object_or_404]: exactly one row carries the key. *)
Definition target_resolved (k : Relation) (target : nat) (s : Store) : bool :=
  match k with
  | RFavorite | RShoppingCart =>
      Nat.eqb (List.length (filter (has_id target) (recipes s))) 1
  | RSubscription =>
      Nat.eqb (List.length (filter (is_user target) (users s))) 1
  end.

(** ** Recipe serializer ([RecipeCreateSerializer]) *)

(** [validated_data] of a create: every declared field is required.
    An ingredient item is (ingredient key, amount); a tag is its key. *)
Record RecipeData : Type := mkRecipeData
  { data_name : string;
    data_text : string;
    data_cooking_time : Z;
    data_image : string;
    data_ingredients : list (nat * Z);
    data_tags : list nat }.

(** [validated_data] of an update: the view set accepts [PATCH] only, so
    every field may be missing. *)
Record RecipePatch : Type := mkRecipePatch
  { patch_name : option string;
    patch_text : option string;
    patch_cooking_time : option Z;
    patch_image : option string;
    patch_ingredients : option (list (nat * Z));
    patch_tags : option (list nat) }.

Definition is_recipe_ingredient (recipe ingredient : nat)
  (row : RecipeIngredient) : bool :=
  Nat.eqb (ri_recipe row) recipe && Nat.eqb (ri_ingredient row) ingredient.

Definition of_recipe (recipe : nat) (row : RecipeIngredient) : bool :=
  Nat.eqb (ri_recipe row) recipe.

(** [RecipeIngredient.objects.create]: the row is checked against the
    [amount] column, then against [unique_recipe_ingredient]. *)
Definition RecipeIngredient_create (recipe ingredient : nat) (amount : Z)
  : M Store RecipeIngredient :=
  s <- get ;;
  match PositiveSmallIntegerField recipeingredient_amount_check amount with
  | Err e => raise e
  | Ok _ =>
      if existsb (is_recipe_ingredient recipe ingredient)
                 (recipe_ingredients s)
      then raise (IntegrityError unique_recipe_ingredient)
      else
        let row := mkRecipeIngredient recipe ingredient amount in
        put (set_recipe_ingredients s (recipe_ingredients s ++ [row])) ;;;
        ret row
  end.

(** A related manager needs a saved instance. *)
Definition saved_pk {St} (recipe : Recipe) : M St nat :=
  match recipe_id recipe with
  | Some i => ret i
  | None => raise ValueError
  end.

(** [RecipeCreateSerializer._add_ingredients] *)
Fixpoint _add_ingredients (recipe : Recipe) (ingredients : list (nat * Z))
  : M Store unit :=
  match ingredients with
  | [] => ret tt
  | ingredient :: rest =>
      i <- saved_pk recipe ;;
      _ <- RecipeIngredient_create i (fst ingredient) (snd ingredient) ;;
      _add_ingredients recipe rest
  end.

Definition mem (n : nat) (l : list nat) : bool := existsb (Nat.eqb n) l.

(** [recipe.tags.set(tags)]: rows of the recipe whose tag is not in [tags]
    are removed, and the tags not yet attached are added once each.  Django
    inserts the new rows in the order in which Python iterates over the set
    of their keys, which the language leaves open; they are listed here in
    the order of the payload.  No query of the sources reads this table in
    row order, and the properties of this table are stated on its rows, not
    on their order. *)
Definition tags_set (recipe : Recipe) (tags_ : list nat) : M Store unit :=
  i <- saved_pk recipe ;;
  s <- get ;;
  let old := map snd (filter (fun row => Nat.eqb (fst row) i)
                             (recipe_tags s)) in
  let kept := filter (fun row => negb (Nat.eqb (fst row) i)
                                 || mem (snd row) tags_) (recipe_tags s) in
  let new := filter (fun t => negb (mem t old)) (nodup Nat.eq_dec tags_) in
  put (set_recipe_tags s (kept ++ map (fun t => (i, t)) new)).

(** [recipe.ingredient_in_recipe.all().delete()] *)
Definition delete_ingredients (recipe : Recipe) : M Store unit :=
  i <- saved_pk recipe ;;
  s <- get ;;
  put (set_recipe_ingredients s
         (snd (qs_delete (of_recipe i) (recipe_ingredients s)))).

Definition or_else {A} (o : option A) (d : A) : A :=
  match o with
  | Some a => a
  | None => d
  end.

(** The [setattr] loop of [ModelSerializer.update]. *)
Definition set_attrs (recipe : Recipe) (p : RecipePatch) : Recipe :=
  mkRecipe (recipe_id recipe)
           (or_else (patch_name p) (recipe_name recipe))
           (or_else (patch_text p) (recipe_text recipe))
           (or_else (patch_cooking_time p) (cooking_time recipe))
           (or_else (patch_image p) (recipe_image recipe))
           (recipe_author recipe)
           (short_link recipe).

(** The instance built from [validated_data] once [author] is set and
    [ingredients] and [tags] are popped; its [short_link] is still empty. *)
Definition Recipe_of_data (author : User) (d : RecipeData) : Recipe :=
  mkRecipe None (data_name d) (data_text d) (data_cooking_time d)
           (data_image d) (user_id author) EmptyString.

Section RecipeSerializer.

Variable get_random_string : nat -> nat -> string.

(** [Recipe.objects.create] on the remaining fields of [validated_data] *)
Definition Recipe_create (fields : Recipe) : M World Recipe :=
  save get_random_string fields.

(** [RecipeCreateSerializer.create] *)
Definition create (request_user : User) (validated_data : RecipeData)
  : M World Recipe :=
  let ingredients_ := data_ingredients validated_data in
  let tags_ := data_tags validated_data in
  recipe <- Recipe_create (Recipe_of_data request_user validated_data) ;;
  lift_db (tags_set recipe tags_) ;;;
  lift_db (_add_ingredients recipe ingredients_) ;;;
  ret recipe.

(** [super().update(recipe, validated_data)] *)
Definition super_update (recipe : Recipe) (p : RecipePatch)
  : M World Recipe :=
  save get_random_string (set_attrs recipe p).

(** [RecipeCreateSerializer.update] *)
Definition update (recipe : Recipe) (validated_data : RecipePatch)
  : M World Recipe :=
  let ingredients_ := patch_ingredients validated_data in
  let tags_ := patch_tags validated_data in
  recipe <- super_update recipe validated_data ;;
  match tags_ with
  | Some t => lift_db (tags_set recipe t)
  | None => ret tt
  end ;;;
  match ingredients_ with
  | Some l =>
      lift_db (delete_ingredients recipe) ;;;
      lift_db (_add_ingredients recipe l)
  | None => ret tt
  end ;;;
  ret recipe.

End RecipeSerializer.

(** [RecipeCreateSerializer._check_ingredients] *)
Fixpoint check_seen (seen : list nat) (ingredients_ : list (nat * Z))
  : Result unit :=
  match ingredients_ with
  | [] => Ok tt
  | item :: rest =>
      if mem (fst item) seen
      then Err (ValidationError MsgDupIngredients)
      else check_seen (fst item :: seen) rest
  end.

Definition _check_ingredients (ingredients_ : option (list (nat * Z)))
  : Result unit :=
  match ingredients_ with
  | None | Some [] => Err (ValidationError MsgNoIngredients)
  | Some l => check_seen [] l
  end.

(** [RecipeCreateSerializer._check_tags] *)
Definition _check_tags (tags_ : option (list nat)) : Result unit :=
  match tags_ with
  | None | Some [] => Err (ValidationError MsgNoTags)
  | Some l =>
      if Nat.eqb (List.length l) (List.length (nodup Nat.eq_dec l))
      then Ok tt
      else Err (ValidationError MsgDupTags)
  end.

(** [RecipeCreateSerializer.validate] on the payload's [ingredients] and
    [tags]. *)
Definition validate (ingredients_ : option (list (nat * Z)))
  (tags_ : option (list nat)) : Result unit :=
  match _check_ingredients ingredients_ with
  | Ok _ => _check_tags tags_
  | Err e => Err e
  end.

(** ** Shopping-cart aggregation ([RecipeViewSet.download_shopping_cart]) *)

(** A row of [.values('ingredient__name', 'ingredient__measurement_unit')
    .annotate(total_amount=Sum('amount'))]. *)
Record AggRow : Type := mkAggRow
  { ingredient__name : string;
    ingredient__measurement_unit : string;
    total_amount : Z }.

Definition Key : Type := (string * string)%type.

Definition Key_eq_dec : forall a b : Key, {a = b} + {a <> b}.
Proof. decide equality; apply string_dec. Defined.

Definition key_eqb (a b : Key) : bool :=
  if Key_eq_dec a b then true else false.

(** The joined rows before grouping: one row per RecipeIngredient row, per
    matching ShoppingCart row of the user
    ([filter(recipe__shopping_cart__user=request.user)]), per Ingredient row
    with the referenced key.  A row is ((name, unit), amount). *)
Definition joined_rows (user : nat) (s : Store) : list (Key * Z) :=
  flat_map
    (fun ri =>
       flat_map
         (fun c =>
            if is_cart user (ri_recipe ri) c
            then flat_map
                   (fun i =>
                      if Nat.eqb (ingredient_id i) (ri_ingredient ri)
                      then [((ingredient_name i, measurement_unit i),
                             ri_amount ri)]
                      else [])
                   (ingredients s)
            else [])
         (shopping_cart s))
    (recipe_ingredients s).

Definition sum_Z (l : list Z) : Z := fold_right Z.add 0%Z l.

(** [Sum('amount')] over the rows of one group. *)
Definition group_total (k : Key) (rows : list (Key * Z)) : Z :=
  sum_Z (map snd (filter (fun row => key_eqb (fst row) k) rows)).

(** GROUP BY: one row per distinct key, with the sum of its group. *)
Definition group_by_sum (rows : list (Key * Z)) : list AggRow :=
  map (fun k => mkAggRow (fst k) (snd k) (group_total k rows))
      (nodup Key_eq_dec (map fst rows)).

Definition grouped (user : nat) (s : Store) : list AggRow :=
  group_by_sum (joined_rows user s).

(** The queryset has no [order_by] and [RecipeIngredient.Meta] declares no
    ordering, so the statement sent to the database has no ORDER BY: the
    database returns the grouped rows in an order of its choosing. *)
Definition fetched (user : nat) (s : Store) (rows : list AggRow) : Prop :=
  Permutation (grouped user s) rows.

Definition csv_header : list Cell :=
  [CStr "Ингредиент"; CStr "Количество"; CStr "Ед. изм."]%string.

Definition csv_row (r : AggRow) : list Cell :=
  [CStr (ingredient__name r); CInt (total_amount r);
   CStr (ingredient__measurement_unit r)].

Definition quote : string := String (ascii_of_nat 34) EmptyString.

(** [attachment; filename=] followed by the quoted file name. *)
Definition content_disposition : string :=
  ("attachment; filename=" ++ quote ++ "shopping_list.csv" ++ quote)%string.

Definition empty_cart_response : Response :=
  Response_ (ErrorBody MsgCartEmpty) HTTP_400_BAD_REQUEST.

(** The CSV attachment: the header row, then one row per aggregate row. *)
Definition report (ingredients_ : list AggRow) : Response :=
  HttpResponse "text/csv; charset=utf-8" content_disposition
               (csv_header :: map csv_row ingredients_).

(** The body of the [try] block, on the rows the database returned. *)
Definition download_shopping_cart_try (ingredients_ : list AggRow)
  : M Store Response :=
  match ingredients_ with
  | [] => ret empty_cart_response
  | _ :: _ => ret (report ingredients_)
  end.

(** The view on the rows the database returned for the queryset. *)
Definition download_shopping_cart_on (request_user : option User)
  (ingredients_ : list AggRow) : M Store Response :=
  _ <- IsAuthenticated request_user ;;
  try_except (download_shopping_cart_try ingredients_)
    (Response_ (ErrorBody MsgCartFailed) HTTP_500_INTERNAL_SERVER_ERROR).

(** The responses the view may give in store [s]. *)
Inductive download_shopping_cart (request_user : User) (s : Store)
  : Response -> Prop :=
| download_fetched : forall rows resp,
    fetched (user_id request_user) s rows ->
    download_shopping_cart_on (Some request_user) rows s = (Ok resp, s) ->
    download_shopping_cart request_user s resp.

(** ** The aggregate in the specification's words

    Every RecipeIngredient row of a recipe in the user's shopping cart, with
    the name and unit of its ingredient; the total of a pair is the sum of
    the amounts of the rows that carry the pair. *)

Definition in_cart (user recipe : nat) (s : Store) : bool :=
  existsb (is_cart user recipe) (shopping_cart s).

Definition ingredient_of (s : Store) (id : nat) : option Ingredient :=
  find (fun i => Nat.eqb (ingredient_id i) id) (ingredients s).

Definition cart_ingredient_rows (user : nat) (s : Store) : list (Key * Z) :=
  flat_map
    (fun ri =>
       if in_cart user (ri_recipe ri) s
       then match ingredient_of s (ri_ingredient ri) with
            | Some i => [((ingredient_name i, measurement_unit i),
                          ri_amount ri)]
            | None => []
            end
       else [])
    (recipe_ingredients s).

Definition key_of (r : AggRow) : Key :=
  (ingredient__name r, ingredient__measurement_unit r).

(** Two stores hold the same rows when each table of the one is a
    rearrangement of the same table of the other. *)
Definition same_rows (s s' : Store) : Prop :=
  Permutation (recipe_ingredients s) (recipe_ingredients s') /\
  Permutation (shopping_cart s) (shopping_cart s') /\
  Permutation (ingredients s) (ingredients s').

(** ** Integrity of the store

    The keys and references declared in [models.py]: primary keys are
    unique, a membership row refers to an existing target, and a
    shopping-cart pair occurs once ([unique_shopping_cart_list]). *)
Record wf_store (s : Store) : Prop := mk_wf_store
  { wf_user_pk : NoDup (map user_id (users s));
    wf_recipe_pk : NoDup (map recipe_id (recipes s));
    wf_ingredient_pk : NoDup (map ingredient_id (ingredients s));
    wf_favorite_fk : forall row, In row (favorites s) ->
                       existsb (has_id (favorite_recipe row)) (recipes s)
                       = true;
    wf_cart_fk : forall row, In row (shopping_cart s) ->
                   existsb (has_id (cart_recipe row)) (recipes s) = true;
    wf_subscription_fk : forall row, In row (subscriptions s) ->
                           existsb (is_user (sub_author row)) (users s)
                           = true;
    wf_cart_unique : NoDup (shopping_cart s) }.

(** The messages that report a pair already present, and the errors that
    report a pair or a target absent. *)
Definition already_exists (e : Exception) : bool :=
  match e with
  | ValidationError (MsgAlreadySubscribed _ _)
  | ValidationError (MsgAlreadyInCart _)
  | ValidationError (MsgAlreadyInFavorites _) => true
  | _ => false
  end.

Definition not_found (e : Exception) : bool :=
  match e with
  | Http404
  | ValidationError (MsgNotSubscribed _)
  | ValidationError (MsgNotInCart _)
  | ValidationError (MsgNotInFavorites _) => true
  | _ => false
  end.

(** The stores reachable as far as the subscription table is concerned:
    rows enter it only through [Subscription_create] (from the view or from
    any other caller of the model), rows leave it through deletions, and
    writes to the other tables leave it alone. *)
Inductive reachable : Store -> Prop :=
| reachable_empty : reachable empty_store
| reachable_other_tables : forall s s',
    reachable s -> subscriptions s' = subscriptions s -> reachable s'
| reachable_create : forall s author subscriber,
    reachable s -> reachable (snd (Subscription_create author subscriber s))
| reachable_delete : forall s p,
    reachable s ->
    reachable (set_subscriptions s (snd (qs_delete p (subscriptions s))))
| reachable_subscribe : forall s request_user id,
    reachable s -> reachable (snd (subscribe request_user id s))
| reachable_unsubscribe : forall s request_user id,
    reachable s -> reachable (snd (unsubscribe request_user id s)).

(** ** Predicates on computations and stores *)

(** [preserves f c]: running [c] does not change the part [f] of the state,
    whether it returns or raises. *)
Definition preserves {St X A} (f : St -> X) (c : M St A) : Prop :=
  forall s, f (snd (c s)) = f s.

(** [keeps P c]: running [c] from a state in [P] ends in a state in [P],
    whether it returns or raises. *)
Definition keeps {St A} (P : St -> Prop) (c : M St A) : Prop :=
  forall s, P s -> P (snd (c s)).

(** No subscription relates a user to themselves. *)
Definition no_self_subscription (s : Store) : Prop :=
  forall row, In row (subscriptions s) -> sub_author row <> sub_subscriber row.

(** ** Read side: flags, filters, the link view, the recipes of an author *)

(** [UserSerializer.get_is_subscribed]; [None] stands for a missing request
    and for the anonymous user alike. *)
Definition get_is_subscribed (request_user : option User) (obj : User)
  (s : Store) : bool :=
  match request_user with
  | Some u =>
      existsb (is_subscription (user_id obj) (user_id u)) (subscriptions s)
  | None => false
  end.

(** [RecipeReadSerializer.get_is_favorited] *)
Definition get_is_favorited (request_user : option User) (obj : Recipe)
  (s : Store) : bool :=
  match request_user with
  | Some u => existsb (is_favorite (user_id u) (pk obj)) (favorites s)
  | None => false
  end.

(** [RecipeReadSerializer.get_is_in_shopping_cart] *)
Definition get_is_in_shopping_cart (request_user : option User)
  (obj : Recipe) (s : Store) : bool :=
  match request_user with
  | Some u => existsb (is_cart (user_id u) (pk obj)) (shopping_cart s)
  | None => false
  end.

(** [RecipeFilter.filter_user_favorites]: [queryset.none()] is the empty
    list, [filter(Exists(...))] and [exclude(Exists(...))] keep the order of
    the queryset. *)
Definition filter_user_favorites (current_user : option User)
  (queryset : list Recipe) (value : bool) (s : Store) : list Recipe :=
  match current_user with
  | None => if value then [] else queryset
  | Some u =>
      if value
      then filter (fun r => existsb (is_favorite (user_id u) (pk r))
                                    (favorites s)) queryset
      else filter (fun r => negb (existsb (is_favorite (user_id u) (pk r))
                                          (favorites s))) queryset
  end.

(** [RecipeFilter.filter_shopping_list] *)
Definition filter_shopping_list (current_user : option User)
  (queryset : list Recipe) (value : bool) (s : Store) : list Recipe :=
  match current_user with
  | None => if value then [] else queryset
  | Some u =>
      if value
      then filter (fun r => existsb (is_cart (user_id u) (pk r))
                                    (shopping_cart s)) queryset
      else filter (fun r => negb (existsb (is_cart (user_id u) (pk r))
                                          (shopping_cart s))) queryset
  end.

(** [RecipeViewSet.get_short_link] (the [get-link] action, open to all);
    the first argument is [settings.SHORT_LINK_WRAPPER]. *)
Definition RecipeViewSet_get_short_link (SHORT_LINK_WRAPPER : string)
  (pk_ : nat) : M Store Response :=
  recipe <- get_object_or_404 recipes (has_id pk_) ;;
  ret (Response_ (ShortLinkBody (SHORT_LINK_WRAPPER ++ short_link recipe))
                 HTTP_200_OK).

(** [queryset[:limit]] for a positive [limit], once the query is run: it
    carries [LIMIT limit], which the database reads as a [bigint], and a
    larger number makes the query fail with [DataError]. *)
Definition qs_slice {A} (limit : Z) (rows : list A) : Result (list A) :=
  if (9223372036854775807 <? limit)%Z then Err DataError
  else Ok (firstn (Z.to_nat limit) rows).

(** [UserSerializer.get_recipes].  [int] is Python's [int] on a string,
    [None] where it raises [ValueError]; [recipes_limit] is the query
    parameter, [None] when absent; [obj_recipes] is [obj.recipes.all()] in
    the order the database returns it.  The query is run when
    [ShortRecipeSerializer(...).data] is read, inside the method. *)
Definition get_recipes (int : string -> option Z) (include_recipes : bool)
  (recipes_limit : option string) (obj_recipes : list Recipe)
  : Result (option (list Recipe)) :=
  if negb include_recipes then Ok None
  else
    let limit :=
      match recipes_limit with
      | None => None
      | Some str => if is_empty str then None else int str
      end in
    match limit with
    | Some z =>
        if negb (Z.eqb z 0) && Z.ltb 0 z
        then match qs_slice z obj_recipes with
             | Ok recipes_ => Ok (Some recipes_)
             | Err e => Err e
             end
        else Ok (Some obj_recipes)
    | None => Ok (Some obj_recipes)
    end.

(** [UserViewSet.subscriptions], up to the list [authors] that is handed
    to the paginator: the author of every subscription of the user. *)
Definition subscriptions_authors (request_user : User) (s : Store)
  : list User :=
  flat_map
    (fun subscription =>
       if Nat.eqb (sub_subscriber subscription) (user_id request_user)
       then filter (is_user (sub_author subscription)) (users s)
       else [])
    (subscriptions s).

(** [RecipeAdmin.favorites_count]: the annotation
    [Count('favorites', distinct=True)] of the recipe. *)
Definition favorites_count (obj : Recipe) (s : Store) : nat :=
  List.length
    (filter (fun row => Nat.eqb (favorite_recipe row) (pk obj))
            (favorites s)).

(** ** Images sent as data URIs ([Base64ImageField]) *)

(** [str.split(sep)] for a separator that is not empty: the parts between
    the occurrences of [sep], found from left to right.  [skip] counts the
    characters of a found separator still to pass over, [cur] is the part
    read so far. *)
Fixpoint split_aux (sep : string) (skip : nat) (cur : string) (s : string)
  {struct s} : list string :=
  match s with
  | EmptyString => [cur]
  | String c rest =>
      match skip with
      | S k => split_aux sep k cur rest
      | O =>
          if String.prefix sep s
          then cur :: split_aux sep (String.length sep - 1) EmptyString rest
          else split_aux sep 0 (cur ++ String c EmptyString)%string rest
      end
  end.

Definition split (sep s : string) : list string :=
  split_aux sep 0 EmptyString s.

Fixpoint has_char (c : ascii) (s : string) : bool :=
  match s with
  | EmptyString => false
  | String x rest => Ascii.eqb x c || has_char c rest
  end.

(** [ContentFile(content, name=name)] *)
Record ContentFile : Type := mkContentFile
  { file_content : string; file_name : string }.

(** [Base64ImageField.to_internal_value] on a string, up to the value it
    hands to [super().to_internal_value]: the string itself, or the decoded
    file.  [b64decode] is [base64.b64decode]; unpacking a split that has not
    exactly two parts raises [ValueError]. *)
Definition to_internal_value (b64decode : string -> Result string)
  (data : string) : Result (string + ContentFile) :=
  if String.prefix "data:image" data
  then match split ";base64," data with
       | [format; imgstr] =>
           let ext := last (split "/" format) EmptyString in
           match b64decode imgstr with
           | Ok content =>
               Ok (inr (mkContentFile content ("temp." ++ ext)%string))
           | Err e => Err e
           end
       | _ => Err ValueError
       end
  else Ok (inl data).

(** ** Integrity of the recipe and membership tables *)

(** Short links and primary keys are unique, and every key was handed out
    by the sequence. *)
Definition recipes_wf (s : Store) : Prop :=
  NoDup (map short_link (recipes s)) /\
  NoDup (map recipe_id (recipes s)) /\
  forall r, In r (recipes s) ->
            exists i, recipe_id r = Some i /\ i < next_recipe_id s.

(** An instance that is either new or the image of a stored row. *)
Definition new_or_stored (self : Recipe) (s : Store) : Prop :=
  match recipe_id self with
  | None => True
  | Some i => existsb (has_id i) (recipes s) = true
  end.

(** No membership pair is stored twice. *)
Definition memberships_unique (s : Store) : Prop :=
  NoDup (favorites s) /\ NoDup (shopping_cart s) /\ NoDup (subscriptions s).

(** The tags attached to a recipe, and the rows of the other recipes. *)
Definition tags_of (recipe : nat) (s : Store) : list nat :=
  map snd (filter (fun row => Nat.eqb (fst row) recipe) (recipe_tags s)).

Definition other_tag_rows (recipe : nat) (s : Store) : list (nat * nat) :=
  filter (fun row => negb (Nat.eqb (fst row) recipe)) (recipe_tags s).

(** The ingredient rows of one recipe, joined with their ingredients as the
    aggregation joins them. *)
Definition recipe_rows (recipe : nat) (s : Store) : list (Key * Z) :=
  flat_map
    (fun ri =>
       if Nat.eqb (ri_recipe ri) recipe
       then flat_map
              (fun i =>
                 if Nat.eqb (ingredient_id i) (ri_ingredient ri)
                 then [((ingredient_name i, measurement_unit i),
                        ri_amount ri)]
                 else [])
              (ingredients s)
       else [])
    (recipe_ingredients s).

(** The requests that do not write to the shopping cart of [user]: those on
    another relation, those of another user, and those of nobody. *)
Definition spares_cart_of (user : nat) (k : Relation) (actor : option User)
  : Prop :=
  match k, actor with
  | RShoppingCart, Some v => user_id v <> user
  | _, _ => True
  end.

(** ** Sample data

    Two users, two recipes (A = pancakes: flour 200 g, egg 2; B = biscuit:
    flour 300 g, sugar 50 g), both in the first user's shopping cart. *)

Definition alice : User := mkUser 1 "alice".
Definition bob : User := mkUser 2 "bob".

Definition flour : Ingredient := mkIngredient 1 "flour" "g".
Definition egg : Ingredient := mkIngredient 2 "egg" "pcs".
Definition sugar : Ingredient := mkIngredient 3 "sugar" "g".

Definition pancakes : Recipe :=
  mkRecipe (Some 1) "pancakes" "mix and fry" 20 "pancakes.png" 1
           "aB3dE5gH7j".
Definition biscuit : Recipe :=
  mkRecipe (Some 2) "biscuit" "whip and bake" 45 "biscuit.png" 2
           "Zz9yX8wV7u".

Definition kitchen : Store :=
  mkStore [alice; bob] [1; 2] [flour; egg; sugar] []
          [pancakes; biscuit] 3
          [(1, 1); (2, 2)]
          [mkRecipeIngredient 1 1 200; mkRecipeIngredient 1 2 2;
           mkRecipeIngredient 2 1 300; mkRecipeIngredient 2 3 50]
          []
          [mkShoppingCart 1 1; mkShoppingCart 1 2].

(** The kitchen after its RecipeIngredient rows are gone. *)
Definition bare_kitchen : Store := set_recipe_ingredients kitchen [].

Definition flour_total : AggRow := mkAggRow "flour" "g" 500.
Definition egg_total : AggRow := mkAggRow "egg" "pcs" 2.
Definition sugar_total : AggRow := mkAggRow "sugar" "g" 50.

(** A payload for a new recipe. *)
Definition soup : RecipeData :=
  mkRecipeData "soup" "boil" 30 "soup.png" [(1, 100%Z); (3, 5%Z)] [1].

(** An update that renames the recipe and replaces its ingredients. *)
Definition crepes : RecipePatch :=
  mkRecipePatch (Some "crepes"%string) None None None
                (Some [(2, 3%Z); (3, 10%Z)]) None.

(** A random source whose every draw is the link of [pancakes], and one
    whose draws are pairwise distinct. *)
Definition always_taken (length n : nat) : string := "aB3dE5gH7j"%string.
Definition numbered (length n : nat) : string :=
  ("link" ++ str_of_nat n)%string.

(** An update that only sets the tags, naming one of them twice. *)
Definition retag : RecipePatch :=
  mkRecipePatch None None None None None (Some [2; 2; 1]).

(** The kitchen once [bob] has put the biscuit among his favorites. *)
Definition kitchen_with_favorite : Store :=
  set_favorites kitchen [mkFavorite 2 2].

(** A decoder for the sample: it hands back the text it is given. *)
Definition plain (imgstr : string) : Result string := Ok imgstr.

(** A random source whose first two draws are the link of [pancakes], and
    one that returns a string of the length asked for: the letter numbered
    by the draw, repeated. *)
Definition taken_twice (length n : nat) : string :=
  if Nat.ltb n 2 then "aB3dE5gH7j"%string else numbered length n.

Fixpoint repeated (c : ascii) (length : nat) : string :=
  match length with
  | O => EmptyString
  | S rest => String c (repeated c rest)
  end.

Definition lettered (length n : nat) : string :=
  repeated (ascii_of_nat (97 + Nat.modulo n 26)) length.

(** * Properties *)

(** ** Generic facts on tables *)

Ltac unfold_monad :=
  unfold bind, ret, raise, get, put, lift_db, try_except in *.

Lemma existsb_false_filter {A} (p : A -> bool) (l : list A) :
  existsb p l = false -> filter p l = [].
Proof.
  induction l as [|a l IH]; simpl; intros H; [reflexivity|].
  apply orb_false_iff in H. destruct H as [Ha Hl].
  rewrite Ha. auto.
Qed.

Lemma filter_nil_existsb {A} (p : A -> bool) (l : list A) :
  filter p l = [] -> existsb p l = false.
Proof.
  induction l as [|a l IH]; simpl; intros H; [reflexivity|].
  destruct (p a); [discriminate|]. simpl. auto.
Qed.

Lemma existsb_false_filter_negb {A} (p : A -> bool) (l : list A) :
  existsb p l = false -> filter (fun a => negb (p a)) l = l.
Proof.
  induction l as [|a l IH]; simpl; intros H; [reflexivity|].
  apply orb_false_iff in H. destruct H as [Ha Hl].
  rewrite Ha. simpl. f_equal. auto.
Qed.

Lemma filter_filter_negb {A} (p : A -> bool) (l : list A) :
  filter p (filter (fun a => negb (p a)) l) = [].
Proof.
  induction l as [|a l IH]; simpl; [reflexivity|].
  destruct (p a) eqn:E; simpl; [assumption|].
  rewrite E. assumption.
Qed.

Lemma filter_negb_other {A} (p q : A -> bool) (l : list A) :
  (forall a, q a = true -> p a = false) ->
  filter q (filter (fun a => negb (p a)) l) = filter q l.
Proof.
  intros H. induction l as [|a l IH]; simpl; [reflexivity|].
  destruct (p a) eqn:E; simpl.
  - destruct (q a) eqn:Q; [|assumption].
    apply H in Q. congruence.
  - destruct (q a); [f_equal|]; assumption.
Qed.

Lemma length_filter_zero {A} (p : A -> bool) (l : list A) :
  List.length (filter p l) = 0 -> existsb p l = false.
Proof.
  intros H. apply filter_nil_existsb.
  destruct (filter p l); [reflexivity|discriminate].
Qed.

(** ** Short links *)

Section ShortLinkFacts.

Variable get_random_string : nat -> nat -> string.

Local Abbreviation loop := (get_short_link get_random_string).

(** When every candidate collides, the loop raises after [attempt] draws
    and leaves the store alone. *)
Lemma get_short_link_exhausted self length attempt :
  forall w,
    (forall i, i < attempt ->
               existsb (has_short_link
                          (get_random_string length (drawn w + i)))
                       (recipes (db w)) = true) ->
    loop self length attempt w
    = (Err ValueError, mkWorld (db w) (drawn w + attempt)).
Proof.
  induction attempt as [|n IH]; intros w H.
  - simpl. unfold raise. destruct w as [d g]. simpl.
    rewrite Nat.add_0_r. reflexivity.
  - simpl. unfold bind, draw, get. simpl.
    specialize (H 0 (Nat.lt_0_succ n)) as H0.
    rewrite Nat.add_0_r in H0. rewrite H0. simpl.
    rewrite IH.
    + simpl. f_equal. f_equal. lia.
    + intros i Hi. simpl.
      replace (S (drawn w + i)) with (drawn w + S i) by lia.
      apply H. lia.
Qed.

(** The loop accepts the first candidate that no recipe carries. *)
Lemma get_short_link_first_free self length attempt :
  forall w k,
    k < attempt ->
    (forall i, i < k ->
               existsb (has_short_link
                          (get_random_string length (drawn w + i)))
                       (recipes (db w)) = true) ->
    existsb (has_short_link (get_random_string length (drawn w + k)))
            (recipes (db w)) = false ->
    loop self length attempt w
    = (Ok (set_short_link self (get_random_string length (drawn w + k))),
       mkWorld (db w) (drawn w + S k)).
Proof.
  induction attempt as [|n IH]; intros w k Hk Hc Hf; [lia|].
  simpl. unfold bind, draw, get. simpl.
  destruct k as [|k].
  - rewrite Nat.add_0_r in Hf. rewrite Hf. simpl. unfold ret.
    rewrite Nat.add_0_r. repeat f_equal. lia.
  - specialize (Hc 0 (Nat.lt_0_succ k)) as H0.
    rewrite Nat.add_0_r in H0. rewrite H0. simpl.
    rewrite (IH _ k).
    + simpl. replace (S (drawn w + k)) with (drawn w + S k) by lia.
      repeat f_equal. lia.
    + lia.
    + intros i Hi. simpl.
      replace (S (drawn w + i)) with (drawn w + S i) by lia.
      apply Hc. lia.
    + simpl. replace (S (drawn w + k)) with (drawn w + S k) by lia.
      exact Hf.
Qed.

(** Whatever it returns, the loop never writes to the store. *)
Lemma get_short_link_db self length attempt :
  forall w, db (snd (loop self length attempt w)) = db w.
Proof.
  induction attempt as [|n IH]; intros w; [reflexivity|].
  simpl. unfold bind, draw, get. simpl.
  destruct (existsb _ _); simpl; [|reflexivity].
  rewrite IH. reflexivity.
Qed.

Lemma save_nonempty self w :
  is_empty (short_link self) = false ->
  save get_random_string self w = lift_db (Model_save self) w.
Proof.
  intros H. unfold save. rewrite H. reflexivity.
Qed.

End ShortLinkFacts.

(** ** Frame facts: what the recipe writes leave alone *)

Lemma lift_db_drawn {A} (c : M Store A) w :
  drawn (snd (lift_db c w)) = drawn w.
Proof. unfold lift_db. destruct (c (db w)). reflexivity. Qed.

Lemma lift_db_db {A} (c : M Store A) w :
  db (snd (lift_db c w)) = snd (c (db w)).
Proof. unfold lift_db. destruct (c (db w)). reflexivity. Qed.

Lemma lift_db_fst {A} (c : M Store A) w :
  fst (lift_db c w) = fst (c (db w)).
Proof. unfold lift_db. destruct (c (db w)). reflexivity. Qed.

Lemma preserves_ret {St X A} (f : St -> X) (a : A) : preserves f (ret a).
Proof. intros s. reflexivity. Qed.

Lemma preserves_raise {St X A} (f : St -> X) e :
  preserves f (@raise St A e).
Proof. intros s. reflexivity. Qed.

Lemma preserves_get {St X} (f : St -> X) : preserves f get.
Proof. intros s. reflexivity. Qed.

Lemma preserves_bind {St X A B} (f : St -> X) (c : M St A) (k : A -> M St B) :
  preserves f c -> (forall a, preserves f (k a)) -> preserves f (bind c k).
Proof.
  intros Hc Hk s. unfold bind. specialize (Hc s).
  destruct (c s) as [[a|e] s']; simpl in *.
  - rewrite Hk. assumption.
  - assumption.
Qed.

Lemma preserves_lift_db {X A} (f : Store -> X) (c : M Store A) :
  preserves f c -> preserves (fun w => f (db w)) (lift_db c).
Proof.
  intros Hc w. rewrite lift_db_db. apply Hc.
Qed.

Lemma preserves_drawn_lift_db {A} (c : M Store A) :
  preserves drawn (lift_db c).
Proof. intros w. apply lift_db_drawn. Qed.

Lemma preserves_saved_pk {St X} (f : St -> X) recipe :
  preserves f (saved_pk recipe).
Proof. intros s. unfold saved_pk. destruct (recipe_id recipe); reflexivity. Qed.

Create HintDb frame.

#[local] Hint Resolve preserves_ret preserves_raise preserves_get
  preserves_saved_pk preserves_drawn_lift_db : frame.

Lemma preserves_recipes_lift_db {A} (c : M Store A) :
  preserves recipes c -> preserves (fun w => recipes (db w)) (lift_db c).
Proof. apply preserves_lift_db. Qed.

Lemma preserves_recipe_tags_lift_db {A} (c : M Store A) :
  preserves recipe_tags c ->
  preserves (fun w => recipe_tags (db w)) (lift_db c).
Proof. apply preserves_lift_db. Qed.

Lemma preserves_recipe_ingredients_lift_db {A} (c : M Store A) :
  preserves recipe_ingredients c ->
  preserves (fun w => recipe_ingredients (db w)) (lift_db c).
Proof. apply preserves_lift_db. Qed.

#[local] Hint Resolve preserves_recipes_lift_db preserves_recipe_tags_lift_db
  preserves_recipe_ingredients_lift_db : frame.

Ltac frame :=
  repeat first
    [ solve [auto with frame]
    | apply preserves_bind; [|intros ?]
    | match goal with
      | |- preserves _ (if ?b then _ else _) => destruct b
      | |- preserves _ (match ?o with Some _ => _ | None => _ end) =>
          destruct o
      end ].

(** A primitive write, proved by running it. *)
Ltac frame_run f :=
  intros ?; unfold f, saved_pk; unfold_monad;
  repeat (cbv beta iota zeta;
          match goal with
          | |- context [match recipe_id ?x with _ => _ end] =>
              destruct (recipe_id x)
          | |- context [PositiveSmallIntegerField ?c ?v] =>
              destruct (PositiveSmallIntegerField c v)
          | |- context [if existsb ?p ?l then _ else _] =>
              destruct (existsb p l)
          end);
  reflexivity.

Lemma tags_set_recipes recipe t :
  preserves recipes (tags_set recipe t).
Proof. frame_run tags_set. Qed.

Lemma tags_set_recipe_ingredients recipe t :
  preserves recipe_ingredients (tags_set recipe t).
Proof. frame_run tags_set. Qed.

Lemma delete_ingredients_recipes recipe :
  preserves recipes (delete_ingredients recipe).
Proof. frame_run delete_ingredients. Qed.

Lemma delete_ingredients_recipe_tags recipe :
  preserves recipe_tags (delete_ingredients recipe).
Proof. frame_run delete_ingredients. Qed.

Lemma RecipeIngredient_create_recipes r i a :
  preserves recipes (RecipeIngredient_create r i a).
Proof. frame_run RecipeIngredient_create. Qed.

Lemma RecipeIngredient_create_recipe_tags r i a :
  preserves recipe_tags (RecipeIngredient_create r i a).
Proof. frame_run RecipeIngredient_create. Qed.

#[local] Hint Resolve tags_set_recipes tags_set_recipe_ingredients
  delete_ingredients_recipes delete_ingredients_recipe_tags
  RecipeIngredient_create_recipes RecipeIngredient_create_recipe_tags : frame.

Lemma _add_ingredients_recipes recipe l :
  preserves recipes (_add_ingredients recipe l).
Proof. induction l as [|x l IH]; simpl; frame. Qed.

Lemma _add_ingredients_recipe_tags recipe l :
  preserves recipe_tags (_add_ingredients recipe l).
Proof. induction l as [|x l IH]; simpl; frame. Qed.

#[local] Hint Resolve _add_ingredients_recipes _add_ingredients_recipe_tags
  : frame.

Lemma Model_save_ok self s saved s' :
  Model_save self s = (Ok saved, s') ->
  short_link saved = short_link self /\
  recipe_name saved = recipe_name self /\
  recipe_text saved = recipe_text self /\
  cooking_time saved = cooking_time self /\
  recipe_image saved = recipe_image self /\
  recipe_author saved = recipe_author self /\
  (forall i, recipe_id self = Some i -> saved = self) /\
  (recipe_id self = None -> recipe_id saved = Some (next_recipe_id s)) /\
  In saved (recipes s').
Proof.
  unfold Model_save. intros H.
  destruct (PositiveSmallIntegerField _ _); [|discriminate].
  destruct (recipe_id self) as [i|] eqn:Hid.
  - destruct (existsb _ _); [discriminate|].
    destruct (existsb (has_id i) (recipes s)) eqn:Hex; inversion H; subst;
      clear H; repeat split; try reflexivity; try discriminate; simpl.
    + apply existsb_exists in Hex. destruct Hex as [r [Hin Hr]].
      apply in_map_iff. exists r. rewrite Hr. auto.
    + apply in_or_app. right. left. reflexivity.
  - destruct (existsb _ _); [discriminate|].
    inversion H; subst; clear H.
    repeat split; try reflexivity; try discriminate; simpl.
    apply in_or_app. right. left. reflexivity.
Qed.

(** ** Short-link resolution *)

(** C1, as the code behaves.  A token that no recipe carries makes
    [get_object_or_404] raise [Http404] inside the [try] block; the
    [except Exception] clause catches it, so the view answers with status
    500, which is not a client error.  A token carried by one recipe is
    answered by a redirect to [/recipes/<id>/] on the request's origin. *)
Theorem redirect_to_recipe_resolution origin link s :
  (filter (has_short_link link) (recipes s) = [] ->
   redirect_to_recipe origin link s
   = (Ok (Response_ (ErrorBody MsgRedirectFailed) 500), s) /\
   http_status (fst (redirect_to_recipe origin link s)) = 500 /\
   client_error (http_status (fst (redirect_to_recipe origin link s)))
   = false) /\
  (forall r i,
      filter (has_short_link link) (recipes s) = [r] ->
      recipe_id r = Some i ->
      redirect_to_recipe origin link s
      = (Ok (HttpResponseRedirect
               (origin ++ "/recipes/" ++ str_of_nat i ++ "/")%string), s)).
Proof.
  split.
  - intros H.
    assert (E : redirect_to_recipe origin link s
                = (Ok (Response_ (ErrorBody MsgRedirectFailed) 500), s)).
    { unfold redirect_to_recipe, redirect_to_recipe_try, get_object_or_404.
      unfold_monad. rewrite H. reflexivity. }
    rewrite E. repeat split; reflexivity.
  - intros r i H Hid.
    unfold redirect_to_recipe, redirect_to_recipe_try, get_object_or_404.
    unfold_monad. rewrite H.
    unfold build_absolute_uri, recipe_path. rewrite Hid. reflexivity.
Qed.

Lemma redirect_to_recipe_resolution_witness :
  redirect_to_recipe "https://foodgram.example" "nosuchlink" kitchen
  = (Ok (Response_ (ErrorBody MsgRedirectFailed) 500), kitchen) /\
  redirect_to_recipe "https://foodgram.example" "Zz9yX8wV7u" kitchen
  = (Ok (HttpResponseRedirect "https://foodgram.example/recipes/2/"),
     kitchen).
Proof.
  split.
  - apply (proj1 (redirect_to_recipe_resolution
                    "https://foodgram.example" "nosuchlink" kitchen)).
    reflexivity.
  - apply (proj2 (redirect_to_recipe_resolution
                    "https://foodgram.example" "Zz9yX8wV7u" kitchen)
             biscuit 2); reflexivity.
Defined.

(** ** Short-link generation *)

Section Generation.

Variable get_random_string : nat -> nat -> string.

Lemma create_fails_with_Recipe_create user data w e w' :
  Recipe_create get_random_string (Recipe_of_data user data) w
  = (Err e, w') ->
  create get_random_string user data w = (Err e, w').
Proof.
  intros H. unfold create, bind. rewrite H. reflexivity.
Qed.

(** C5.  When each of the first [attempt] candidates drawn is the link of
    some stored recipe, [get_short_link] raises [ValueError] after exactly
    [attempt] draws; with the defaults (10 draws of length 10), saving a
    recipe that has no link raises, and so does the serializer's [create],
    with no write to the store. *)
Theorem short_link_generation_exhausted w :
  (forall self length attempt,
      (forall i, i < attempt ->
                 existsb (has_short_link
                            (get_random_string length (drawn w + i)))
                         (recipes (db w)) = true) ->
      get_short_link get_random_string self length attempt w
      = (Err ValueError, mkWorld (db w) (drawn w + attempt))) /\
  ((forall i, i < 10 ->
              existsb (has_short_link (get_random_string 10 (drawn w + i)))
                      (recipes (db w)) = true) ->
   (forall self,
       is_empty (short_link self) = true ->
       save get_random_string self w
       = (Err ValueError, mkWorld (db w) (drawn w + 10))) /\
   (forall user data,
       create get_random_string user data w
       = (Err ValueError, mkWorld (db w) (drawn w + 10)))).
Proof.
  split.
  - intros self length attempt H.
    apply get_short_link_exhausted. exact H.
  - intros H.
    assert (S : forall self, is_empty (short_link self) = true ->
                             save get_random_string self w
                             = (Err ValueError,
                                mkWorld (db w) (drawn w + 10))).
    { intros self He. unfold save. rewrite He. unfold bind.
      rewrite get_short_link_exhausted by exact H. reflexivity. }
    split; [exact S|].
    intros user data. apply create_fails_with_Recipe_create.
    unfold Recipe_create. apply S. reflexivity.
Qed.

(** C9.  Saving a recipe whose [short_link] is not empty draws no random
    string and hands the instance to the storage layer as it is: when the
    save succeeds, the saved row has the same [short_link] and the same
    other fields, and it is the row stored.  The same holds for every
    update through the serializer, whose only change to the instance is
    the fields supplied in the payload. *)
Theorem save_keeps_short_link self w :
  is_empty (short_link self) = false ->
  save get_random_string self w = lift_db (Model_save self) w /\
  drawn (snd (save get_random_string self w)) = drawn w /\
  (forall saved,
      fst (save get_random_string self w) = Ok saved ->
      short_link saved = short_link self /\
      recipe_name saved = recipe_name self /\
      recipe_text saved = recipe_text self /\
      cooking_time saved = cooking_time self /\
      recipe_image saved = recipe_image self /\
      recipe_author saved = recipe_author self /\
      In saved (recipes (db (snd (save get_random_string self w))))) /\
  (forall p,
      drawn (snd (update get_random_string self p w)) = drawn w /\
      forall updated,
        fst (update get_random_string self p w) = Ok updated ->
        short_link updated = short_link self /\
        recipe_name updated = or_else (patch_name p) (recipe_name self) /\
        recipe_text updated = or_else (patch_text p) (recipe_text self) /\
        cooking_time updated
        = or_else (patch_cooking_time p) (cooking_time self) /\
        recipe_image updated
        = or_else (patch_image p) (recipe_image self) /\
        recipe_author updated = recipe_author self /\
        In updated
           (recipes (db (snd (update get_random_string self p w))))).
Proof.
  intros Hne.
  pose proof (save_nonempty get_random_string self w Hne) as Hs.
  split; [exact Hs|]. split; [rewrite Hs; apply lift_db_drawn|].
  split.
  - intros saved Hok. rewrite Hs in *. clear Hs.
    rewrite lift_db_fst in Hok. rewrite lift_db_db.
    destruct (Model_save self (db w)) as [r s'] eqn:E. simpl in *.
    subst r. apply Model_save_ok in E. intuition.
  - intros p.
    assert (Hne' : is_empty (short_link (set_attrs self p)) = false)
      by exact Hne.
    pose proof (save_nonempty get_random_string (set_attrs self p) w Hne')
      as Hu.
    pose (rest := fun recipe : Recipe =>
            (match patch_tags p with
             | Some t => lift_db (tags_set recipe t)
             | None => ret tt
             end ;;;
             match patch_ingredients p with
             | Some l =>
                 lift_db (delete_ingredients recipe) ;;;
                 lift_db (_add_ingredients recipe l)
             | None => ret tt
             end ;;;
             ret recipe) : M World Recipe).
    assert (Hupd : update get_random_string self p w
                   = match lift_db (Model_save (set_attrs self p)) w with
                     | (Ok saved, w1) => rest saved w1
                     | (Err e, w1) => (Err e, w1)
                     end).
    { unfold update, super_update. unfold bind at 1. rewrite Hu.
      reflexivity. }
    rewrite Hupd. clear Hupd Hu.
    assert (Hrest : forall r,
               preserves drawn (rest r) /\
               preserves (fun w => recipes (db w)) (rest r) /\
               forall w1 r', fst (rest r w1) = Ok r' -> r' = r).
    { intros r. unfold rest. repeat split.
      - frame.
      - frame.
      - intros w1 r'. unfold bind.
        destruct (match patch_tags p with _ => _ end w1) as [[?|?] ?];
          [|discriminate].
        destruct (match patch_ingredients p with _ => _ end w0)
          as [[?|?] ?]; [|discriminate].
        unfold ret. simpl. congruence. }
    pose proof (lift_db_drawn (Model_save (set_attrs self p)) w) as Hd.
    pose proof (lift_db_db (Model_save (set_attrs self p)) w) as Hdb.
    pose proof (lift_db_fst (Model_save (set_attrs self p)) w) as Hf.
    destruct (lift_db (Model_save (set_attrs self p)) w)
      as [[saved|e] w1]; simpl in *; [|split; [exact Hd|discriminate]].
    destruct (Hrest saved) as [R1 [R2 R3]].
    split; [rewrite R1; exact Hd|].
    intros updated Hok. apply R3 in Hok. subst updated.
    destruct (Model_save (set_attrs self p) (db w)) as [res s'] eqn:E.
    simpl in *. subst res. apply Model_save_ok in E.
    specialize (R2 w1). cbv beta in R2.
    rewrite R2. rewrite Hdb. simpl in E. intuition.
Qed.

End Generation.

(** ** Memberships *)

Lemma filter_singleton_holds {A} (p : A -> bool) (l : list A) a :
  filter p l = [a] -> p a = true.
Proof.
  intros H. assert (I : In a (filter p l)) by (rewrite H; left; reflexivity).
  apply filter_In in I. tauto.
Qed.

Lemma length_one_singleton {A} (l : list A) :
  Nat.eqb (List.length l) 1 = true -> exists a, l = [a].
Proof.
  destruct l as [|a [|b l]]; simpl; try discriminate.
  intros _. exists a. reflexivity.
Qed.

Lemma has_id_pk i r : has_id i r = true -> pk r = i /\ recipe_id r = Some i.
Proof.
  unfold has_id, pk. destruct (recipe_id r) as [j|]; [|discriminate].
  intros H. apply Nat.eqb_eq in H. subst. auto.
Qed.

Lemma length_filter_snoc {A} (p : A -> bool) (l : list A) a :
  List.length (filter p (l ++ [a]))
  = List.length (filter p l) + (if p a then 1 else 0).
Proof.
  rewrite filter_app, length_app. simpl. destruct (p a); reflexivity.
Qed.

Lemma length_filter_pos_existsb {A} (p : A -> bool) (l : list A) :
  0 < List.length (filter p l) -> existsb p l = true.
Proof.
  intros H. destruct (existsb p l) eqn:E; [reflexivity|].
  apply existsb_false_filter in E. rewrite E in H. simpl in H. lia.
Qed.

Lemma existsb_length_filter {A} (p : A -> bool) (l : list A) :
  existsb p l = true -> 0 < List.length (filter p l).
Proof.
  intros H. apply existsb_exists in H. destruct H as [a [Hin Hp]].
  assert (I : In a (filter p l)) by (apply filter_In; auto).
  destruct (filter p l); [contradiction|simpl; lia].
Qed.

(** A key column without duplicates selects at most one row. *)
Lemma unique_key_filter {A K} (f : A -> K) (p : A -> bool) (k : K)
  (l : list A) :
  NoDup (map f l) -> (forall a, p a = true -> f a = k) ->
  List.length (filter p l) <= 1.
Proof.
  intros Hnd Hp. induction l as [|a l IH]; simpl; [lia|].
  inversion Hnd as [|x xs Hnotin Hnd']; subst.
  destruct (p a) eqn:E; [|auto].
  simpl. assert (F : filter p l = []).
  { destruct (filter p l) as [|b l'] eqn:Fl; [reflexivity|].
    exfalso. apply Hnotin.
    assert (I : In b (filter p l)) by (rewrite Fl; left; reflexivity).
    apply filter_In in I. destruct I as [Ib Pb].
    rewrite (Hp a E), <- (Hp b Pb). apply in_map. exact Ib. }
  rewrite F. simpl. lia.
Qed.

Lemma is_user_key id u : is_user id u = true -> user_id u = id.
Proof. unfold is_user. apply Nat.eqb_eq. Qed.

Lemma has_id_key i r : has_id i r = true -> recipe_id r = Some i.
Proof. intros H. apply has_id_pk in H. tauto. Qed.

(** *** Favorites *)

Lemma favorite_created u t r s :
  filter (has_id t) (recipes s) = [r] ->
  existsb (is_favorite (user_id u) t) (favorites s) = false ->
  favorite (Some u) t s
  = (Ok (Response_ (ShortRecipeBody r) 201),
     set_favorites s (favorites s ++ [mkFavorite (user_id u) t])).
Proof.
  intros Hr Hex.
  pose proof (filter_singleton_holds _ _ _ Hr) as Hid.
  apply has_id_pk in Hid. destruct Hid as [Hpk _].
  unfold favorite, get_object_or_404, FavoriteSerializer_validate,
    Favorite_create, IsAuthenticated.
  unfold_monad. rewrite Hr. simpl. rewrite Hpk, Hex. simpl.
  rewrite ?Hpk, ?Hex. reflexivity.
Qed.

Lemma favorite_duplicate u t r s :
  filter (has_id t) (recipes s) = [r] ->
  existsb (is_favorite (user_id u) t) (favorites s) = true ->
  favorite (Some u) t s
  = (Err (ValidationError (MsgAlreadyInFavorites (recipe_name r))), s).
Proof.
  intros Hr Hex.
  pose proof (filter_singleton_holds _ _ _ Hr) as Hid.
  apply has_id_pk in Hid. destruct Hid as [Hpk _].
  unfold favorite, get_object_or_404, FavoriteSerializer_validate,
    IsAuthenticated.
  unfold_monad. rewrite Hr. simpl. rewrite Hpk, Hex. reflexivity.
Qed.

Lemma delete_from_favorites_missing u t s :
  filter (has_id t) (recipes s) = [] ->
  delete_from_favorites (Some u) t s = (Err Http404, s).
Proof.
  intros Hr. unfold delete_from_favorites, get_object_or_404, IsAuthenticated.
  unfold_monad. rewrite Hr. reflexivity.
Qed.

Lemma delete_from_favorites_absent u t r s :
  filter (has_id t) (recipes s) = [r] ->
  existsb (is_favorite (user_id u) t) (favorites s) = false ->
  delete_from_favorites (Some u) t s
  = (Err (ValidationError (MsgNotInFavorites (recipe_name r))), s).
Proof.
  intros Hr Hex.
  pose proof (filter_singleton_holds _ _ _ Hr) as Hid.
  apply has_id_pk in Hid. destruct Hid as [Hpk _].
  unfold delete_from_favorites, get_object_or_404, IsAuthenticated, qs_delete.
  unfold_monad. rewrite Hr. simpl. rewrite Hpk.
  rewrite (existsb_false_filter _ _ Hex).
  rewrite (existsb_false_filter_negb _ _ Hex). simpl.
  destruct s; reflexivity.
Qed.

Lemma delete_from_favorites_present u t r s :
  filter (has_id t) (recipes s) = [r] ->
  existsb (is_favorite (user_id u) t) (favorites s) = true ->
  delete_from_favorites (Some u) t s
  = (Ok (Response_ NoBody 204),
     set_favorites s
       (filter (fun row => negb (is_favorite (user_id u) t row))
               (favorites s))).
Proof.
  intros Hr Hex.
  pose proof (filter_singleton_holds _ _ _ Hr) as Hid.
  apply has_id_pk in Hid. destruct Hid as [Hpk _].
  unfold delete_from_favorites, get_object_or_404, IsAuthenticated, qs_delete.
  unfold_monad. rewrite Hr. simpl. rewrite Hpk.
  apply existsb_length_filter in Hex.
  destruct (List.length (filter _ (favorites s))); [lia|]. reflexivity.
Qed.

(** *** Shopping cart *)

Lemma shopping_cart_created u t r s :
  filter (has_id t) (recipes s) = [r] ->
  existsb (is_cart (user_id u) t) (shopping_cart s) = false ->
  shopping_cart_add (Some u) t s
  = (Ok (Response_ (ShortRecipeBody r) 201),
     set_shopping_cart s (shopping_cart s ++ [mkShoppingCart (user_id u) t])).
Proof.
  intros Hr Hex.
  pose proof (filter_singleton_holds _ _ _ Hr) as Hid.
  apply has_id_pk in Hid. destruct Hid as [Hpk _].
  unfold shopping_cart_add, get_object_or_404, ShoppingCartSerializer_validate,
    ShoppingCart_create, IsAuthenticated.
  unfold_monad. rewrite Hr. simpl. rewrite Hpk, Hex. simpl.
  rewrite ?Hpk, ?Hex. reflexivity.
Qed.

Lemma shopping_cart_duplicate u t r s :
  filter (has_id t) (recipes s) = [r] ->
  existsb (is_cart (user_id u) t) (shopping_cart s) = true ->
  shopping_cart_add (Some u) t s
  = (Err (ValidationError (MsgAlreadyInCart (recipe_name r))), s).
Proof.
  intros Hr Hex.
  pose proof (filter_singleton_holds _ _ _ Hr) as Hid.
  apply has_id_pk in Hid. destruct Hid as [Hpk _].
  unfold shopping_cart_add, get_object_or_404, ShoppingCartSerializer_validate,
    IsAuthenticated.
  unfold_monad. rewrite Hr. simpl. rewrite Hpk, Hex. reflexivity.
Qed.

Lemma delete_from_shopping_cart_missing u t s :
  filter (has_id t) (recipes s) = [] ->
  delete_from_shopping_cart (Some u) t s = (Err Http404, s).
Proof.
  intros Hr.
  unfold delete_from_shopping_cart, get_object_or_404, IsAuthenticated.
  unfold_monad. rewrite Hr. reflexivity.
Qed.

Lemma delete_from_shopping_cart_absent u t r s :
  filter (has_id t) (recipes s) = [r] ->
  existsb (is_cart (user_id u) t) (shopping_cart s) = false ->
  delete_from_shopping_cart (Some u) t s
  = (Err (ValidationError (MsgNotInCart (recipe_name r))), s).
Proof.
  intros Hr Hex.
  pose proof (filter_singleton_holds _ _ _ Hr) as Hid.
  apply has_id_pk in Hid. destruct Hid as [Hpk _].
  unfold delete_from_shopping_cart, get_object_or_404, IsAuthenticated,
    qs_delete.
  unfold_monad. rewrite Hr. simpl. rewrite Hpk.
  rewrite (existsb_false_filter _ _ Hex).
  rewrite (existsb_false_filter_negb _ _ Hex). simpl.
  destruct s; reflexivity.
Qed.

Lemma delete_from_shopping_cart_present u t r s :
  filter (has_id t) (recipes s) = [r] ->
  existsb (is_cart (user_id u) t) (shopping_cart s) = true ->
  delete_from_shopping_cart (Some u) t s
  = (Ok (Response_ NoBody 204),
     set_shopping_cart s
       (filter (fun row => negb (is_cart (user_id u) t row))
               (shopping_cart s))).
Proof.
  intros Hr Hex.
  pose proof (filter_singleton_holds _ _ _ Hr) as Hid.
  apply has_id_pk in Hid. destruct Hid as [Hpk _].
  unfold delete_from_shopping_cart, get_object_or_404, IsAuthenticated,
    qs_delete.
  unfold_monad. rewrite Hr. simpl. rewrite Hpk.
  apply existsb_length_filter in Hex.
  destruct (List.length (filter _ (shopping_cart s))); [lia|]. reflexivity.
Qed.

(** *** Subscriptions *)

Lemma subscribe_created u t a s :
  filter (is_user t) (users s) = [a] ->
  user_id u <> t ->
  existsb (is_subscription t (user_id u)) (subscriptions s) = false ->
  subscribe (Some u) t s
  = (Ok (Response_ (AuthorBody a) 201),
     set_subscriptions s (subscriptions s ++ [mkSubscription t (user_id u)])).
Proof.
  intros Hr Hne Hex.
  pose proof (filter_singleton_holds _ _ _ Hr) as Hid.
  apply is_user_key in Hid.
  unfold subscribe, get_object_or_404, SubscriptionSerializer_validate,
    Subscription_create, IsAuthenticated.
  unfold_monad. rewrite Hr. simpl. rewrite Hid.
  apply Nat.eqb_neq in Hne. rewrite Hne, Hex. simpl.
  rewrite Hid. rewrite Nat.eqb_sym, Hne, Hex. reflexivity.
Qed.

Lemma subscribe_duplicate u t a s :
  filter (is_user t) (users s) = [a] ->
  user_id u <> t ->
  existsb (is_subscription t (user_id u)) (subscriptions s) = true ->
  subscribe (Some u) t s
  = (Err (ValidationError (MsgAlreadySubscribed (username u) (username a))),
     s).
Proof.
  intros Hr Hne Hex.
  pose proof (filter_singleton_holds _ _ _ Hr) as Hid.
  apply is_user_key in Hid.
  unfold subscribe, get_object_or_404, SubscriptionSerializer_validate,
    IsAuthenticated.
  unfold_monad. rewrite Hr. simpl. rewrite Hid.
  apply Nat.eqb_neq in Hne. rewrite Hne, Hex. reflexivity.
Qed.

Lemma subscribe_self u a s :
  filter (is_user (user_id u)) (users s) = [a] ->
  subscribe (Some u) (user_id u) s
  = (Err (ValidationError MsgSelfSubscribe), s).
Proof.
  intros Hr.
  pose proof (filter_singleton_holds _ _ _ Hr) as Hid.
  apply is_user_key in Hid.
  unfold subscribe, get_object_or_404, SubscriptionSerializer_validate,
    IsAuthenticated.
  unfold_monad. rewrite Hr. simpl. rewrite Hid, Nat.eqb_refl. reflexivity.
Qed.

Lemma unsubscribe_missing u t s :
  filter (is_user t) (users s) = [] ->
  unsubscribe (Some u) t s = (Err Http404, s).
Proof.
  intros Hr. unfold unsubscribe, get_object_or_404, IsAuthenticated.
  unfold_monad. rewrite Hr. reflexivity.
Qed.

Lemma unsubscribe_absent u t a s :
  filter (is_user t) (users s) = [a] ->
  existsb (is_subscription t (user_id u)) (subscriptions s) = false ->
  unsubscribe (Some u) t s
  = (Err (ValidationError (MsgNotSubscribed (username a))), s).
Proof.
  intros Hr Hex.
  pose proof (filter_singleton_holds _ _ _ Hr) as Hid.
  apply is_user_key in Hid.
  unfold unsubscribe, get_object_or_404, IsAuthenticated, qs_delete.
  unfold_monad. rewrite Hr. simpl. rewrite Hid.
  rewrite (existsb_false_filter _ _ Hex).
  rewrite (existsb_false_filter_negb _ _ Hex). simpl.
  destruct s; reflexivity.
Qed.

Lemma unsubscribe_present u t a s :
  filter (is_user t) (users s) = [a] ->
  existsb (is_subscription t (user_id u)) (subscriptions s) = true ->
  unsubscribe (Some u) t s
  = (Ok (Response_ NoBody 204),
     set_subscriptions s
       (filter (fun row => negb (is_subscription t (user_id u) row))
               (subscriptions s))).
Proof.
  intros Hr Hex.
  pose proof (filter_singleton_holds _ _ _ Hr) as Hid.
  apply is_user_key in Hid.
  unfold unsubscribe, get_object_or_404, IsAuthenticated, qs_delete.
  unfold_monad. rewrite Hr. simpl. rewrite Hid.
  apply existsb_length_filter in Hex.
  destruct (List.length (filter _ (subscriptions s))); [lia|]. reflexivity.
Qed.

(** *** The relations together *)

Lemma resolved_recipe t s :
  Nat.eqb (List.length (filter (has_id t) (recipes s))) 1 = true ->
  exists r, filter (has_id t) (recipes s) = [r].
Proof. apply length_one_singleton. Qed.

Lemma pair_neq_favorite a t a' t' :
  (a', t') <> (a, t) -> is_favorite a' t' (mkFavorite a t) = false.
Proof.
  intros H. unfold is_favorite. simpl.
  destruct (Nat.eqb a a') eqn:E1; [|reflexivity].
  destruct (Nat.eqb t t') eqn:E2; [|reflexivity].
  apply Nat.eqb_eq in E1, E2. subst. contradiction H. reflexivity.
Qed.

Lemma pair_neq_cart a t a' t' :
  (a', t') <> (a, t) -> is_cart a' t' (mkShoppingCart a t) = false.
Proof.
  intros H. unfold is_cart. simpl.
  destruct (Nat.eqb a a') eqn:E1; [|reflexivity].
  destruct (Nat.eqb t t') eqn:E2; [|reflexivity].
  apply Nat.eqb_eq in E1, E2. subst. contradiction H. reflexivity.
Qed.

Lemma pair_neq_subscription a t a' t' :
  (a', t') <> (a, t) -> is_subscription t' a' (mkSubscription t a) = false.
Proof.
  intros H. unfold is_subscription. simpl.
  destruct (Nat.eqb t t') eqn:E1; [|reflexivity].
  destruct (Nat.eqb a a') eqn:E2; [|reflexivity].
  apply Nat.eqb_eq in E1, E2. subst. contradiction H. reflexivity.
Qed.

Lemma triple_neq_pair (k : Relation) (a t a' t' : nat) :
  (k, a', t') <> (k, a, t) -> (a', t') <> (a, t).
Proof. intros H E. apply H. congruence. Qed.

Lemma is_favorite_true a t row :
  is_favorite a t row = true -> row = mkFavorite a t.
Proof.
  unfold is_favorite. intros H. apply andb_true_iff in H.
  destruct H as [H1 H2]. apply Nat.eqb_eq in H1, H2.
  destruct row; simpl in *; congruence.
Qed.

Lemma is_cart_true a t row :
  is_cart a t row = true -> row = mkShoppingCart a t.
Proof.
  unfold is_cart. intros H. apply andb_true_iff in H.
  destruct H as [H1 H2]. apply Nat.eqb_eq in H1, H2.
  destruct row; simpl in *; congruence.
Qed.

Lemma is_subscription_true t a row :
  is_subscription t a row = true -> row = mkSubscription t a.
Proof.
  unfold is_subscription. intros H. apply andb_true_iff in H.
  destruct H as [H1 H2]. apply Nat.eqb_eq in H1, H2.
  destruct row; simpl in *; congruence.
Qed.




Lemma at_most_one_cases {A} (l : list A) :
  List.length l <= 1 -> l = [] \/ exists a, l = [a].
Proof.
  destruct l as [|a [|b l]]; simpl; intros H; [left|right; exists a|lia];
    reflexivity.
Qed.

Lemma recipe_lookup_cases s t :
  wf_store s ->
  filter (has_id t) (recipes s) = [] \/
  exists r, filter (has_id t) (recipes s) = [r].
Proof.
  intros W. apply at_most_one_cases.
  apply unique_key_filter with (f := recipe_id) (k := Some t).
  - apply (wf_recipe_pk s W).
  - apply has_id_key.
Qed.

Lemma user_lookup_cases s t :
  wf_store s ->
  filter (is_user t) (users s) = [] \/
  exists a, filter (is_user t) (users s) = [a].
Proof.
  intros W. apply at_most_one_cases.
  apply unique_key_filter with (f := user_id) (k := t).
  - apply (wf_user_pk s W).
  - apply is_user_key.
Qed.

Lemma filter_length_pos_in {A} (p : A -> bool) (l : list A) :
  0 < List.length (filter p l) -> exists a, In a l /\ p a = true.
Proof.
  intros H. apply length_filter_pos_existsb in H.
  apply existsb_exists in H. exact H.
Qed.

(** C7.  In a store that satisfies its keys and references: removing an
    absent pair fails, with [Http404] when the target itself does not exist
    and with the relation's not-present validation error otherwise, both
    client errors, and writes nothing; removing a present pair answers 204,
    leaves no row for the pair and keeps the rows of every other pair. *)
Theorem remove_semantics k actor target s :
  wf_store s ->
  (rows_of k (user_id actor) target s = 0 ->
   exists e,
     remove k (Some actor) target s = (Err e, s) /\
     not_found e = true /\
     client_error (http_status (@Err Response e)) = true) /\
  (0 < rows_of k (user_id actor) target s ->
   exists s',
     remove k (Some actor) target s = (Ok (Response_ NoBody 204), s') /\
     rows_of k (user_id actor) target s' = 0 /\
     forall k' a' t',
       (k', a', t') <> (k, user_id actor, target) ->
       rows_of k' a' t' s' = rows_of k' a' t' s).
Proof.
  intros W. split.
  - intros Habs. destruct k; simpl in Habs;
      pose proof (length_filter_zero _ _ Habs) as Hex; simpl.
    + destruct (recipe_lookup_cases s target W) as [Hr|[r Hr]].
      * exists Http404. rewrite delete_from_favorites_missing by exact Hr.
        repeat split.
      * eexists. rewrite delete_from_favorites_absent with (r := r)
          by assumption. repeat split.
    + destruct (recipe_lookup_cases s target W) as [Hr|[r Hr]].
      * exists Http404. rewrite delete_from_shopping_cart_missing by exact Hr.
        repeat split.
      * eexists. rewrite delete_from_shopping_cart_absent with (r := r)
          by assumption. repeat split.
    + destruct (user_lookup_cases s target W) as [Hr|[r Hr]].
      * exists Http404. rewrite unsubscribe_missing by exact Hr.
        repeat split.
      * eexists. rewrite unsubscribe_absent with (a := r) by assumption.
        repeat split.
  - intros Hpos. destruct k; simpl in Hpos;
      pose proof (length_filter_pos_existsb _ _ Hpos) as Hex;
      destruct (filter_length_pos_in _ _ Hpos) as [row [Hin Hrow]]; simpl.
    + assert (Ht : existsb (has_id target) (recipes s) = true).
      { apply is_favorite_true in Hrow. subst row.
        apply (wf_favorite_fk s W) in Hin. exact Hin. }
      destruct (recipe_lookup_cases s target W) as [Hr|[r Hr]].
      { apply filter_nil_existsb in Hr. congruence. }
      eexists. split; [apply delete_from_favorites_present with (r := r);
                       assumption|].
      split; [simpl; rewrite filter_filter_negb; reflexivity|].
      intros k' a' t' Hne. destruct k'; simpl; try reflexivity.
      rewrite filter_negb_other; [reflexivity|].
      intros x Hx. apply is_favorite_true in Hx. subst x.
      apply pair_neq_favorite.
      intros E. symmetry in E. revert E.
      eapply triple_neq_pair; exact Hne.
    + assert (Ht : existsb (has_id target) (recipes s) = true).
      { apply is_cart_true in Hrow. subst row.
        apply (wf_cart_fk s W) in Hin. exact Hin. }
      destruct (recipe_lookup_cases s target W) as [Hr|[r Hr]].
      { apply filter_nil_existsb in Hr. congruence. }
      eexists. split; [apply delete_from_shopping_cart_present with (r := r);
                       assumption|].
      split; [simpl; rewrite filter_filter_negb; reflexivity|].
      intros k' a' t' Hne. destruct k'; simpl; try reflexivity.
      rewrite filter_negb_other; [reflexivity|].
      intros x Hx. apply is_cart_true in Hx. subst x.
      apply pair_neq_cart.
      intros E. symmetry in E. revert E.
      eapply triple_neq_pair; exact Hne.
    + assert (Ht : existsb (is_user target) (users s) = true).
      { apply is_subscription_true in Hrow. subst row.
        apply (wf_subscription_fk s W) in Hin. exact Hin. }
      destruct (user_lookup_cases s target W) as [Hr|[r Hr]].
      { apply filter_nil_existsb in Hr. congruence. }
      eexists. split; [apply unsubscribe_present with (a := r);
                       assumption|].
      split; [simpl; rewrite filter_filter_negb; reflexivity|].
      intros k' a' t' Hne. destruct k'; simpl; try reflexivity.
      rewrite filter_negb_other; [reflexivity|].
      intros x Hx. apply is_subscription_true in Hx. subst x.
      apply pair_neq_subscription.
      intros E. symmetry in E. revert E.
      eapply triple_neq_pair; exact Hne.
Qed.

Lemma kitchen_wf : wf_store kitchen.
Proof.
  constructor; simpl.
  - repeat constructor; simpl; intuition discriminate.
  - repeat constructor; simpl; intuition discriminate.
  - repeat constructor; simpl; intuition discriminate.
  - intros row [].
  - intros row [H|[H|[]]]; subst; reflexivity.
  - intros row [].
  - repeat constructor; simpl; intuition discriminate.
Qed.

Lemma remove_semantics_witness :
  (exists e,
      remove RFavorite (Some alice) 1 kitchen = (Err e, kitchen) /\
      not_found e = true /\
      client_error (http_status (@Err Response e)) = true) /\
  (exists s',
      remove RShoppingCart (Some alice) 1 kitchen
      = (Ok (Response_ NoBody 204), s') /\
      rows_of RShoppingCart 1 1 s' = 0 /\
      forall k' a' t',
        (k', a', t') <> (RShoppingCart, 1, 1) ->
        rows_of k' a' t' s' = rows_of k' a' t' kitchen).
Proof.
  split.
  - apply (proj1 (remove_semantics RFavorite alice 1 kitchen kitchen_wf)).
    reflexivity.
  - apply (proj2 (remove_semantics RShoppingCart alice 1 kitchen kitchen_wf)).
    simpl. lia.
Defined.

(** *** Subscriptions never relate a user to themselves *)

Lemma Subscription_create_store author subscriber s :
  snd (Subscription_create author subscriber s) = s \/
  (author <> subscriber /\
   snd (Subscription_create author subscriber s)
   = set_subscriptions s
       (subscriptions s ++ [mkSubscription author subscriber])).
Proof.
  unfold Subscription_create. unfold_monad.
  destruct (Nat.eqb author subscriber) eqn:E; [left; reflexivity|].
  destruct (existsb _ _); [left; reflexivity|].
  right. split; [apply Nat.eqb_neq; exact E|reflexivity].
Qed.

Lemma Subscription_create_keeps author subscriber s :
  no_self_subscription s ->
  no_self_subscription (snd (Subscription_create author subscriber s)).
Proof.
  intros H.
  destruct (Subscription_create_store author subscriber s) as [E|[Hne E]];
    rewrite E; [exact H|].
  intros row Hin. simpl in Hin. apply in_app_or in Hin.
  destruct Hin as [Hin|[Hin|[]]]; [apply H; exact Hin|].
  subst row. exact Hne.
Qed.

Lemma delete_keeps p s :
  no_self_subscription s ->
  no_self_subscription
    (set_subscriptions s (snd (qs_delete p (subscriptions s)))).
Proof.
  intros H row Hin. simpl in Hin. apply filter_In in Hin.
  apply H. tauto.
Qed.

Lemma keeps_ret {St A} (P : St -> Prop) (a : A) : keeps P (ret a).
Proof. intros s H. exact H. Qed.

Lemma keeps_raise {St A} (P : St -> Prop) e : keeps P (@raise St A e).
Proof. intros s H. exact H. Qed.

Lemma keeps_get {St} (P : St -> Prop) : keeps P get.
Proof. intros s H. exact H. Qed.

Lemma keeps_bind {St A B} (P : St -> Prop) (c : M St A) (k : A -> M St B) :
  keeps P c -> (forall a, keeps P (k a)) -> keeps P (bind c k).
Proof.
  intros Hc Hk s H. unfold bind. specialize (Hc s H).
  destruct (c s) as [[a|e] s']; simpl in *.
  - apply Hk. exact Hc.
  - exact Hc.
Qed.

Lemma keeps_get_object_or_404 {A} (P : Store -> Prop) table (p : A -> bool) :
  keeps P (get_object_or_404 table p).
Proof.
  unfold get_object_or_404. apply keeps_bind; [apply keeps_get|].
  intros s. destruct (filter p (table s)) as [|a [|b l]];
    [apply keeps_raise|apply keeps_ret|apply keeps_raise].
Qed.

Lemma keeps_IsAuthenticated (P : Store -> Prop) request_user :
  keeps P (IsAuthenticated request_user).
Proof.
  destruct request_user; [apply keeps_ret|apply keeps_raise].
Qed.

Lemma subscribe_keeps request_user id :
  keeps no_self_subscription (subscribe request_user id).
Proof.
  unfold subscribe.
  apply keeps_bind; [apply keeps_IsAuthenticated|intros _].
  apply keeps_bind; [apply keeps_get_object_or_404|intros author].
  apply keeps_bind.
  - unfold SubscriptionSerializer_validate.
    destruct request_user as [u|]; [|apply keeps_raise].
    destruct (Nat.eqb _ _); [apply keeps_raise|].
    apply keeps_bind; [apply keeps_get|intros s].
    destruct (existsb _ _); [apply keeps_raise|apply keeps_ret].
  - intros data. apply keeps_bind; [|intros _; apply keeps_ret].
    intros s H. apply Subscription_create_keeps. exact H.
Qed.

Lemma unsubscribe_keeps request_user id :
  keeps no_self_subscription (unsubscribe request_user id).
Proof.
  unfold unsubscribe.
  apply keeps_bind; [apply keeps_IsAuthenticated|intros user].
  apply keeps_bind; [apply keeps_get_object_or_404|intros author].
  intros s H. unfold qs_delete. unfold_monad.
  destruct (Nat.eqb _ 0); simpl;
    apply (delete_keeps (is_subscription (user_id author) (user_id user)));
    exact H.
Qed.

Lemma reachable_no_self_subscription s :
  reachable s -> no_self_subscription s.
Proof.
  induction 1 as [|s s' _ IH E|s a b _ IH|s p _ IH|s u id _ IH|s u id _ IH].
  - intros row [].
  - intros row Hin. rewrite E in Hin. apply IH. exact Hin.
  - apply Subscription_create_keeps. exact IH.
  - apply delete_keeps. exact IH.
  - apply subscribe_keeps. exact IH.
  - apply unsubscribe_keeps. exact IH.
Qed.

(** C8.  No reachable store holds a subscription whose author is its
    subscriber; subscribing to oneself is rejected by the serializer with
    the self-subscription validation error and writes nothing; and the
    table's own check constraint [self_subscribe] rejects such a row on
    insert, whoever the caller is. *)
Theorem subscription_never_self :
  (forall s, reachable s ->
             forall row, In row (subscriptions s) ->
                         sub_author row <> sub_subscriber row) /\
  (forall s u,
      target_resolved RSubscription (user_id u) s = true ->
      add RSubscription (Some u) (user_id u) s
      = (Err (ValidationError MsgSelfSubscribe), s)) /\
  (forall s a,
      Subscription_create a a s = (Err (IntegrityError self_subscribe), s)).
Proof.
  split; [|split].
  - intros s R. apply reachable_no_self_subscription. exact R.
  - intros s u Hres. simpl in *. apply length_one_singleton in Hres.
    destruct Hres as [a Ha]. apply subscribe_self with (a := a). exact Ha.
  - intros s a. unfold Subscription_create. unfold_monad.
    rewrite Nat.eqb_refl. reflexivity.
Qed.

Lemma subscription_never_self_witness :
  (forall row,
      In row (subscriptions
                (snd (add RSubscription (Some alice) 2 kitchen))) ->
      sub_author row <> sub_subscriber row) /\
  add RSubscription (Some alice) 1 kitchen
  = (Err (ValidationError MsgSelfSubscribe), kitchen).
Proof.
  split.
  - apply (proj1 subscription_never_self).
    apply reachable_subscribe.
    apply reachable_other_tables with (s := empty_store);
      [apply reachable_empty|reflexivity].
  - apply (proj1 (proj2 subscription_never_self) kitchen alice).
    reflexivity.
Defined.

(** ** Recipe creation and update *)

Lemma Model_save_recipe_ingredients self :
  preserves recipe_ingredients (Model_save self).
Proof.
  intros s. unfold Model_save.
  destruct (PositiveSmallIntegerField _ _); [|reflexivity].
  destruct (recipe_id self); repeat (destruct (existsb _ _)); reflexivity.
Qed.

Lemma Model_save_recipe_tags self :
  preserves recipe_tags (Model_save self).
Proof.
  intros s. unfold Model_save.
  destruct (PositiveSmallIntegerField _ _); [|reflexivity].
  destruct (recipe_id self); repeat (destruct (existsb _ _)); reflexivity.
Qed.

Lemma Model_save_err self s e s' :
  Model_save self s = (Err e, s') -> s' = s.
Proof.
  unfold Model_save.
  destruct (PositiveSmallIntegerField _ _);
    [|intros H; inversion H; reflexivity].
  destruct (recipe_id self); repeat (destruct (existsb _ _));
    intros H; inversion H; reflexivity.
Qed.

#[local] Hint Resolve Model_save_recipe_ingredients Model_save_recipe_tags
  : frame.

Section CreateUpdate.

Variable get_random_string : nat -> nat -> string.

Lemma get_short_link_preserves {X} (f : Store -> X) self length attempt :
  preserves (fun w => f (db w))
            (get_short_link get_random_string self length attempt).
Proof.
  intros w. cbv beta. rewrite get_short_link_db. reflexivity.
Qed.

Lemma save_recipe_ingredients self :
  preserves (fun w => recipe_ingredients (db w))
            (save get_random_string self).
Proof.
  unfold save. apply preserves_bind.
  - destruct (is_empty _);
      [apply (get_short_link_preserves recipe_ingredients)
      |apply preserves_ret].
  - intros r. auto with frame.
Qed.

Lemma save_recipe_tags self :
  preserves (fun w => recipe_tags (db w)) (save get_random_string self).
Proof.
  unfold save. apply preserves_bind.
  - destruct (is_empty _);
      [apply (get_short_link_preserves recipe_tags)|apply preserves_ret].
  - intros r. auto with frame.
Qed.

(** A save that raises has written nothing. *)
Lemma save_err self w e w' :
  save get_random_string self w = (Err e, w') -> db w' = db w.
Proof.
  unfold save, bind. intros H.
  destruct (is_empty (short_link self)).
  - pose proof (get_short_link_db get_random_string self 10 10 w) as D.
    destruct (get_short_link get_random_string self 10 10 w)
      as [[r|e1] w1]; simpl in D.
    + unfold lift_db in H.
      destruct (Model_save r (db w1)) as [[r2|e2] s2] eqn:E;
        inversion H; subst; simpl.
      apply Model_save_err in E. congruence.
    + inversion H; subst. exact D.
  - unfold ret, lift_db in H.
    destruct (Model_save self (db w)) as [[r2|e2] s2] eqn:E;
      inversion H; subst; simpl.
    apply Model_save_err in E. exact E.
Qed.

Lemma get_short_link_id self length attempt :
  forall w r w1,
    get_short_link get_random_string self length attempt w = (Ok r, w1) ->
    recipe_id r = recipe_id self.
Proof.
  induction attempt as [|n IH]; intros w r w1; simpl; [discriminate|].
  unfold bind, draw, get. simpl.
  destruct (existsb _ _); simpl.
  - apply IH.
  - unfold ret. intros H. inversion H. reflexivity.
Qed.

(** A save that returns has stored the row it returns, under a key. *)
Lemma save_ok self w saved w' :
  save get_random_string self w = (Ok saved, w') ->
  In saved (recipes (db w')) /\
  (recipe_id self = None ->
   recipe_id saved = Some (next_recipe_id (db w))).
Proof.
  unfold save, bind. intros H.
  assert (G : forall r w1,
             db w1 = db w -> recipe_id r = recipe_id self ->
             lift_db (Model_save r) w1 = (Ok saved, w') ->
             In saved (recipes (db w')) /\
             (recipe_id self = None ->
              recipe_id saved = Some (next_recipe_id (db w)))).
  { intros r w1 D I L. unfold lift_db in L.
    destruct (Model_save r (db w1)) as [[r2|e2] s2] eqn:E;
      inversion L; subst; simpl.
    apply Model_save_ok in E.
    destruct E as (_ & _ & _ & _ & _ & _ & _ & N & Hin).
    split; [exact Hin|]. intros Hn. rewrite <- D. apply N. congruence. }
  destruct (is_empty (short_link self)).
  - pose proof (get_short_link_db get_random_string self 10 10 w) as D.
    destruct (get_short_link get_random_string self 10 10 w)
      as [[r|e1] w1] eqn:E; [|discriminate].
    apply (G r w1); [exact D|eapply get_short_link_id; exact E|exact H].
  - apply (G self w); [reflexivity|reflexivity|exact H].
Qed.

(** What the column of a [PositiveSmallIntegerField] takes. *)
Lemma PositiveSmallIntegerField_ok c v :
  PositiveSmallIntegerField c v = Ok tt <-> (0 <= v <= 32767)%Z.
Proof.
  unfold PositiveSmallIntegerField.
  destruct (Z.ltb_spec v (-32768)); destruct (Z.ltb_spec 32767 v);
    destruct (Z.ltb_spec v 0); simpl;
    split; intros H2; try discriminate; try reflexivity; lia.
Qed.

(** An amount that the validators of the field accept is one that the
    column takes. *)
Lemma validated_amounts_fit (l : list (nat * Z)) :
  forallb (fun item => amount_validators (snd item)) l = true ->
  Forall (fun item => (0 <= snd item <= 32767)%Z) l.
Proof.
  intros H. apply Forall_forall. intros item Hin.
  rewrite forallb_forall in H. specialize (H item Hin).
  unfold amount_validators, MinValueValidator, MaxValueValidator in H.
  apply andb_true_iff in H. destruct H as [H1 H2].
  apply Z.leb_le in H1, H2. lia.
Qed.

Lemma RecipeIngredient_create_run r i a s :
  RecipeIngredient_create r i a s
  = match PositiveSmallIntegerField recipeingredient_amount_check a with
    | Err e => (Err e, s)
    | Ok _ =>
        if existsb (is_recipe_ingredient r i) (recipe_ingredients s)
        then (Err (IntegrityError unique_recipe_ingredient), s)
        else (Ok (mkRecipeIngredient r i a),
              set_recipe_ingredients s
                (recipe_ingredients s ++ [mkRecipeIngredient r i a]))
    end.
Proof.
  unfold RecipeIngredient_create. unfold_monad.
  destruct (PositiveSmallIntegerField _ _); [|reflexivity].
  destruct (existsb _ _); reflexivity.
Qed.

(** Rows inserted by a run of [_add_ingredients] that returns. *)
Lemma _add_ingredients_ok recipe i l :
  recipe_id recipe = Some i ->
  forall s s',
    _add_ingredients recipe l s = (Ok tt, s') ->
    recipe_ingredients s'
    = recipe_ingredients s
      ++ map (fun x => mkRecipeIngredient i (fst x) (snd x)) l.
Proof.
  intros Hid. induction l as [|x l IH]; intros s s' H.
  - inversion H. subst. simpl. rewrite app_nil_r. reflexivity.
  - simpl in H. unfold saved_pk in H. rewrite Hid in H.
    unfold bind at 1 in H. unfold ret at 1 in H.
    unfold bind at 1 in H. rewrite RecipeIngredient_create_run in H.
    destruct (PositiveSmallIntegerField _ _); [|discriminate].
    destruct (existsb _ _); [discriminate|].
    apply IH in H. rewrite H. simpl.
    rewrite <- app_assoc. reflexivity.
Qed.

Lemma mem_In n l : mem n l = true <-> In n l.
Proof.
  unfold mem. rewrite existsb_exists. split.
  - intros [x [Hin E]]. apply Nat.eqb_eq in E. subst. exact Hin.
  - intros Hin. exists n. split; [exact Hin|apply Nat.eqb_refl].
Qed.

(** A payload accepted by [_check_ingredients] names each ingredient
    once. *)
Lemma check_seen_ok l :
  forall seen,
    check_seen seen l = Ok tt ->
    NoDup (map fst l) /\ forall x, In x (map fst l) -> ~ In x seen.
Proof.
  induction l as [|item l IH]; intros seen H; simpl.
  - split; [constructor|intros x []].
  - simpl in H. destruct (mem (fst item) seen) eqn:E; [discriminate|].
    apply IH in H. destruct H as [Hnd Hout].
    assert (Hitem : ~ In (fst item) seen).
    { intros I. apply mem_In in I. congruence. }
    split.
    + constructor; [|exact Hnd].
      intros I. apply (Hout _ I). left. reflexivity.
    + intros x [Hx|Hx]; [subst x; exact Hitem|].
      intros I. apply (Hout _ Hx). right. exact I.
Qed.

Lemma _check_ingredients_ok l :
  _check_ingredients (Some l) = Ok tt -> NoDup (map fst l).
Proof.
  destruct l as [|item l]; [discriminate|].
  unfold _check_ingredients. intros H. apply check_seen_ok in H. tauto.
Qed.

(** [_add_ingredients] returns when the payload names each ingredient
    once, with an amount that the column takes, and the recipe has no row
    for any of them yet. *)
Lemma _add_ingredients_succeeds recipe i l :
  recipe_id recipe = Some i ->
  NoDup (map fst l) ->
  Forall (fun item => (0 <= snd item <= 32767)%Z) l ->
  forall s,
    (forall x, In x (map fst l) ->
               existsb (is_recipe_ingredient i x) (recipe_ingredients s)
               = false) ->
    fst (_add_ingredients recipe l s) = Ok tt.
Proof.
  intros Hid. induction l as [|item l IH]; intros Hnd Hamt s Hfree.
  - reflexivity.
  - simpl. unfold saved_pk. rewrite Hid.
    unfold bind at 1. unfold ret at 1.
    unfold bind at 1. rewrite RecipeIngredient_create_run.
    inversion Hamt as [|y ys Hy Hamt']; subst.
    apply (PositiveSmallIntegerField_ok recipeingredient_amount_check)
      in Hy.
    rewrite Hy.
    rewrite (Hfree (fst item)) by (left; reflexivity).
    inversion Hnd as [|x xs Hnotin Hnd']; subst.
    apply IH; [exact Hnd'|exact Hamt'|].
    intros x Hx. simpl. rewrite existsb_app. simpl.
    rewrite (Hfree x) by (right; exact Hx).
    unfold is_recipe_ingredient. simpl.
    destruct (Nat.eqb (fst item) x) eqn:E.
    + apply Nat.eqb_eq in E. subst x. contradiction.
    + rewrite andb_false_r. reflexivity.
Qed.

Lemma save_returns_saved self w saved w' :
  save get_random_string self w = (Ok saved, w') ->
  exists i, recipe_id saved = Some i.
Proof.
  unfold save, bind. intros H.
  assert (G : forall r w1,
             lift_db (Model_save r) w1 = (Ok saved, w') ->
             exists i, recipe_id saved = Some i).
  { intros r w1 L. unfold lift_db in L.
    destruct (Model_save r (db w1)) as [[r2|e2] s2] eqn:E;
      inversion L; subst.
    apply Model_save_ok in E.
    destruct E as (_ & _ & _ & _ & _ & _ & Hsome & Hnone & _).
    destruct (recipe_id r) as [i|] eqn:Hr.
    - exists i. rewrite (Hsome i eq_refl). exact Hr.
    - eexists. apply Hnone. reflexivity. }
  destruct (is_empty (short_link self)).
  - destruct (get_short_link get_random_string self 10 10 w)
      as [[r|e1] w1]; [|discriminate].
    apply (G r w1). exact H.
  - apply (G self w). exact H.
Qed.

Lemma no_rows_after_delete i x rows :
  existsb (is_recipe_ingredient i x)
          (filter (fun row => negb (of_recipe i row)) rows) = false.
Proof.
  induction rows as [|row rows IH]; simpl; [reflexivity|].
  destruct (of_recipe i row) eqn:E; simpl; [exact IH|].
  rewrite IH. unfold is_recipe_ingredient. unfold of_recipe in E.
  rewrite E. reflexivity.
Qed.

(** An update whose save succeeded and whose ingredient payload passes
    [_check_ingredients], with amounts that the column takes, returns. *)
Lemma update_returns recipe p w l saved w1 :
  patch_ingredients p = Some l ->
  _check_ingredients (Some l) = Ok tt ->
  Forall (fun item => (0 <= snd item <= 32767)%Z) l ->
  super_update get_random_string recipe p w = (Ok saved, w1) ->
  exists w', update get_random_string recipe p w = (Ok saved, w').
Proof.
  intros Hl Hv Hamt Hs.
  destruct (save_returns_saved _ _ _ _ Hs) as [i Hid].
  apply _check_ingredients_ok in Hv.
  unfold update. rewrite Hl. unfold bind at 1. rewrite Hs.
  unfold bind at 1.
  assert (T : exists w2,
             match patch_tags p with
             | Some t => lift_db (tags_set saved t)
             | None => ret tt
             end w1 = (Ok tt, w2)).
  { destruct (patch_tags p); [|eexists; reflexivity].
    unfold lift_db, tags_set, saved_pk. rewrite Hid. unfold_monad.
    eexists. reflexivity. }
  destruct T as [w2 T]. rewrite T.
  unfold bind at 1. unfold bind at 1.
  unfold lift_db at 1. unfold delete_ingredients, saved_pk. rewrite Hid.
  unfold bind at 1. unfold ret at 1. unfold bind at 1. unfold get at 1.
  unfold put at 1.
  pose proof (_add_ingredients_succeeds saved i l Hid Hv Hamt
                (set_recipe_ingredients (db w2)
                   (snd (qs_delete (of_recipe i)
                           (recipe_ingredients (db w2)))))) as A.
  unfold lift_db.
  cbn [db drawn].
  destruct (_add_ingredients saved l _) as [[[]|e] s4].
  - eexists. reflexivity.
  - exfalso. cbn [fst] in A.
    assert (F : @Err unit e = Ok tt); [|discriminate].
    apply A. intros x _. simpl. apply no_rows_after_delete.
Qed.


End CreateUpdate.

(** *** What [tags.set] leaves in the join table *)

Lemma NoDup_append {A} (l l' : list A) :
  NoDup l -> NoDup l' -> (forall a, In a l -> ~ In a l') -> NoDup (l ++ l').
Proof.
  intros Hl Hl' Hd. induction l as [|a l IH]; simpl; [exact Hl'|].
  inversion Hl as [|x xs Hnotin Hnd]; subst. constructor.
  - intros I. apply in_app_or in I. destruct I as [I|I].
    + contradiction.
    + apply (Hd a); [left; reflexivity|exact I].
  - apply IH; [exact Hnd|]. intros b Hb. apply Hd. right. exact Hb.
Qed.

Lemma kept_tags i t (rows : list (nat * nat)) :
  map snd (filter (fun row => Nat.eqb (fst row) i)
             (filter (fun row => negb (Nat.eqb (fst row) i)
                                 || mem (snd row) t) rows))
  = filter (fun x => mem x t)
           (map snd (filter (fun row => Nat.eqb (fst row) i) rows)).
Proof.
  induction rows as [|[a b] rows IH]; simpl; [reflexivity|].
  destruct (Nat.eqb a i) eqn:E; simpl.
  - destruct (mem b t) eqn:Mb; simpl.
    + rewrite E. simpl. f_equal. exact IH.
    + exact IH.
  - rewrite E. exact IH.
Qed.

Lemma kept_other_rows i t (rows : list (nat * nat)) :
  filter (fun row => negb (Nat.eqb (fst row) i))
         (filter (fun row => negb (Nat.eqb (fst row) i)
                             || mem (snd row) t) rows)
  = filter (fun row => negb (Nat.eqb (fst row) i)) rows.
Proof.
  induction rows as [|[a b] rows IH]; simpl; [reflexivity|].
  destruct (Nat.eqb a i) eqn:E; simpl.
  - destruct (mem b t); simpl; [rewrite E; simpl|]; exact IH.
  - rewrite E. simpl. f_equal. exact IH.
Qed.

Lemma new_rows_of_recipe i (new : list nat) :
  filter (fun row => Nat.eqb (fst row) i) (map (fun t => (i, t)) new)
  = map (fun t => (i, t)) new /\
  filter (fun row => negb (Nat.eqb (fst row) i)) (map (fun t => (i, t)) new)
  = [].
Proof.
  induction new as [|x new [IH1 IH2]]; simpl; [split; reflexivity|].
  rewrite Nat.eqb_refl. simpl. rewrite IH1, IH2. split; reflexivity.
Qed.

(** What [recipe.tags.set(tags)] leaves in the join table. *)
Lemma tags_set_spec recipe i t s :
  recipe_id recipe = Some i ->
  fst (tags_set recipe t s) = Ok tt /\
  (forall x, In x (tags_of i (snd (tags_set recipe t s))) <-> In x t) /\
  other_tag_rows i (snd (tags_set recipe t s)) = other_tag_rows i s /\
  (NoDup (tags_of i s) -> NoDup (tags_of i (snd (tags_set recipe t s)))).
Proof.
  intros Hid. unfold tags_set, saved_pk. rewrite Hid. unfold_monad.
  cbv zeta. simpl fst. simpl snd. split; [reflexivity|].
  unfold tags_of, other_tag_rows. simpl recipe_tags.
  set (old := map snd (filter (fun row => Nat.eqb (fst row) i)
                              (recipe_tags s))).
  set (new := filter (fun x => negb (mem x old)) (nodup Nat.eq_dec t)).
  destruct (new_rows_of_recipe i new) as [N1 N2].
  rewrite !filter_app, N1, N2, app_nil_r, map_app, kept_tags, map_map.
  simpl. rewrite map_id. fold old.
  split; [|split].
  - intros x. rewrite in_app_iff. unfold new.
    rewrite !filter_In, nodup_In. split.
    + intros [[_ H]|[H _]]; [apply mem_In; exact H|exact H].
    + intros H. destruct (mem x old) eqn:M.
      * left. split; [apply mem_In; exact M|apply mem_In; exact H].
      * right. split; [exact H|reflexivity].
  - apply kept_other_rows.
  - intros Hnd. apply NoDup_append.
    + apply NoDup_filter. exact Hnd.
    + unfold new. apply NoDup_filter, NoDup_nodup.
    + intros x Hx Hn. apply filter_In in Hx. destruct Hx as [Hx _].
      unfold new in Hn. apply filter_In in Hn. destruct Hn as [_ Hn].
      apply mem_In in Hx. rewrite Hx in Hn. discriminate.
Qed.

Section Atomicity.

Variable get_random_string : nat -> nat -> string.

(** Once the recipe row is created, the remaining steps of [create] go
    through for a payload that names each ingredient once, with amounts
    that the column takes, when no RecipeIngredient row refers to the key
    the recipe has got. *)
Lemma create_after_Recipe_create user data w recipe w1 :
  Recipe_create get_random_string (Recipe_of_data user data) w
  = (Ok recipe, w1) ->
  NoDup (map fst (data_ingredients data)) ->
  Forall (fun item => (0 <= snd item <= 32767)%Z) (data_ingredients data) ->
  (forall row, In row (recipe_ingredients (db w)) ->
               ri_recipe row <> next_recipe_id (db w)) ->
  exists w',
    create get_random_string user data w = (Ok recipe, w') /\
    recipe_id recipe = Some (next_recipe_id (db w)) /\
    In recipe (recipes (db w')) /\
    recipe_ingredients (db w')
    = recipe_ingredients (db w)
      ++ map (fun x => mkRecipeIngredient (next_recipe_id (db w))
                                          (fst x) (snd x))
             (data_ingredients data) /\
    (forall t, In t (tags_of (next_recipe_id (db w)) (db w'))
               <-> In t (data_tags data)) /\
    other_tag_rows (next_recipe_id (db w)) (db w')
    = other_tag_rows (next_recipe_id (db w)) (db w).
Proof.
  intros Hs Hnd Hamt Hfresh.
  pose proof Hs as Hs'. unfold Recipe_create in Hs'.
  destruct (save_ok get_random_string _ _ _ _ Hs') as [Hin Hid].
  specialize (Hid eq_refl).
  pose proof (save_recipe_ingredients get_random_string
                (Recipe_of_data user data) w) as Hri.
  pose proof (save_recipe_tags get_random_string
                (Recipe_of_data user data) w) as Hrt.
  rewrite Hs' in Hri, Hrt. simpl in Hri, Hrt.
  destruct (tags_set_spec recipe (next_recipe_id (db w)) (data_tags data)
              (db w1) Hid) as (T1 & T2 & T3 & _).
  pose proof (tags_set_recipes recipe (data_tags data) (db w1)) as Tr.
  pose proof (tags_set_recipe_ingredients recipe (data_tags data) (db w1))
    as Ti.
  destruct (tags_set recipe (data_tags data) (db w1)) as [[[]|e1] s2] eqn:Et;
    simpl in T1, T2, T3, Tr, Ti; [|discriminate].
  pose proof (_add_ingredients_succeeds recipe (next_recipe_id (db w))
                (data_ingredients data) Hid Hnd Hamt s2) as Ha.
  pose proof (_add_ingredients_recipes recipe (data_ingredients data) s2)
    as Ar.
  pose proof (_add_ingredients_recipe_tags recipe (data_ingredients data)
                s2) as At.
  pose proof (_add_ingredients_ok recipe (next_recipe_id (db w))
                (data_ingredients data) Hid s2) as Arows.
  destruct (_add_ingredients recipe (data_ingredients data) s2)
    as [[[]|e2] s3] eqn:Ea; simpl in Ha, Ar, At.
  - exists (mkWorld s3 (drawn w1)). split.
    { unfold create. unfold bind at 1. rewrite Hs.
      unfold bind at 1. unfold lift_db at 1. rewrite Et.
      unfold bind at 1. unfold lift_db at 1. simpl db. rewrite Ea.
      reflexivity. }
    split; [exact Hid|]. simpl db.
    split; [rewrite Ar, Tr; exact Hin|].
    split; [rewrite (Arows s3 eq_refl), Ti, Hri; reflexivity|].
    unfold tags_of, other_tag_rows in *. rewrite At.
    split; [exact T2|]. rewrite T3, Hrt. reflexivity.
  - exfalso. assert (F : @Err unit e2 = Ok tt); [|discriminate].
    apply Ha. intros x _. rewrite Ti, Hri.
    destruct (existsb (is_recipe_ingredient (next_recipe_id (db w)) x)
                      (recipe_ingredients (db w))) eqn:Ex; [|reflexivity].
    apply existsb_exists in Ex. destruct Ex as [row [Hrow Hx]].
    unfold is_recipe_ingredient in Hx. apply andb_true_iff in Hx.
    destruct Hx as [Hx _]. apply Nat.eqb_eq in Hx.
    exfalso. apply (Hfresh row Hrow). exact Hx.
Qed.



End Atomicity.

(** ** Shopping-cart aggregation *)

Lemma flat_map_pointwise_perm {A B} (f g : A -> list B) (l : list A) :
  (forall a, Permutation (f a) (g a)) ->
  Permutation (flat_map f l) (flat_map g l).
Proof.
  intros H. induction l as [|a l IH]; simpl; [constructor|].
  apply Permutation_app; auto.
Qed.

Lemma sum_filter_perm (p : Key * Z -> bool) (l l' : list (Key * Z)) :
  Permutation l l' ->
  sum_Z (map snd (filter p l)) = sum_Z (map snd (filter p l')).
Proof.
  induction 1 as [|x l l' _ IH|x y l|l l' l'' _ IH1 _ IH2]; simpl.
  - reflexivity.
  - destruct (p x); simpl; rewrite IH; reflexivity.
  - destruct (p x), (p y); simpl; lia.
  - congruence.
Qed.

Lemma group_total_perm k rows rows' :
  Permutation rows rows' -> group_total k rows = group_total k rows'.
Proof. apply sum_filter_perm. Qed.

Lemma group_by_sum_perm rows rows' :
  Permutation rows rows' ->
  Permutation (group_by_sum rows) (group_by_sum rows').
Proof.
  intros H. unfold group_by_sum.
  rewrite (map_ext _ (fun k => mkAggRow (fst k) (snd k)
                                        (group_total k rows'))).
  - apply Permutation_map. apply NoDup_Permutation.
    + apply NoDup_nodup.
    + apply NoDup_nodup.
    + intros k. rewrite !nodup_In. split; intros I.
      * eapply Permutation_in; [apply Permutation_map; exact H|exact I].
      * eapply Permutation_in;
          [apply Permutation_map; apply Permutation_sym; exact H|exact I].
  - intros k. f_equal. apply group_total_perm. exact H.
Qed.

Lemma key_of_group_by_sum rows :
  map key_of (group_by_sum rows) = nodup Key_eq_dec (map fst rows).
Proof.
  unfold group_by_sum. rewrite map_map. unfold key_of. simpl.
  rewrite <- (map_id (nodup Key_eq_dec (map fst rows))) at 2.
  apply map_ext. intros [n u]. reflexivity.
Qed.

Lemma in_group_by_sum r rows :
  In r (group_by_sum rows) ->
  total_amount r = group_total (key_of r) rows.
Proof.
  unfold group_by_sum. intros H. apply in_map_iff in H.
  destruct H as [[n u] [E _]]. subst r. reflexivity.
Qed.

(** One joined row per RecipeIngredient row of a cart recipe, once the
    cart pairs and the ingredient keys are unique. *)
Lemma flat_map_unique_row {A B} (p : A -> bool) (g : list B) (l : list A) :
  NoDup l -> (forall x y, p x = true -> p y = true -> x = y) ->
  flat_map (fun x => if p x then g else []) l
  = if existsb p l then g else [].
Proof.
  intros Hnd Hu. induction l as [|a l IH]; simpl; [reflexivity|].
  inversion Hnd as [|x xs Hnotin Hnd']; subst.
  destruct (p a) eqn:E; simpl.
  - assert (F : existsb p l = false).
    { destruct (existsb p l) eqn:Ex; [|reflexivity].
      apply existsb_exists in Ex. destruct Ex as [b [Hin Pb]].
      rewrite (Hu a b E Pb) in Hnotin. contradiction. }
    rewrite IH by assumption. rewrite F. apply app_nil_r.
  - apply IH. assumption.
Qed.

Lemma flat_map_unique_key {A B} (f : A -> nat) (k : nat) (g : A -> B)
  (l : list A) :
  NoDup (map f l) ->
  flat_map (fun x => if Nat.eqb (f x) k then [g x] else []) l
  = match find (fun x => Nat.eqb (f x) k) l with
    | Some x => [g x]
    | None => []
    end.
Proof.
  intros Hnd. induction l as [|a l IH]; simpl; [reflexivity|].
  inversion Hnd as [|x xs Hnotin Hnd']; subst.
  destruct (Nat.eqb (f a) k) eqn:E; simpl.
  - rewrite IH by assumption.
    destruct (find _ l) as [b|] eqn:Fb; [|reflexivity].
    apply find_some in Fb. destruct Fb as [Hin Eb].
    apply Nat.eqb_eq in E, Eb. exfalso. apply Hnotin.
    rewrite E, <- Eb. apply in_map. exact Hin.
  - apply IH. assumption.
Qed.

Lemma joined_rows_spec user s :
  wf_store s -> joined_rows user s = cart_ingredient_rows user s.
Proof.
  intros W. unfold joined_rows, cart_ingredient_rows.
  apply flat_map_ext. intros ri.
  rewrite (flat_map_unique_row (is_cart user (ri_recipe ri))).
  - unfold in_cart. destruct (existsb _ _); [|reflexivity].
    unfold ingredient_of.
    apply (flat_map_unique_key ingredient_id (ri_ingredient ri)
             (fun i => ((ingredient_name i, measurement_unit i),
                        ri_amount ri))).
    apply (wf_ingredient_pk s W).
  - apply (wf_cart_unique s W).
  - intros x y Hx Hy. apply is_cart_true in Hx, Hy. congruence.
Qed.

Lemma joined_rows_perm user s s' :
  same_rows s s' ->
  Permutation (joined_rows user s) (joined_rows user s').
Proof.
  intros (Hri & Hc & Hi). unfold joined_rows.
  eapply Permutation_trans.
  - apply Permutation_flat_map. exact Hri.
  - apply flat_map_pointwise_perm. intros ri.
    eapply Permutation_trans.
    + apply Permutation_flat_map. exact Hc.
    + apply flat_map_pointwise_perm. intros c.
      destruct (is_cart _ _ _); [|constructor].
      apply Permutation_flat_map. exact Hi.
Qed.

Lemma empty_cart_no_rows user s :
  (forall row, In row (shopping_cart s) -> cart_user row <> user) ->
  joined_rows user s = [].
Proof.
  intros H. unfold joined_rows.
  assert (E : forall ri,
             flat_map
               (fun c =>
                  if is_cart user (ri_recipe ri) c
                  then flat_map
                         (fun i =>
                            if Nat.eqb (ingredient_id i) (ri_ingredient ri)
                            then [((ingredient_name i, measurement_unit i),
                                   ri_amount ri)]
                            else [])
                         (ingredients s)
                  else [])
               (shopping_cart s) = []).
  { intros ri. induction (shopping_cart s) as [|c l IH]; [reflexivity|].
    simpl. rewrite IH by (intros row Hin; apply H; right; exact Hin).
    destruct (is_cart user (ri_recipe ri) c) eqn:Ec; [|reflexivity].
    apply is_cart_true in Ec. exfalso.
    apply (H c (or_introl eq_refl)). subst c. reflexivity. }
  induction (recipe_ingredients s) as [|ri l IH]; simpl; [reflexivity|].
  rewrite E, IH. reflexivity.
Qed.

Lemma download_inv u s resp :
  download_shopping_cart u s resp ->
  exists rows,
    Permutation (grouped (user_id u) s) rows /\
    resp = match rows with
           | [] => empty_cart_response
           | _ :: _ => report rows
           end.
Proof.
  intros [rows r F E]. exists rows. split; [exact F|].
  unfold download_shopping_cart_on, download_shopping_cart_try,
    IsAuthenticated in E.
  unfold_monad. destruct rows; inversion E; reflexivity.
Qed.

Lemma download_intro u s rows :
  Permutation (grouped (user_id u) s) rows ->
  download_shopping_cart u s
    match rows with
    | [] => empty_cart_response
    | _ :: _ => report rows
    end.
Proof.
  intros F. apply download_fetched with (rows := rows); [exact F|].
  unfold download_shopping_cart_on, download_shopping_cart_try,
    IsAuthenticated.
  unfold_monad. destruct rows; reflexivity.
Qed.

Lemma group_by_sum_nil rows : group_by_sum rows = [] -> rows = [].
Proof.
  unfold group_by_sum. intros H. apply map_eq_nil in H.
  destruct rows as [|x rows]; [reflexivity|].
  assert (I : In (fst x) (nodup Key_eq_dec (map fst (x :: rows))))
    by (apply nodup_In; left; reflexivity).
  rewrite H in I. contradiction.
Qed.

(** C3, amended.  In a store that satisfies its keys, the view always
    answers.  When the recipes in the user's cart have no RecipeIngredient
    row (in particular when the cart is empty) the answer is the empty-cart
    error with status 400.  Otherwise the answer is the report of rows that
    hold each (name, unit) pair of those RecipeIngredient rows exactly once,
    with the sum of the amounts of the pair as total. *)
Theorem aggregate_cart u s :
  wf_store s ->
  (exists resp, download_shopping_cart u s resp) /\
  forall resp,
    download_shopping_cart u s resp ->
    (cart_ingredient_rows (user_id u) s = [] ->
     resp = empty_cart_response /\ http_status (Ok resp) = 400) /\
    ((forall row, In row (shopping_cart s) -> cart_user row <> user_id u) ->
     resp = empty_cart_response) /\
    (cart_ingredient_rows (user_id u) s <> [] ->
     exists rows,
       resp = report rows /\
       NoDup (map key_of rows) /\
       (forall k, In k (map key_of rows) <->
                  In k (map fst (cart_ingredient_rows (user_id u) s))) /\
       (forall r, In r rows ->
                  total_amount r
                  = group_total (key_of r)
                      (cart_ingredient_rows (user_id u) s))).
Proof.
  intros W. split.
  - eexists. apply download_intro. apply Permutation_refl.
  - intros resp D. apply download_inv in D. destruct D as [rows [P E]].
    pose proof (joined_rows_spec (user_id u) s W) as J.
    unfold grouped in P.
    split; [|split].
    + intros Hnil. rewrite J, Hnil in P. simpl in P.
      apply Permutation_nil in P. subst rows. subst resp.
      split; reflexivity.
    + intros Hempty. rewrite (empty_cart_no_rows _ _ Hempty) in P.
      simpl in P. apply Permutation_nil in P. subst rows. exact E.
    + intros Hne. rewrite J in P. exists rows.
      destruct rows as [|r0 rows].
      { apply Permutation_sym, Permutation_nil in P.
        apply group_by_sum_nil in P. contradiction. }
      split; [exact E|]. split; [|split].
      * apply Permutation_NoDup
          with (l := map key_of
                       (group_by_sum (cart_ingredient_rows (user_id u) s))).
        -- apply Permutation_map. exact P.
        -- rewrite key_of_group_by_sum. apply NoDup_nodup.
      * intros k.
        rewrite <- (nodup_In Key_eq_dec
                      (map fst (cart_ingredient_rows (user_id u) s)) k).
        rewrite <- key_of_group_by_sum.
        split; intros I.
        -- eapply Permutation_in;
             [apply Permutation_map, Permutation_sym; exact P|exact I].
        -- eapply Permutation_in; [apply Permutation_map; exact P|exact I].
      * intros r I. apply in_group_by_sum.
        eapply Permutation_in; [apply Permutation_sym; exact P|exact I].
Qed.

Example kitchen_totals :
  grouped (user_id alice) kitchen = [egg_total; flour_total; sugar_total].
Proof. reflexivity. Qed.

Lemma aggregate_cart_witness :
  exists rows,
    report [egg_total; sugar_total; flour_total] = report rows /\
    NoDup (map key_of rows) /\
    (forall k, In k (map key_of rows) <->
               In k (map fst (cart_ingredient_rows 1 kitchen))) /\
    (forall r, In r rows ->
               total_amount r
               = group_total (key_of r) (cart_ingredient_rows 1 kitchen)).
Proof.
  apply (proj2 (aggregate_cart alice kitchen kitchen_wf)
           (report [egg_total; sugar_total; flour_total])).
  - apply (download_intro alice kitchen [egg_total; sugar_total; flour_total]).
    rewrite kitchen_totals. apply perm_skip, perm_swap.
  - simpl. discriminate.
Defined.

Lemma bare_kitchen_wf : wf_store bare_kitchen.
Proof.
  destruct kitchen_wf as [W1 W2 W3 W4 W5 W6 W7].
  constructor; assumption.
Qed.

(** C3 as stated fails for a cart whose recipes have no RecipeIngredient
    row: the cart is not empty, and the only answer is the empty-cart
    error. *)
Lemma cart_without_ingredient_rows :
  wf_store bare_kitchen /\
  in_cart (user_id alice) 1 bare_kitchen = true /\
  download_shopping_cart alice bare_kitchen empty_cart_response /\
  forall resp,
    download_shopping_cart alice bare_kitchen resp ->
    resp = empty_cart_response.
Proof.
  split; [exact bare_kitchen_wf|]. split; [reflexivity|]. split.
  - apply (download_intro alice bare_kitchen []). apply Permutation_refl.
  - intros resp D. apply download_inv in D. destruct D as [rows [P E]].
    apply Permutation_nil in P. subst rows. exact E.
Qed.

(** C4 as stated fails: the query carries no ordering, so the same store
    admits reports that differ in the order of their rows. *)
Lemma report_order_not_fixed :
  download_shopping_cart alice kitchen
    (report [flour_total; egg_total; sugar_total]) /\
  download_shopping_cart alice kitchen
    (report [egg_total; flour_total; sugar_total]) /\
  report [flour_total; egg_total; sugar_total]
  <> report [egg_total; flour_total; sugar_total].
Proof.
  split; [|split].
  - apply (download_intro alice kitchen [flour_total; egg_total; sugar_total]).
    rewrite kitchen_totals. apply perm_swap.
  - apply (download_intro alice kitchen [egg_total; flour_total; sugar_total]).
    rewrite kitchen_totals. apply Permutation_refl.
  - discriminate.
Qed.

(** C4, amended.  Two runs of the view, on one store or on two stores that
    hold the same rows inserted in different orders, either both answer the
    empty-cart error or answer reports whose rows are the same up to their
    order. *)
Theorem report_rows_deterministic u s s' r1 r2 :
  same_rows s s' ->
  download_shopping_cart u s r1 ->
  download_shopping_cart u s' r2 ->
  (r1 = empty_cart_response /\ r2 = empty_cart_response) \/
  exists rows1 rows2,
    r1 = report rows1 /\ r2 = report rows2 /\ Permutation rows1 rows2.
Proof.
  intros Hs D1 D2.
  apply download_inv in D1, D2.
  destruct D1 as [rows1 [P1 E1]]. destruct D2 as [rows2 [P2 E2]].
  assert (P : Permutation rows1 rows2).
  { eapply Permutation_trans; [apply Permutation_sym; exact P1|].
    eapply Permutation_trans; [|exact P2].
    apply group_by_sum_perm, joined_rows_perm. exact Hs. }
  destruct rows1 as [|a rows1].
  - apply Permutation_nil in P. subst rows2. left. auto.
  - destruct rows2 as [|b rows2].
    + apply Permutation_sym, Permutation_nil in P. discriminate.
    + right. exists (a :: rows1), (b :: rows2). auto.
Qed.

Lemma same_rows_refl s : same_rows s s.
Proof. repeat split; apply Permutation_refl. Qed.

Lemma report_rows_deterministic_witness :
  (report [flour_total; egg_total; sugar_total] = empty_cart_response /\
   report [egg_total; flour_total; sugar_total] = empty_cart_response) \/
  exists rows1 rows2,
    report [flour_total; egg_total; sugar_total] = report rows1 /\
    report [egg_total; flour_total; sugar_total] = report rows2 /\
    Permutation rows1 rows2.
Proof.
  apply (report_rows_deterministic alice kitchen kitchen
           (report [flour_total; egg_total; sugar_total])
           (report [egg_total; flour_total; sugar_total])).
  - apply same_rows_refl.
  - apply (download_intro alice kitchen [flour_total; egg_total; sugar_total]).
    rewrite kitchen_totals. apply perm_swap.
  - apply (download_intro alice kitchen [egg_total; flour_total; sugar_total]).
    rewrite kitchen_totals. apply Permutation_refl.
Defined.

(** ** Runs on the sample data *)

Lemma short_link_generation_exhausted_witness :
  get_short_link always_taken biscuit 10 10 (mkWorld kitchen 0)
  = (Err ValueError, mkWorld kitchen 10) /\
  create always_taken alice soup (mkWorld kitchen 0)
  = (Err ValueError, mkWorld kitchen 10).
Proof.
  split.
  - apply (proj1 (short_link_generation_exhausted always_taken
                    (mkWorld kitchen 0)) biscuit 10 10).
    intros i _. reflexivity.
  - apply (proj2 (short_link_generation_exhausted always_taken
                    (mkWorld kitchen 0))).
    intros i _. reflexivity.
Defined.

Lemma save_keeps_short_link_witness :
  short_link (set_attrs pancakes crepes) = short_link pancakes /\
  recipe_name (set_attrs pancakes crepes)
  = or_else (patch_name crepes) (recipe_name pancakes) /\
  recipe_text (set_attrs pancakes crepes)
  = or_else (patch_text crepes) (recipe_text pancakes) /\
  cooking_time (set_attrs pancakes crepes)
  = or_else (patch_cooking_time crepes) (cooking_time pancakes) /\
  recipe_image (set_attrs pancakes crepes)
  = or_else (patch_image crepes) (recipe_image pancakes) /\
  recipe_author (set_attrs pancakes crepes) = recipe_author pancakes /\
  In (set_attrs pancakes crepes)
     (recipes (db (snd (update numbered pancakes crepes
                          (mkWorld kitchen 0))))).
Proof.
  apply (proj2 (proj2 (proj2
           (save_keeps_short_link numbered pancakes (mkWorld kitchen 0)
              eq_refl))) crepes).
  reflexivity.
Defined.



(** * Further properties *)

(** ** Validation of a recipe payload *)

Lemma check_seen_complete l :
  forall seen,
    NoDup (map fst l) -> (forall x, In x (map fst l) -> ~ In x seen) ->
    check_seen seen l = Ok tt.
Proof.
  induction l as [|item l IH]; intros seen Hnd Hout; [reflexivity|].
  simpl. inversion Hnd as [|x xs Hnotin Hnd']; subst.
  destruct (mem (fst item) seen) eqn:E.
  - apply mem_In in E. exfalso.
    apply (Hout (fst item)); [left; reflexivity|exact E].
  - apply IH; [exact Hnd'|].
    intros x Hx [Hs|Hs].
    + subst x. contradiction.
    + apply (Hout x); [right; exact Hx|exact Hs].
Qed.

Lemma check_seen_cases l :
  forall seen,
    check_seen seen l = Ok tt \/
    check_seen seen l = Err (ValidationError MsgDupIngredients).
Proof.
  induction l as [|item l IH]; intros seen; simpl; [left; reflexivity|].
  destruct (mem (fst item) seen); [right; reflexivity|apply IH].
Qed.

Lemma _check_ingredients_iff ingredients_ :
  _check_ingredients ingredients_ = Ok tt <->
  exists l, ingredients_ = Some l /\ l <> [] /\ NoDup (map fst l).
Proof.
  split.
  - intros H. destruct ingredients_ as [l|]; [|discriminate].
    exists l. split; [reflexivity|].
    destruct l as [|item l]; [discriminate|].
    split; [discriminate|]. apply _check_ingredients_ok. exact H.
  - intros (l & E & Hne & Hnd). subst.
    destruct l as [|item l]; [contradiction|].
    unfold _check_ingredients.
    apply check_seen_complete; [exact Hnd|intros x _ []].
Qed.

(** X1.  [_check_ingredients] accepts exactly the payloads that are present,
    not empty and name each ingredient once; a missing or empty list is
    refused as having no ingredients and any other refusal is the
    repeated-ingredient error. *)
Theorem _check_ingredients_accepts ingredients_ :
  (_check_ingredients ingredients_ = Ok tt <->
   exists l, ingredients_ = Some l /\ l <> [] /\ NoDup (map fst l)) /\
  (_check_ingredients ingredients_ = Err (ValidationError MsgNoIngredients)
   <-> ingredients_ = None \/ ingredients_ = Some []) /\
  (forall l,
      ingredients_ = Some l -> l <> [] -> ~ NoDup (map fst l) ->
      _check_ingredients ingredients_
      = Err (ValidationError MsgDupIngredients)).
Proof.
  split; [apply _check_ingredients_iff|split].
  - split.
    + intros H. destruct ingredients_ as [[|item l]|]; auto.
      unfold _check_ingredients in H.
      destruct (check_seen_cases (item :: l) []) as [E|E];
        rewrite E in H; discriminate.
    + intros [E|E]; subst; reflexivity.
  - intros l E Hne Hdup. subst.
    destruct l as [|item l]; [contradiction|].
    unfold _check_ingredients.
    destruct (check_seen_cases (item :: l) []) as [C|C]; [|exact C].
    exfalso. apply Hdup. apply check_seen_ok in C. tauto.
Qed.

Lemma length_nodup_le (l : list nat) :
  List.length (nodup Nat.eq_dec l) <= List.length l.
Proof.
  induction l as [|a l IH]; simpl; [lia|].
  destruct (in_dec Nat.eq_dec a l); simpl; lia.
Qed.

Lemma length_nodup_eq (l : list nat) :
  List.length l = List.length (nodup Nat.eq_dec l) <-> NoDup l.
Proof.
  split.
  - induction l as [|a l IH]; simpl; intros H; [constructor|].
    pose proof (length_nodup_le l) as Hle.
    destruct (in_dec Nat.eq_dec a l) as [i|n]; simpl in H; [lia|].
    constructor; [exact n|]. apply IH. lia.
  - intros H. rewrite (nodup_fixed_point Nat.eq_dec H). reflexivity.
Qed.

(** X2.  [validate] accepts a payload exactly when its ingredients and its
    tags are both present, not empty and free of repetitions; the
    ingredients are checked first, so their error is the one reported
    whatever the tags are. *)
Theorem validate_accepts ingredients_ tags_ :
  (validate ingredients_ tags_ = Ok tt <->
   exists li lt,
     ingredients_ = Some li /\ tags_ = Some lt /\
     li <> [] /\ lt <> [] /\ NoDup (map fst li) /\ NoDup lt) /\
  (forall e, _check_ingredients ingredients_ = Err e ->
             validate ingredients_ tags_ = Err e) /\
  (_check_ingredients ingredients_ = Ok tt ->
   (tags_ = None \/ tags_ = Some [] ->
    validate ingredients_ tags_ = Err (ValidationError MsgNoTags)) /\
   (forall lt, tags_ = Some lt -> lt <> [] -> ~ NoDup lt ->
               validate ingredients_ tags_
               = Err (ValidationError MsgDupTags))).
Proof.
  pose proof (_check_ingredients_iff ingredients_) as Hok.
  split; [|split].
  - unfold validate. split.
    + intros H.
      destruct (_check_ingredients ingredients_) as [[]|e] eqn:E;
        [|discriminate].
      destruct (proj1 Hok eq_refl) as (li & Ei & Hne & Hnd).
      destruct tags_ as [[|t lt]|]; try discriminate.
      exists li, (t :: lt). repeat split; auto; try discriminate.
      unfold _check_tags in H.
      destruct (Nat.eqb _ _) eqn:L; [|discriminate].
      apply Nat.eqb_eq in L. apply length_nodup_eq. exact L.
    + intros (li & lt & Ei & Et & Hli & Hlt & Hndi & Hndt).
      rewrite (proj2 Hok) by (exists li; auto).
      subst. destruct lt as [|t lt]; [contradiction|].
      unfold _check_tags.
      rewrite (proj2 (Nat.eqb_eq _ _) (proj2 (length_nodup_eq _) Hndt)).
      reflexivity.
  - intros e E. unfold validate. rewrite E. reflexivity.
  - intros E. unfold validate. rewrite E. split.
    + intros [T|T]; subst; reflexivity.
    + intros lt T Hne Hdup. subst. destruct lt as [|t lt]; [contradiction|].
      unfold _check_tags. destruct (Nat.eqb _ _) eqn:L; [|reflexivity].
      exfalso. apply Hdup. apply length_nodup_eq. apply Nat.eqb_eq. exact L.
Qed.

(** ** Generation of short links *)

Section GenerationFacts.

Variable get_random_string : nat -> nat -> string.

Lemma get_short_link_inv self length attempt :
  forall w r w',
    get_short_link get_random_string self length attempt w = (Ok r, w') ->
    exists k,
      k < attempt /\
      (forall i, i < k ->
                 existsb (has_short_link
                            (get_random_string length (drawn w + i)))
                         (recipes (db w)) = true) /\
      existsb (has_short_link (get_random_string length (drawn w + k)))
              (recipes (db w)) = false /\
      r = set_short_link self (get_random_string length (drawn w + k)) /\
      w' = mkWorld (db w) (drawn w + S k).
Proof.
  induction attempt as [|n IH]; intros w r w' H; [discriminate|].
  simpl in H. unfold bind, draw, get in H. simpl in H.
  destruct (existsb (has_short_link (get_random_string length (drawn w)))
                    (recipes (db w))) eqn:E; simpl in H.
  - apply IH in H. destruct H as (k & Hk & Hc & Hf & Hr & Hw).
    simpl in *. exists (S k).
    replace (drawn w + S k) with (S (drawn w + k)) by lia.
    split; [lia|]. split; [|split; [exact Hf|split; [exact Hr|]]].
    + intros [|i] Hi; [rewrite Nat.add_0_r; exact E|].
      replace (drawn w + S i) with (S (drawn w + i)) by lia.
      apply Hc. lia.
    + rewrite Hw. f_equal. lia.
  - unfold ret in H. inversion H; subst. exists 0.
    rewrite Nat.add_0_r. split; [lia|]. split; [intros i Hi; lia|].
    split; [exact E|]. split; [reflexivity|]. f_equal. lia.
Qed.

Lemma get_short_link_err self length attempt :
  forall w e w',
    get_short_link get_random_string self length attempt w = (Err e, w') ->
    e = ValueError /\
    w' = mkWorld (db w) (drawn w + attempt) /\
    forall i, i < attempt ->
              existsb (has_short_link
                         (get_random_string length (drawn w + i)))
                      (recipes (db w)) = true.
Proof.
  induction attempt as [|n IH]; intros w e w' H.
  - inversion H; subst. split; [reflexivity|].
    split; [destruct w'; simpl; rewrite Nat.add_0_r; reflexivity|].
    intros i Hi. lia.
  - simpl in H. unfold bind, draw, get in H. simpl in H.
    destruct (existsb (has_short_link (get_random_string length (drawn w)))
                      (recipes (db w))) eqn:E; simpl in H; [|discriminate].
    apply IH in H. destruct H as (He & Hw & Hc). simpl in *.
    split; [exact He|]. split; [rewrite Hw; f_equal; lia|].
    intros [|i] Hi; [rewrite Nat.add_0_r; exact E|].
    replace (drawn w + S i) with (S (drawn w + i)) by lia.
    apply Hc. lia.
Qed.

(** X3.  [get_short_link] returns exactly when one of its [attempt] draws
    is carried by no stored recipe: it then returns the instance with the
    first such draw as [short_link], having made just the draws up to it and
    no write; it raises (always [ValueError], after [attempt] draws) exactly
    when every draw is taken. *)
Theorem get_short_link_first_free_draw self length attempt w :
  (forall r w',
      get_short_link get_random_string self length attempt w = (Ok r, w') <->
      exists k,
        k < attempt /\
        (forall i, i < k ->
                   existsb (has_short_link
                              (get_random_string length (drawn w + i)))
                           (recipes (db w)) = true) /\
        existsb (has_short_link (get_random_string length (drawn w + k)))
                (recipes (db w)) = false /\
        r = set_short_link self (get_random_string length (drawn w + k)) /\
        w' = mkWorld (db w) (drawn w + S k)) /\
  (forall e w',
      get_short_link get_random_string self length attempt w = (Err e, w') <->
      e = ValueError /\
      w' = mkWorld (db w) (drawn w + attempt) /\
      forall i, i < attempt ->
                existsb (has_short_link
                           (get_random_string length (drawn w + i)))
                        (recipes (db w)) = true).
Proof.
  split.
  - intros r w'. split; [apply get_short_link_inv|].
    intros (k & Hk & Hc & Hf & Hr & Hw). subst.
    apply get_short_link_first_free; assumption.
  - intros e w'. split; [apply get_short_link_err|].
    intros (He & Hw & Hc). subst.
    apply get_short_link_exhausted. exact Hc.
Qed.

Lemma length_repeated c n : String.length (repeated c n) = n.
Proof. induction n as [|n IH]; simpl; [reflexivity|rewrite IH; reflexivity]. Qed.

Lemma is_empty_length l : is_empty l = true <-> String.length l = 0.
Proof. destruct l; simpl; split; intros H; try reflexivity; discriminate. Qed.

(** X4.  When the random source returns strings of the length asked for, a
    recipe saved without a link is stored with a link of exactly ten
    characters (the column's [max_length]) that no recipe carried before
    the save, found in at most ten draws. *)
Theorem save_generates_link self w saved w' :
  (forall length n, String.length (get_random_string length n) = length) ->
  is_empty (short_link self) = true ->
  save get_random_string self w = (Ok saved, w') ->
  String.length (short_link saved) = 10 /\
  is_empty (short_link saved) = false /\
  existsb (has_short_link (short_link saved)) (recipes (db w)) = false /\
  In saved (recipes (db w')) /\
  drawn w < drawn w' <= drawn w + 10.
Proof.
  intros Hlen He H.
  pose proof (save_ok get_random_string self w saved w' H) as [Hin _].
  unfold save in H. rewrite He in H. unfold bind in H.
  destruct (get_short_link get_random_string self 10 10 w)
    as [[r|e] w1] eqn:G; [|discriminate].
  apply get_short_link_inv in G.
  destruct G as (k & Hk & _ & Hf & Hr & Hw).
  unfold lift_db in H.
  destruct (Model_save r (db w1)) as [[r2|e2] s2] eqn:E;
    inversion H; subst; clear H.
  apply Model_save_ok in E. destruct E as (Hl & _).
  rewrite Hl. simpl.
  assert (L : String.length (get_random_string 10 (drawn w + k)) = 10)
    by apply Hlen.
  split; [exact L|]. split.
  - destruct (is_empty (get_random_string 10 (drawn w + k))) eqn:Em;
      [|reflexivity].
    apply is_empty_length in Em. rewrite L in Em. discriminate.
  - split; [exact Hf|]. split; [exact Hin|]. lia.
Qed.

End GenerationFacts.

Lemma lettered_length length n : String.length (lettered length n) = length.
Proof. apply length_repeated. Qed.

Lemma get_short_link_first_free_draw_witness :
  get_short_link taken_twice biscuit 10 10 (mkWorld kitchen 0)
  = (Ok (set_short_link biscuit "link2"), mkWorld kitchen 3).
Proof.
  apply (proj2 (proj1 (get_short_link_first_free_draw taken_twice biscuit
                         10 10 (mkWorld kitchen 0))
                  (set_short_link biscuit "link2") (mkWorld kitchen 3))).
  exists 2. split; [lia|]. split.
  - intros [|[|i]] Hi; [reflexivity|reflexivity|lia].
  - repeat split.
Defined.

Lemma save_generates_link_witness :
  String.length
    (short_link (set_recipe_id
                   (set_short_link (Recipe_of_data alice soup)
                                   "aaaaaaaaaa") 3)) = 10 /\
  is_empty
    (short_link (set_recipe_id
                   (set_short_link (Recipe_of_data alice soup)
                                   "aaaaaaaaaa") 3)) = false /\
  existsb (has_short_link
             (short_link (set_recipe_id
                            (set_short_link (Recipe_of_data alice soup)
                                            "aaaaaaaaaa") 3)))
          (recipes (db (mkWorld kitchen 0))) = false /\
  In (set_recipe_id (set_short_link (Recipe_of_data alice soup)
                                    "aaaaaaaaaa") 3)
     (recipes (db (snd (save lettered (Recipe_of_data alice soup)
                          (mkWorld kitchen 0))))) /\
  drawn (mkWorld kitchen 0)
  < drawn (snd (save lettered (Recipe_of_data alice soup)
                  (mkWorld kitchen 0)))
  <= drawn (mkWorld kitchen 0) + 10.
Proof.
  apply (save_generates_link lettered (Recipe_of_data alice soup)
           (mkWorld kitchen 0)).
  - apply lettered_length.
  - reflexivity.
  - reflexivity.
Defined.

(** ** Uniqueness of short links and keys *)

Lemma NoDup_snoc {A} (l : list A) (x : A) :
  NoDup l -> ~ In x l -> NoDup (l ++ [x]).
Proof.
  intros Hnd Hx. induction l as [|a l IH]; simpl.
  - constructor; [intros []|constructor].
  - inversion Hnd as [|y ys Hnotin Hnd']; subst. constructor.
    + intros I. apply in_app_or in I. destruct I as [I|[I|[]]].
      * contradiction.
      * subst. apply Hx. left. reflexivity.
    + apply IH; [exact Hnd'|]. intros I. apply Hx. right. exact I.
Qed.

Lemma existsb_false_not_in_links l link :
  existsb (has_short_link link) l = false -> ~ In link (map short_link l).
Proof.
  intros H I. apply in_map_iff in I. destruct I as [r [E Hin]].
  assert (T : existsb (has_short_link link) l = true).
  { apply existsb_exists. exists r. split; [exact Hin|].
    unfold has_short_link. rewrite E. apply String.eqb_refl. }
  congruence.
Qed.

Lemma has_id_false_neq i r : has_id i r = false -> recipe_id r <> Some i.
Proof.
  unfold has_id. intros H E. rewrite E in H.
  rewrite Nat.eqb_refl in H. discriminate.
Qed.

Lemma not_in_ids_map_id i self (l : list Recipe) :
  ~ In (Some i) (map recipe_id l) ->
  map (fun r => if has_id i r then self else r) l = l.
Proof.
  induction l as [|a l IH]; simpl; intros H; [reflexivity|].
  destruct (has_id i a) eqn:E.
  - apply has_id_key in E. exfalso. apply H. left. exact E.
  - f_equal. apply IH. intros I. apply H. right. exact I.
Qed.

(** Replacing the row of key [i] keeps the links distinct when no other row
    carries the new link. *)
Lemma replace_row_links i self (l : list Recipe) :
  recipe_id self = Some i ->
  NoDup (map short_link l) -> NoDup (map recipe_id l) ->
  existsb (fun r => has_short_link (short_link self) r && negb (has_id i r))
          l = false ->
  NoDup (map short_link (map (fun r => if has_id i r then self else r) l)).
Proof.
  intros Hid. induction l as [|a l IH]; simpl; intros Hl Hk Hc;
    [constructor|].
  inversion Hl as [|x xs Hlnot Hl']; subst.
  inversion Hk as [|y ys Hknot Hk']; subst.
  apply orb_false_iff in Hc. destruct Hc as [Ha Hc].
  assert (Hother : forall r, In r l -> has_id i r = false ->
                             short_link r <> short_link self).
  { intros r Hin Hr E.
    assert (T : existsb (fun r => has_short_link (short_link self) r
                                  && negb (has_id i r)) l = true).
    { apply existsb_exists. exists r. split; [exact Hin|].
      unfold has_short_link. rewrite E, String.eqb_refl, Hr. reflexivity. }
    congruence. }
  destruct (has_id i a) eqn:E.
  - apply has_id_key in E. rewrite E in Hknot.
    rewrite (not_in_ids_map_id i self l Hknot).
    constructor; [|exact Hl'].
    intros I. apply in_map_iff in I. destruct I as [r [Er Hin]].
    apply (Hother r Hin); [|exact Er].
    destruct (has_id i r) eqn:R; [|reflexivity].
    apply has_id_key in R. exfalso. apply Hknot.
    rewrite <- R. apply in_map. exact Hin.
  - constructor; [|apply IH; assumption].
    intros I. apply in_map_iff in I. destruct I as [r' [Er Hin]].
    apply in_map_iff in Hin. destruct Hin as [r [Ef Hin]].
    destruct (has_id i r) eqn:R; subst r'.
    + simpl in Ha. rewrite andb_true_r in Ha.
      unfold has_short_link in Ha. rewrite <- Er in Ha.
      rewrite String.eqb_refl in Ha. discriminate.
    + apply Hlnot. rewrite <- Er. apply in_map. exact Hin.
Qed.

Lemma replace_row_ids i self (l : list Recipe) :
  recipe_id self = Some i ->
  map recipe_id (map (fun r => if has_id i r then self else r) l)
  = map recipe_id l.
Proof.
  intros Hid. rewrite map_map. apply map_ext. intros r.
  destruct (has_id i r) eqn:E; [|reflexivity].
  apply has_id_key in E. congruence.
Qed.

Lemma Model_save_wf self s :
  recipes_wf s -> new_or_stored self s ->
  recipes_wf (snd (Model_save self s)).
Proof.
  intros (Hl & Hk & Hb) Hn. unfold Model_save, new_or_stored in *.
  destruct (PositiveSmallIntegerField _ _); [|repeat split; assumption].
  destruct (recipe_id self) as [i|] eqn:Hid.
  - destruct (existsb (fun r => has_short_link (short_link self) r
                                && negb (has_id i r)) (recipes s)) eqn:Hc;
      [repeat split; assumption|].
    rewrite Hn. simpl. repeat split; simpl.
    + apply replace_row_links; assumption.
    + rewrite replace_row_ids by exact Hid. exact Hk.
    + intros r Hin. apply in_map_iff in Hin. destruct Hin as [r0 [E Hin]].
      destruct (has_id i r0) eqn:R; subst r.
      * apply has_id_key in R. destruct (Hb r0 Hin) as [j [Ej Hj]].
        exists i. split; [exact Hid|]. congruence.
      * apply Hb. exact Hin.
  - destruct (existsb (has_short_link (short_link self)) (recipes s)) eqn:Hc;
      [repeat split; assumption|].
    simpl. repeat split; simpl.
    + rewrite map_app. simpl. apply NoDup_snoc; [exact Hl|].
      apply existsb_false_not_in_links. exact Hc.
    + rewrite map_app. simpl. apply NoDup_snoc; [exact Hk|].
      intros I. apply in_map_iff in I. destruct I as [r [E Hin]].
      destruct (Hb r Hin) as [j [Ej Hj]]. rewrite E in Ej.
      inversion Ej. lia.
    + intros r Hin. apply in_app_or in Hin. destruct Hin as [Hin|[Hin|[]]].
      * destruct (Hb r Hin) as [j [Ej Hj]]. exists j. split; [exact Ej|lia].
      * subst r. exists (next_recipe_id s). split; [reflexivity|lia].
Qed.

Lemma lift_db_keeps {A} (P : Store -> Prop) (c : M Store A) :
  keeps P c -> keeps (fun w => P (db w)) (lift_db c).
Proof. intros Hc w H. rewrite lift_db_db. apply Hc. exact H. Qed.

(** A computation that leaves the recipe table and its sequence alone keeps
    the recipes well formed. *)
Lemma keeps_recipes_wf {A} (c : M Store A) :
  preserves recipes c -> preserves next_recipe_id c -> keeps recipes_wf c.
Proof.
  intros Hr Hn s (Hl & Hk & Hb). unfold recipes_wf.
  rewrite (Hr s), (Hn s). split; [exact Hl|split; [exact Hk|exact Hb]].
Qed.

Lemma tags_set_next recipe t : preserves next_recipe_id (tags_set recipe t).
Proof. frame_run tags_set. Qed.

Lemma delete_ingredients_next recipe :
  preserves next_recipe_id (delete_ingredients recipe).
Proof. frame_run delete_ingredients. Qed.

Lemma RecipeIngredient_create_next r i a :
  preserves next_recipe_id (RecipeIngredient_create r i a).
Proof. frame_run RecipeIngredient_create. Qed.

#[local] Hint Resolve tags_set_next delete_ingredients_next
  RecipeIngredient_create_next : frame.

Lemma _add_ingredients_next recipe l :
  preserves next_recipe_id (_add_ingredients recipe l).
Proof. induction l as [|x l IH]; simpl; frame. Qed.

#[local] Hint Resolve _add_ingredients_next : frame.

Section Uniqueness.

Variable get_random_string : nat -> nat -> string.

Lemma save_wf self :
  forall w, recipes_wf (db w) -> new_or_stored self (db w) ->
            recipes_wf (db (snd (save get_random_string self w))).
Proof.
  intros w W N. unfold save, bind.
  assert (G : forall r w1,
             db w1 = db w -> recipe_id r = recipe_id self ->
             recipes_wf (db (snd (lift_db (Model_save r) w1)))).
  { intros r w1 D I. rewrite lift_db_db, D. apply Model_save_wf; [exact W|].
    unfold new_or_stored in *. rewrite I. exact N. }
  destruct (is_empty (short_link self)).
  - pose proof (get_short_link_db get_random_string self 10 10 w) as D.
    destruct (get_short_link get_random_string self 10 10 w)
      as [[r|e] w1] eqn:E; simpl in D.
    + specialize (G r w1 D (get_short_link_id _ _ _ _ _ _ _ E)).
      destruct (lift_db (Model_save r) w1) as [[?|?] ?]; exact G.
    + simpl. rewrite D. exact W.
  - unfold ret. specialize (G self w eq_refl eq_refl).
    destruct (lift_db (Model_save self) w) as [[?|?] ?]; exact G.
Qed.

Lemma keeps_after_save {A} self (k : Recipe -> M World A) w :
  recipes_wf (db w) -> new_or_stored self (db w) ->
  (forall r, keeps (fun w => recipes_wf (db w)) (k r)) ->
  recipes_wf (db (snd (bind (save get_random_string self) k w))).
Proof.
  intros W N K. pose proof (save_wf self w W N) as S.
  unfold bind. destruct (save get_random_string self w) as [[r|e] w1];
    simpl in S; [apply K; exact S|exact S].
Qed.

(** X5.  From a store whose recipes have distinct short links and distinct
    keys handed out by the sequence, saving a new recipe or a stored one,
    creating a recipe through the serializer and updating a stored recipe
    all end in such a store, whether they return or raise. *)
Theorem recipes_stay_unique w :
  recipes_wf (db w) ->
  (forall self,
      new_or_stored self (db w) ->
      recipes_wf (db (snd (save get_random_string self w)))) /\
  (forall user data,
      recipes_wf (db (snd (create get_random_string user data w)))) /\
  (forall recipe p,
      new_or_stored recipe (db w) ->
      recipes_wf (db (snd (update get_random_string recipe p w)))).
Proof.
  intros W. split; [|split].
  - intros self N. apply save_wf; assumption.
  - intros user data. unfold create, Recipe_create.
    apply keeps_after_save; [exact W|exact I|].
    intros r. apply keeps_bind; [|intros ?; apply keeps_bind].
    + apply lift_db_keeps, keeps_recipes_wf; auto with frame.
    + apply lift_db_keeps, keeps_recipes_wf; auto with frame.
    + intros ?. apply keeps_ret.
  - intros recipe p N. unfold update, super_update.
    apply keeps_after_save; [exact W|exact N|].
    intros r. apply keeps_bind; [|intros ?; apply keeps_bind].
    + destruct (patch_tags p); [|apply keeps_ret].
      apply lift_db_keeps, keeps_recipes_wf; auto with frame.
    + destruct (patch_ingredients p); [|apply keeps_ret].
      apply keeps_bind; [|intros ?];
        apply lift_db_keeps, keeps_recipes_wf; auto with frame.
    + intros ?. apply keeps_ret.
Qed.

End Uniqueness.

Lemma kitchen_recipes_wf : recipes_wf kitchen.
Proof.
  repeat split.
  - repeat constructor; simpl; intuition discriminate.
  - repeat constructor; simpl; intuition discriminate.
  - intros r [H|[H|[]]]; subst; simpl; eexists; split;
      try reflexivity; lia.
Qed.

Lemma recipes_stay_unique_witness :
  recipes_wf (db (snd (create numbered alice soup (mkWorld kitchen 0)))) /\
  recipes_wf (db (snd (update numbered pancakes crepes (mkWorld kitchen 0)))).
Proof.
  split.
  - apply (proj1 (proj2 (recipes_stay_unique numbered (mkWorld kitchen 0)
                           kitchen_recipes_wf))).
  - apply (proj2 (proj2 (recipes_stay_unique numbered (mkWorld kitchen 0)
                           kitchen_recipes_wf))).
    reflexivity.
Defined.

(** ** The link view and the redirect *)

Lemma single_row {A} (p : A -> bool) (l : list A) (a : A) :
  List.length (filter p l) <= 1 -> In a l -> p a = true -> filter p l = [a].
Proof.
  intros Hlen Hin Hp.
  assert (I : In a (filter p l)) by (apply filter_In; auto).
  destruct (filter p l) as [|b [|c rest]]; simpl in *.
  - contradiction.
  - destruct I as [I|[]]. subst. reflexivity.
  - lia.
Qed.

Lemma has_short_link_key link r :
  has_short_link link r = true -> short_link r = link.
Proof. unfold has_short_link. apply String.eqb_eq. Qed.

(** X6.  In a store whose recipes have distinct keys and distinct short
    links, the link handed out for a stored recipe is the wrapper followed
    by a token, and redirecting on that token leads to this same recipe's
    page; asking for the link of a key that is not stored raises [Http404],
    which reaches the client as status 404. *)
Theorem link_round_trip wrapper origin pk_ s :
  recipes_wf s ->
  (existsb (has_id pk_) (recipes s) = true ->
   exists token,
     RecipeViewSet_get_short_link wrapper pk_ s
     = (Ok (Response_ (ShortLinkBody (wrapper ++ token)) 200), s) /\
     redirect_to_recipe origin token s
     = (Ok (HttpResponseRedirect
              (origin ++ "/recipes/" ++ str_of_nat pk_ ++ "/")%string), s)) /\
  (existsb (has_id pk_) (recipes s) = false ->
   RecipeViewSet_get_short_link wrapper pk_ s = (Err Http404, s) /\
   http_status (fst (RecipeViewSet_get_short_link wrapper pk_ s)) = 404).
Proof.
  intros (Hl & Hk & _). split.
  - intros Hex. apply existsb_exists in Hex. destruct Hex as [r [Hin Hr]].
    assert (Fid : filter (has_id pk_) (recipes s) = [r]).
    { apply single_row; [|exact Hin|exact Hr].
      apply unique_key_filter with (f := recipe_id) (k := Some pk_);
        [exact Hk|apply has_id_key]. }
    assert (Fl : filter (has_short_link (short_link r)) (recipes s) = [r]).
    { apply single_row; [|exact Hin|].
      - apply unique_key_filter with (f := short_link) (k := short_link r);
          [exact Hl|apply has_short_link_key].
      - unfold has_short_link. apply String.eqb_refl. }
    exists (short_link r). split.
    + unfold RecipeViewSet_get_short_link, get_object_or_404. unfold_monad.
      rewrite Fid. reflexivity.
    + unfold redirect_to_recipe, redirect_to_recipe_try, get_object_or_404.
      unfold_monad. rewrite Fl.
      unfold build_absolute_uri, recipe_path.
      rewrite (has_id_key _ _ Hr). reflexivity.
  - intros Hex. apply existsb_false_filter in Hex.
    assert (E : RecipeViewSet_get_short_link wrapper pk_ s = (Err Http404, s)).
    { unfold RecipeViewSet_get_short_link, get_object_or_404. unfold_monad.
      rewrite Hex. reflexivity. }
    rewrite E. split; reflexivity.
Qed.

Lemma link_round_trip_witness :
  exists token,
    RecipeViewSet_get_short_link "https://foodgram.example/s/" 2 kitchen
    = (Ok (Response_
             (ShortLinkBody ("https://foodgram.example/s/" ++ token)) 200),
       kitchen) /\
    redirect_to_recipe "https://foodgram.example" token kitchen
    = (Ok (HttpResponseRedirect
             ("https://foodgram.example" ++ "/recipes/" ++ str_of_nat 2
              ++ "/")%string), kitchen).
Proof.
  apply (proj1 (link_round_trip "https://foodgram.example/s/"
                  "https://foodgram.example" 2 kitchen kitchen_recipes_wf)).
  reflexivity.
Defined.

(** ** An update touches one recipe row *)

Lemma replace_row_others i self (l : list Recipe) :
  has_id i self = true ->
  filter (fun r => negb (has_id i r))
         (map (fun r => if has_id i r then self else r) l)
  = filter (fun r => negb (has_id i r)) l.
Proof.
  intros Hself. induction l as [|a l IH]; simpl; [reflexivity|].
  destruct (has_id i a) eqn:E; simpl.
  - rewrite Hself. simpl. exact IH.
  - rewrite E. simpl. f_equal. exact IH.
Qed.

Lemma Model_save_stored self i s :
  recipe_id self = Some i ->
  existsb (has_id i) (recipes s) = true ->
  List.length (recipes (snd (Model_save self s))) = List.length (recipes s) /\
  next_recipe_id (snd (Model_save self s)) = next_recipe_id s /\
  filter (fun r => negb (has_id i r)) (recipes (snd (Model_save self s)))
  = filter (fun r => negb (has_id i r)) (recipes s).
Proof.
  intros Hid Hex. unfold Model_save. rewrite Hid.
  destruct (PositiveSmallIntegerField _ _); [|repeat split].
  destruct (existsb (fun r => has_short_link (short_link self) r
                              && negb (has_id i r)) (recipes s));
    [repeat split|].
  rewrite Hex. simpl. split; [apply length_map|]. split; [reflexivity|].
  apply replace_row_others. unfold has_id. rewrite Hid. apply Nat.eqb_refl.
Qed.

Section UpdateRow.

Variable get_random_string : nat -> nat -> string.

Lemma save_stored self w i :
  recipe_id self = Some i ->
  existsb (has_id i) (recipes (db w)) = true ->
  List.length (recipes (db (snd (save get_random_string self w))))
  = List.length (recipes (db w)) /\
  next_recipe_id (db (snd (save get_random_string self w)))
  = next_recipe_id (db w) /\
  filter (fun r => negb (has_id i r))
         (recipes (db (snd (save get_random_string self w))))
  = filter (fun r => negb (has_id i r)) (recipes (db w)).
Proof.
  intros Hid Hex. unfold save, bind.
  assert (G : forall r w1,
             db w1 = db w -> recipe_id r = Some i ->
             let w2 := snd (lift_db (Model_save r) w1) in
             List.length (recipes (db w2)) = List.length (recipes (db w)) /\
             next_recipe_id (db w2) = next_recipe_id (db w) /\
             filter (fun r => negb (has_id i r)) (recipes (db w2))
             = filter (fun r => negb (has_id i r)) (recipes (db w))).
  { intros r w1 D I. cbv zeta. rewrite lift_db_db, D.
    apply Model_save_stored; assumption. }
  destruct (is_empty (short_link self)).
  - pose proof (get_short_link_db get_random_string self 10 10 w) as D.
    destruct (get_short_link get_random_string self 10 10 w)
      as [[r|e] w1] eqn:E; simpl in D.
    + apply get_short_link_id in E.
      specialize (G r w1 D (eq_trans E Hid)). cbv zeta in G.
      destruct (lift_db (Model_save r) w1) as [[?|?] ?]; exact G.
    + simpl. rewrite D. repeat split.
  - unfold ret. specialize (G self w eq_refl Hid). cbv zeta in G.
    destruct (lift_db (Model_save self) w) as [[?|?] ?]; exact G.
Qed.

(** X7.  Updating a recipe whose key is stored never adds or removes a
    recipe and never alters the row of another recipe, whether the update
    returns or raises: the table keeps its length, the sequence its next
    value, and the rows of the other keys stay as they were, in place. *)
Theorem update_touches_one_row recipe p w i :
  recipe_id recipe = Some i ->
  existsb (has_id i) (recipes (db w)) = true ->
  List.length (recipes (db (snd (update get_random_string recipe p w))))
  = List.length (recipes (db w)) /\
  next_recipe_id (db (snd (update get_random_string recipe p w)))
  = next_recipe_id (db w) /\
  filter (fun r => negb (has_id i r))
         (recipes (db (snd (update get_random_string recipe p w))))
  = filter (fun r => negb (has_id i r)) (recipes (db w)).
Proof.
  intros Hid Hex.
  set (rest := fun recipe : Recipe =>
          (match patch_tags p with
           | Some t => lift_db (tags_set recipe t)
           | None => ret tt
           end ;;;
           match patch_ingredients p with
           | Some l =>
               lift_db (delete_ingredients recipe) ;;;
               lift_db (_add_ingredients recipe l)
           | None => ret tt
           end ;;;
           ret recipe) : M World Recipe).
  assert (R1 : forall r, preserves (fun w => recipes (db w)) (rest r))
    by (intros r; unfold rest; frame).
  assert (R2 : forall r, preserves (fun w => next_recipe_id (db w)) (rest r)).
  { intros r. unfold rest.
    repeat first
      [ apply preserves_ret
      | apply preserves_bind; [|intros ?]
      | apply preserves_lift_db with (f := next_recipe_id);
        solve [auto with frame]
      | match goal with
        | |- preserves _ (match ?o with Some _ => _ | None => _ end) =>
            destruct o
        end ]. }
  pose proof (save_stored (set_attrs recipe p) w i Hid Hex) as S.
  change (update get_random_string recipe p w)
    with (bind (save get_random_string (set_attrs recipe p)) rest w).
  unfold bind.
  destruct (save get_random_string (set_attrs recipe p) w) as [[r|e] w1];
    simpl in S; [|exact S].
  pose proof (R1 r w1) as A. pose proof (R2 r w1) as B.
  cbv beta in A, B. rewrite A, B. exact S.
Qed.

End UpdateRow.

Lemma update_touches_one_row_witness :
  List.length
    (recipes (db (snd (update numbered pancakes crepes (mkWorld kitchen 0)))))
  = List.length (recipes (db (mkWorld kitchen 0))) /\
  next_recipe_id
    (db (snd (update numbered pancakes crepes (mkWorld kitchen 0))))
  = next_recipe_id (db (mkWorld kitchen 0)) /\
  filter (fun r => negb (has_id 1 r))
         (recipes
            (db (snd (update numbered pancakes crepes (mkWorld kitchen 0)))))
  = filter (fun r => negb (has_id 1 r)) (recipes (db (mkWorld kitchen 0))).
Proof.
  apply (update_touches_one_row numbered pancakes crepes (mkWorld kitchen 0)
           1); reflexivity.
Defined.

(** ** The tags of a recipe follow the payload *)

Section TagsOfRecipe.

Variable get_random_string : nat -> nat -> string.

Lemma ingredient_steps_keep_tags recipe (o : option (list (nat * Z))) :
  preserves (fun w => recipe_tags (db w))
    (match o with
     | Some l =>
         lift_db (delete_ingredients recipe) ;;;
         lift_db (_add_ingredients recipe l)
     | None => ret tt
     end).
Proof. frame. Qed.

(** X8.  An update that carries [tags] and returns leaves the recipe with
    exactly the tags of the payload, each attached once if its tags were
    attached once before, and leaves the tag rows of every other recipe as
    they were; the same holds for the tags of the payload of a create that
    returns. *)
Theorem tags_follow_payload :
  (forall recipe p w t updated w' i,
      patch_tags p = Some t ->
      update get_random_string recipe p w = (Ok updated, w') ->
      recipe_id updated = Some i ->
      (forall x, In x (tags_of i (db w')) <-> In x t) /\
      other_tag_rows i (db w') = other_tag_rows i (db w) /\
      (NoDup (tags_of i (db w)) -> NoDup (tags_of i (db w')))) /\
  (forall user data w recipe w' i,
      create get_random_string user data w = (Ok recipe, w') ->
      recipe_id recipe = Some i ->
      (forall x, In x (tags_of i (db w')) <-> In x (data_tags data)) /\
      other_tag_rows i (db w') = other_tag_rows i (db w) /\
      (NoDup (tags_of i (db w)) -> NoDup (tags_of i (db w')))).
Proof.
  assert (Core : forall self t (k : Recipe -> M World unit) w r w',
             (forall x, preserves (fun w => recipe_tags (db w)) (k x)) ->
             (recipe <- save get_random_string self ;;
              lift_db (tags_set recipe t) ;;;
              k recipe ;;;
              ret recipe) w = (Ok r, w') ->
             forall i, recipe_id r = Some i ->
             (forall x, In x (tags_of i (db w')) <-> In x t) /\
             other_tag_rows i (db w') = other_tag_rows i (db w) /\
             (NoDup (tags_of i (db w)) -> NoDup (tags_of i (db w')))).
  { intros self t k w r w' Hk H i Hid.
    unfold bind at 1 in H.
    pose proof (save_recipe_tags get_random_string self w) as Hs.
    destruct (save get_random_string self w) as [[saved|e] w1];
      [|discriminate].
    simpl in Hs. unfold bind at 1 in H.
    pose proof (lift_db_db (tags_set saved t) w1) as T.
    destruct (lift_db (tags_set saved t) w1) as [[[]|e1] w2];
      [|discriminate].
    simpl in T. unfold bind at 1 in H.
    pose proof (Hk saved w2) as K. cbv beta in K.
    destruct (k saved w2) as [[[]|e2] w3]; [|discriminate].
    simpl in K. unfold ret in H. inversion H; subst. clear H.
    destruct (tags_set_spec r i t (db w1) Hid) as (_ & A & B & C).
    unfold tags_of, other_tag_rows in *.
    rewrite K, T. rewrite <- Hs. split; [exact A|]. split; [exact B|exact C]. }
  split.
  - intros recipe p w t updated w' i Ht U Hid.
    unfold update, super_update in U. rewrite Ht in U.
    apply (Core (set_attrs recipe p) t
             (fun recipe =>
                match patch_ingredients p with
                | Some l =>
                    lift_db (delete_ingredients recipe) ;;;
                    lift_db (_add_ingredients recipe l)
                | None => ret tt
                end) w updated w');
      [intros x; apply ingredient_steps_keep_tags|exact U|exact Hid].
  - intros user data w recipe w' i C Hid.
    unfold create, Recipe_create in C.
    apply (Core (Recipe_of_data user data) (data_tags data)
             (fun recipe =>
                lift_db (_add_ingredients recipe (data_ingredients data)))
             w recipe w');
      [intros x; auto with frame|exact C|exact Hid].
Qed.

End TagsOfRecipe.

Lemma tags_follow_payload_witness :
  (forall x,
      In x (tags_of 1 (db (snd (update numbered pancakes retag
                                  (mkWorld kitchen 0)))))
      <-> In x [2; 2; 1]) /\
  other_tag_rows 1 (db (snd (update numbered pancakes retag
                               (mkWorld kitchen 0))))
  = other_tag_rows 1 (db (mkWorld kitchen 0)) /\
  (NoDup (tags_of 1 (db (mkWorld kitchen 0))) ->
   NoDup (tags_of 1 (db (snd (update numbered pancakes retag
                                (mkWorld kitchen 0)))))).
Proof.
  apply (proj1 (tags_follow_payload numbered) pancakes retag
           (mkWorld kitchen 0) [2; 2; 1] pancakes
           (snd (update numbered pancakes retag (mkWorld kitchen 0))) 1);
    reflexivity.
Defined.

(** ** Memberships: what a successful add or remove has done *)

Lemma favorite_inv u t s resp s' :
  favorite (Some u) t s = (Ok resp, s') ->
  existsb (is_favorite (user_id u) t) (favorites s) = false /\
  s' = set_favorites s (favorites s ++ [mkFavorite (user_id u) t]).
Proof.
  intros H.
  destruct (filter (has_id t) (recipes s)) as [|r [|r2 l]] eqn:F.
  - unfold favorite, get_object_or_404, IsAuthenticated in H.
    unfold_monad. rewrite F in H. discriminate.
  - destruct (existsb (is_favorite (user_id u) t) (favorites s)) eqn:E.
    + rewrite (favorite_duplicate u t r s F E) in H. discriminate.
    + rewrite (favorite_created u t r s F E) in H. inversion H. auto.
  - unfold favorite, get_object_or_404, IsAuthenticated in H.
    unfold_monad. rewrite F in H. discriminate.
Qed.

Lemma delete_from_favorites_inv u t s resp s' :
  delete_from_favorites (Some u) t s = (Ok resp, s') ->
  s' = set_favorites s
         (filter (fun row => negb (is_favorite (user_id u) t row))
                 (favorites s)).
Proof.
  intros H.
  destruct (filter (has_id t) (recipes s)) as [|r [|r2 l]] eqn:F.
  - rewrite (delete_from_favorites_missing u t s F) in H. discriminate.
  - destruct (existsb (is_favorite (user_id u) t) (favorites s)) eqn:E.
    + rewrite (delete_from_favorites_present u t r s F E) in H.
      inversion H. reflexivity.
    + rewrite (delete_from_favorites_absent u t r s F E) in H. discriminate.
  - unfold delete_from_favorites, get_object_or_404, IsAuthenticated in H.
    unfold_monad. rewrite F in H. discriminate.
Qed.

Lemma shopping_cart_add_inv u t s resp s' :
  shopping_cart_add (Some u) t s = (Ok resp, s') ->
  existsb (is_cart (user_id u) t) (shopping_cart s) = false /\
  s' = set_shopping_cart s (shopping_cart s ++ [mkShoppingCart (user_id u) t]).
Proof.
  intros H.
  destruct (filter (has_id t) (recipes s)) as [|r [|r2 l]] eqn:F.
  - unfold shopping_cart_add, get_object_or_404, IsAuthenticated in H.
    unfold_monad. rewrite F in H. discriminate.
  - destruct (existsb (is_cart (user_id u) t) (shopping_cart s)) eqn:E.
    + rewrite (shopping_cart_duplicate u t r s F E) in H. discriminate.
    + rewrite (shopping_cart_created u t r s F E) in H. inversion H. auto.
  - unfold shopping_cart_add, get_object_or_404, IsAuthenticated in H.
    unfold_monad. rewrite F in H. discriminate.
Qed.

Lemma delete_from_shopping_cart_inv u t s resp s' :
  delete_from_shopping_cart (Some u) t s = (Ok resp, s') ->
  s' = set_shopping_cart s
         (filter (fun row => negb (is_cart (user_id u) t row))
                 (shopping_cart s)).
Proof.
  intros H.
  destruct (filter (has_id t) (recipes s)) as [|r [|r2 l]] eqn:F.
  - rewrite (delete_from_shopping_cart_missing u t s F) in H. discriminate.
  - destruct (existsb (is_cart (user_id u) t) (shopping_cart s)) eqn:E.
    + rewrite (delete_from_shopping_cart_present u t r s F E) in H.
      inversion H. reflexivity.
    + rewrite (delete_from_shopping_cart_absent u t r s F E) in H.
      discriminate.
  - unfold delete_from_shopping_cart, get_object_or_404, IsAuthenticated in H.
    unfold_monad. rewrite F in H. discriminate.
Qed.

Lemma subscribe_inv u t s resp s' :
  subscribe (Some u) t s = (Ok resp, s') ->
  user_id u <> t /\
  existsb (is_subscription t (user_id u)) (subscriptions s) = false /\
  s' = set_subscriptions s (subscriptions s ++ [mkSubscription t (user_id u)]).
Proof.
  intros H.
  destruct (filter (is_user t) (users s)) as [|a [|a2 l]] eqn:F.
  - unfold subscribe, get_object_or_404, IsAuthenticated in H.
    unfold_monad. rewrite F in H. discriminate.
  - destruct (Nat.eq_dec (user_id u) t) as [Eq|Ne].
    + subst t. rewrite (subscribe_self u a s F) in H. discriminate.
    + destruct (existsb (is_subscription t (user_id u)) (subscriptions s))
        eqn:E.
      * rewrite (subscribe_duplicate u t a s F Ne E) in H. discriminate.
      * rewrite (subscribe_created u t a s F Ne E) in H. inversion H. auto.
  - unfold subscribe, get_object_or_404, IsAuthenticated in H.
    unfold_monad. rewrite F in H. discriminate.
Qed.

Lemma unsubscribe_inv u t s resp s' :
  unsubscribe (Some u) t s = (Ok resp, s') ->
  s' = set_subscriptions s
         (filter (fun row => negb (is_subscription t (user_id u) row))
                 (subscriptions s)).
Proof.
  intros H.
  destruct (filter (is_user t) (users s)) as [|a [|a2 l]] eqn:F.
  - rewrite (unsubscribe_missing u t s F) in H. discriminate.
  - destruct (existsb (is_subscription t (user_id u)) (subscriptions s))
      eqn:E.
    + rewrite (unsubscribe_present u t a s F E) in H.
      inversion H. reflexivity.
    + rewrite (unsubscribe_absent u t a s F E) in H. discriminate.
  - unfold unsubscribe, get_object_or_404, IsAuthenticated in H.
    unfold_monad. rewrite F in H. discriminate.
Qed.

Lemma existsb_snoc {A} (p : A -> bool) (l : list A) (a : A) :
  existsb p (l ++ [a]) = existsb p l || p a.
Proof. rewrite existsb_app. simpl. rewrite orb_false_r. reflexivity. Qed.

Lemma existsb_deleted {A} (p : A -> bool) (l : list A) :
  existsb p (filter (fun a => negb (p a)) l) = false.
Proof. apply filter_nil_existsb, filter_filter_negb. Qed.

Lemma existsb_filter_negb_other {A} (p q : A -> bool) (l : list A) :
  (forall a, q a = true -> p a = false) ->
  existsb q (filter (fun a => negb (p a)) l) = existsb q l.
Proof.
  intros H. induction l as [|a l IH]; simpl; [reflexivity|].
  destruct (p a) eqn:P; simpl.
  - destruct (q a) eqn:Q; [apply H in Q; congruence|exact IH].
  - rewrite IH. reflexivity.
Qed.

(** ** The read-side flags follow the memberships *)

Ltac flag_added is_rel :=
  rewrite existsb_snoc; unfold is_rel at 2; simpl;
  match goal with
  | |- context [Nat.eqb ?a ?b && Nat.eqb ?c ?d] =>
      rewrite (Nat.eqb_sym a b), (Nat.eqb_sym c d)
  end;
  match goal with
  | |- context [if ?b then _ else _] =>
      destruct b; [apply orb_true_r|apply orb_false_r]
  end.

(** X9.  After a successful add, the flag the serializers compute for the
    actor and the target is true; after a successful remove it is false; and
    for every other viewer or object the flag is what it was before.  This
    holds for [is_favorited], [is_in_shopping_cart] and [is_subscribed]. *)
Theorem flags_follow_membership u t s resp s' v :
  (forall r,
      favorite (Some u) t s = (Ok resp, s') ->
      get_is_favorited (Some v) r s'
      = if Nat.eqb (user_id v) (user_id u) && Nat.eqb (pk r) t
        then true else get_is_favorited (Some v) r s) /\
  (forall r,
      delete_from_favorites (Some u) t s = (Ok resp, s') ->
      get_is_favorited (Some v) r s'
      = if Nat.eqb (user_id v) (user_id u) && Nat.eqb (pk r) t
        then false else get_is_favorited (Some v) r s) /\
  (forall r,
      shopping_cart_add (Some u) t s = (Ok resp, s') ->
      get_is_in_shopping_cart (Some v) r s'
      = if Nat.eqb (user_id v) (user_id u) && Nat.eqb (pk r) t
        then true else get_is_in_shopping_cart (Some v) r s) /\
  (forall r,
      delete_from_shopping_cart (Some u) t s = (Ok resp, s') ->
      get_is_in_shopping_cart (Some v) r s'
      = if Nat.eqb (user_id v) (user_id u) && Nat.eqb (pk r) t
        then false else get_is_in_shopping_cart (Some v) r s) /\
  (forall obj,
      subscribe (Some u) t s = (Ok resp, s') ->
      get_is_subscribed (Some v) obj s'
      = if Nat.eqb (user_id obj) t && Nat.eqb (user_id v) (user_id u)
        then true else get_is_subscribed (Some v) obj s) /\
  (forall obj,
      unsubscribe (Some u) t s = (Ok resp, s') ->
      get_is_subscribed (Some v) obj s'
      = if Nat.eqb (user_id obj) t && Nat.eqb (user_id v) (user_id u)
        then false else get_is_subscribed (Some v) obj s).
Proof.
  repeat split.
  - intros r H. apply favorite_inv in H. destruct H as [_ E]. subst s'.
    unfold get_is_favorited. simpl. flag_added is_favorite.
  - intros r H. apply delete_from_favorites_inv in H. subst s'.
    unfold get_is_favorited. simpl.
    destruct (Nat.eqb (user_id v) (user_id u) && Nat.eqb (pk r) t) eqn:C.
    + apply andb_true_iff in C. destruct C as [C1 C2].
      apply Nat.eqb_eq in C1, C2. rewrite C1, C2. apply existsb_deleted.
    + apply existsb_filter_negb_other. intros a Ha.
      apply is_favorite_true in Ha. subst a. unfold is_favorite. simpl.
      exact C.
  - intros r H. apply shopping_cart_add_inv in H. destruct H as [_ E].
    subst s'. unfold get_is_in_shopping_cart. simpl. flag_added is_cart.
  - intros r H. apply delete_from_shopping_cart_inv in H. subst s'.
    unfold get_is_in_shopping_cart. simpl.
    destruct (Nat.eqb (user_id v) (user_id u) && Nat.eqb (pk r) t) eqn:C.
    + apply andb_true_iff in C. destruct C as [C1 C2].
      apply Nat.eqb_eq in C1, C2. rewrite C1, C2. apply existsb_deleted.
    + apply existsb_filter_negb_other. intros a Ha.
      apply is_cart_true in Ha. subst a. unfold is_cart. simpl. exact C.
  - intros obj H. apply subscribe_inv in H. destruct H as (_ & _ & E).
    subst s'. unfold get_is_subscribed. simpl. flag_added is_subscription.
  - intros obj H. apply unsubscribe_inv in H. subst s'.
    unfold get_is_subscribed. simpl.
    destruct (Nat.eqb (user_id obj) t && Nat.eqb (user_id v) (user_id u))
      eqn:C.
    + apply andb_true_iff in C. destruct C as [C1 C2].
      apply Nat.eqb_eq in C1, C2. rewrite C1, C2. apply existsb_deleted.
    + apply existsb_filter_negb_other. intros a Ha.
      apply is_subscription_true in Ha. subst a.
      unfold is_subscription. simpl. exact C.
Qed.

Lemma flags_follow_membership_witness :
  get_is_favorited (Some alice) biscuit
    (snd (favorite (Some alice) 2 kitchen)) = true /\
  get_is_favorited (Some bob) biscuit
    (snd (favorite (Some alice) 2 kitchen))
  = get_is_favorited (Some bob) biscuit kitchen /\
  get_is_in_shopping_cart (Some alice) biscuit
    (snd (delete_from_shopping_cart (Some alice) 2 kitchen)) = false.
Proof.
  split; [|split].
  - apply (proj1 (flags_follow_membership alice 2 kitchen
                    (Response_ (ShortRecipeBody biscuit) 201)
                    (snd (favorite (Some alice) 2 kitchen)) alice) biscuit).
    reflexivity.
  - apply (proj1 (flags_follow_membership alice 2 kitchen
                    (Response_ (ShortRecipeBody biscuit) 201)
                    (snd (favorite (Some alice) 2 kitchen)) bob) biscuit).
    reflexivity.
  - apply (proj1 (proj2 (proj2 (proj2
             (flags_follow_membership alice 2 kitchen
                (Response_ NoBody 204)
                (snd (delete_from_shopping_cart (Some alice) 2 kitchen))
                alice)))) biscuit).
    reflexivity.
Defined.

(** ** The recipe filters agree with the flags *)

Lemma filter_partition {A} (p : A -> bool) (l : list A) :
  Permutation (filter p l ++ filter (fun a => negb (p a)) l) l.
Proof.
  induction l as [|a l IH]; simpl; [constructor|].
  destruct (p a); simpl.
  - constructor. exact IH.
  - apply Permutation_sym, Permutation_cons_app, Permutation_sym. exact IH.
Qed.

(** X10.  The recipes selected by [is_favorited=true] are exactly the
    recipes of the queryset whose [is_favorited] flag is true for the
    current user, those selected by [is_favorited=false] exactly the ones
    whose flag is false, so the two selections split the queryset; for an
    anonymous user the first is empty and the second the whole queryset.
    The same holds for [is_in_shopping_cart]. *)
Theorem filters_agree_with_flags current_user queryset s :
  (forall value r,
      In r (filter_user_favorites current_user queryset value s) <->
      In r queryset /\ get_is_favorited current_user r s = value) /\
  Permutation (filter_user_favorites current_user queryset true s
               ++ filter_user_favorites current_user queryset false s)
              queryset /\
  (forall value r,
      In r (filter_shopping_list current_user queryset value s) <->
      In r queryset /\ get_is_in_shopping_cart current_user r s = value) /\
  Permutation (filter_shopping_list current_user queryset true s
               ++ filter_shopping_list current_user queryset false s)
              queryset /\
  (current_user = None ->
   filter_user_favorites current_user queryset true s = [] /\
   filter_user_favorites current_user queryset false s = queryset /\
   filter_shopping_list current_user queryset true s = [] /\
   filter_shopping_list current_user queryset false s = queryset).
Proof.
  unfold filter_user_favorites, filter_shopping_list,
    get_is_favorited, get_is_in_shopping_cart.
  destruct current_user as [u|].
  - split; [|split; [|split; [|split]]].
    + intros [|] r; rewrite filter_In; [tauto|].
      rewrite negb_true_iff. tauto.
    + apply filter_partition.
    + intros [|] r; rewrite filter_In; [tauto|].
      rewrite negb_true_iff. tauto.
    + apply filter_partition.
    + discriminate.
  - split; [|split; [|split; [|split]]].
    + intros [|] r; simpl; [|tauto].
      split; [intros []|intros [_ H]; discriminate].
    + apply Permutation_refl.
    + intros [|] r; simpl; [|tauto].
      split; [intros []|intros [_ H]; discriminate].
    + apply Permutation_refl.
    + intros _. repeat split.
Qed.

(** ** Adding a pair and removing it again *)

Lemma filter_negb_snoc {A} (p : A -> bool) (l : list A) (a : A) :
  existsb p l = false -> p a = true ->
  filter (fun x => negb (p x)) (l ++ [a]) = l.
Proof.
  intros Hl Ha. rewrite filter_app. simpl. rewrite Ha. simpl.
  rewrite app_nil_r. apply existsb_false_filter_negb. exact Hl.
Qed.



(** ** No membership pair is stored twice *)

Lemma existsb_false_not_in {A} (p : A -> bool) (l : list A) (a : A) :
  existsb p l = false -> p a = true -> ~ In a l.
Proof.
  intros H Hp I.
  assert (T : existsb p l = true)
    by (apply existsb_exists; exists a; auto).
  congruence.
Qed.

Lemma Favorite_create_unique user recipe :
  keeps memberships_unique (Favorite_create user recipe).
Proof.
  intros s (F & C & S). unfold Favorite_create. unfold_monad.
  destruct (existsb _ (favorites s)) eqn:E; simpl; [repeat split; assumption|].
  repeat split; simpl; try assumption.
  apply NoDup_snoc; [exact F|].
  apply (existsb_false_not_in _ _ _ E).
  unfold is_favorite. simpl. rewrite !Nat.eqb_refl. reflexivity.
Qed.

Lemma ShoppingCart_create_unique user recipe :
  keeps memberships_unique (ShoppingCart_create user recipe).
Proof.
  intros s (F & C & S). unfold ShoppingCart_create. unfold_monad.
  destruct (existsb _ (shopping_cart s)) eqn:E; simpl;
    [repeat split; assumption|].
  repeat split; simpl; try assumption.
  apply NoDup_snoc; [exact C|].
  apply (existsb_false_not_in _ _ _ E).
  unfold is_cart. simpl. rewrite !Nat.eqb_refl. reflexivity.
Qed.

Lemma Subscription_create_unique author subscriber :
  keeps memberships_unique (Subscription_create author subscriber).
Proof.
  intros s (F & C & S). unfold Subscription_create. unfold_monad.
  destruct (Nat.eqb author subscriber); simpl; [repeat split; assumption|].
  destruct (existsb _ (subscriptions s)) eqn:E; simpl;
    [repeat split; assumption|].
  repeat split; simpl; try assumption.
  apply NoDup_snoc; [exact S|].
  apply (existsb_false_not_in _ _ _ E).
  unfold is_subscription. simpl. rewrite !Nat.eqb_refl. reflexivity.
Qed.

Lemma keeps_validate_any {A} (P : Store -> Prop) (o : option User)
  (k : User -> M Store A) :
  (forall u, keeps P (k u)) ->
  keeps P (match o with
           | None => raise (ValidationError MsgAuthRequired)
           | Some u => k u
           end).
Proof. intros H. destruct o; [apply H|apply keeps_raise]. Qed.

(** X12.  From a store in which no favorite, shopping-cart or subscription
    pair occurs twice, every add and every remove, by any user and on any
    target, ends in such a store, whether it returns or raises; so does a
    direct insert through the model, which the unique constraint refuses
    when the pair is already there. *)
Theorem memberships_stay_unique s :
  memberships_unique s ->
  (forall k actor target,
      memberships_unique (snd (add k actor target s)) /\
      memberships_unique (snd (remove k actor target s))) /\
  (forall a b,
      memberships_unique (snd (Favorite_create a b s)) /\
      memberships_unique (snd (ShoppingCart_create a b s)) /\
      memberships_unique (snd (Subscription_create a b s))) /\
  (forall a b,
      (0 < rows_of RFavorite a b s ->
       Favorite_create a b s = (Err (IntegrityError unique_favorite), s)) /\
      (0 < rows_of RShoppingCart a b s ->
       ShoppingCart_create a b s
       = (Err (IntegrityError unique_shopping_cart_list), s)) /\
      (0 < rows_of RSubscription a b s -> a <> b ->
       Subscription_create b a s
       = (Err (IntegrityError unique_subscription), s))).
Proof.
  intros U. split; [|split].
  - intros k actor target. split.
    + destruct k; simpl.
      * unfold favorite.
        apply keeps_bind; [apply keeps_IsAuthenticated|intros _| exact U].
        apply keeps_bind; [apply keeps_get_object_or_404|intros r].
        apply keeps_bind.
        -- unfold FavoriteSerializer_validate.
           apply keeps_validate_any. intros u.
           apply keeps_bind; [apply keeps_get|intros s0].
           destruct (existsb _ _); [apply keeps_raise|apply keeps_ret].
        -- intros d. apply keeps_bind; [apply Favorite_create_unique|].
           intros _. apply keeps_ret.
      * unfold shopping_cart_add.
        apply keeps_bind; [apply keeps_IsAuthenticated|intros _| exact U].
        apply keeps_bind; [apply keeps_get_object_or_404|intros r].
        apply keeps_bind.
        -- unfold ShoppingCartSerializer_validate.
           apply keeps_validate_any. intros u.
           apply keeps_bind; [apply keeps_get|intros s0].
           destruct (existsb _ _); [apply keeps_raise|apply keeps_ret].
        -- intros d. apply keeps_bind; [apply ShoppingCart_create_unique|].
           intros _. apply keeps_ret.
      * unfold subscribe.
        apply keeps_bind; [apply keeps_IsAuthenticated|intros _| exact U].
        apply keeps_bind; [apply keeps_get_object_or_404|intros r].
        apply keeps_bind.
        -- unfold SubscriptionSerializer_validate.
           apply keeps_validate_any. intros u.
           destruct (Nat.eqb _ _); [apply keeps_raise|].
           apply keeps_bind; [apply keeps_get|intros s0].
           destruct (existsb _ _); [apply keeps_raise|apply keeps_ret].
        -- intros d. apply keeps_bind; [apply Subscription_create_unique|].
           intros _. apply keeps_ret.
    + destruct k; simpl.
      * unfold delete_from_favorites.
        apply keeps_bind; [apply keeps_IsAuthenticated|intros u| exact U].
        apply keeps_bind; [apply keeps_get_object_or_404|intros r].
        intros s0 (F & C & S). unfold qs_delete. unfold_monad.
        destruct (Nat.eqb _ 0); simpl; repeat split; simpl;
          try assumption; apply NoDup_filter; exact F.
      * unfold delete_from_shopping_cart.
        apply keeps_bind; [apply keeps_IsAuthenticated|intros u| exact U].
        apply keeps_bind; [apply keeps_get_object_or_404|intros r].
        intros s0 (F & C & S). unfold qs_delete. unfold_monad.
        destruct (Nat.eqb _ 0); simpl; repeat split; simpl;
          try assumption; apply NoDup_filter; exact C.
      * unfold unsubscribe.
        apply keeps_bind; [apply keeps_IsAuthenticated|intros u| exact U].
        apply keeps_bind; [apply keeps_get_object_or_404|intros r].
        intros s0 (F & C & S). unfold qs_delete. unfold_monad.
        destruct (Nat.eqb _ 0); simpl; repeat split; simpl;
          try assumption; apply NoDup_filter; exact S.
  - intros a b. split; [|split].
    + apply Favorite_create_unique. exact U.
    + apply ShoppingCart_create_unique. exact U.
    + apply Subscription_create_unique. exact U.
  - intros a b. split; [|split]; intros Hpos; simpl in Hpos;
      apply length_filter_pos_existsb in Hpos.
    + unfold Favorite_create. unfold_monad. rewrite Hpos. reflexivity.
    + unfold ShoppingCart_create. unfold_monad. rewrite Hpos. reflexivity.
    + intros Hne. unfold Subscription_create. unfold_monad.
      apply Nat.eqb_neq in Hne. rewrite Nat.eqb_sym, Hne, Hpos. reflexivity.
Qed.

Lemma kitchen_memberships_unique : memberships_unique kitchen.
Proof.
  repeat split; repeat constructor; simpl; intuition discriminate.
Qed.

Lemma memberships_stay_unique_witness :
  memberships_unique (snd (add RShoppingCart (Some bob) 1 kitchen)) /\
  memberships_unique (snd (remove RShoppingCart (Some alice) 1 kitchen)).
Proof.
  split.
  - apply (proj1 (memberships_stay_unique kitchen kitchen_memberships_unique)
             RShoppingCart (Some bob) 1).
  - apply (proj1 (memberships_stay_unique kitchen kitchen_memberships_unique)
             RShoppingCart (Some alice) 1).
Defined.

(** ** The cart report and the cart's content *)

Lemma group_total_app k (a b : list (Key * Z)) :
  group_total k (a ++ b) = (group_total k a + group_total k b)%Z.
Proof.
  unfold group_total. rewrite filter_app, map_app.
  induction (map snd (filter (fun row => key_eqb (fst row) k) a))
    as [|x l IH]; simpl; [reflexivity|].
  rewrite IH. lia.
Qed.

Lemma group_total_flat_map_app {A} k (f g : A -> list (Key * Z))
  (l : list A) :
  group_total k (flat_map (fun x => f x ++ g x) l)
  = (group_total k (flat_map f l) + group_total k (flat_map g l))%Z.
Proof.
  induction l as [|x l IH]; simpl; [reflexivity|].
  rewrite !group_total_app, IH. lia.
Qed.

Lemma flat_map_snoc {A B} (f : A -> list B) (l : list A) (a : A) :
  flat_map f (l ++ [a]) = flat_map f l ++ f a.
Proof. rewrite flat_map_app. simpl. rewrite app_nil_r. reflexivity. Qed.

(** The joined rows once one more pair is in the cart table. *)
Lemma joined_rows_cart_snoc user s row :
  joined_rows user
    (set_shopping_cart s (shopping_cart s ++ [row]))
  = flat_map
      (fun ri =>
         flat_map
           (fun c =>
              if is_cart user (ri_recipe ri) c
              then flat_map
                     (fun i =>
                        if Nat.eqb (ingredient_id i) (ri_ingredient ri)
                        then [((ingredient_name i, measurement_unit i),
                               ri_amount ri)]
                        else [])
                     (ingredients s)
              else [])
           (shopping_cart s)
         ++ (if is_cart user (ri_recipe ri) row
             then flat_map
                    (fun i =>
                       if Nat.eqb (ingredient_id i) (ri_ingredient ri)
                       then [((ingredient_name i, measurement_unit i),
                              ri_amount ri)]
                       else [])
                    (ingredients s)
             else []))
      (recipe_ingredients s).
Proof.
  unfold joined_rows. simpl. apply flat_map_ext. intros ri.
  apply flat_map_snoc.
Qed.

(** X13.  When a recipe is added to a user's shopping cart, the total of
    every (name, unit) pair in that user's aggregation grows by the amounts
    the recipe's own ingredient rows carry for the pair, and by nothing
    else. *)
Theorem cart_add_adds_totals u t s resp s' :
  shopping_cart_add (Some u) t s = (Ok resp, s') ->
  forall k,
    group_total k (joined_rows (user_id u) s')
    = (group_total k (joined_rows (user_id u) s)
       + group_total k (recipe_rows t s))%Z.
Proof.
  intros H k. apply shopping_cart_add_inv in H. destruct H as [_ E].
  subst s'. rewrite joined_rows_cart_snoc.
  rewrite group_total_flat_map_app. f_equal.
  unfold recipe_rows. f_equal. apply flat_map_ext. intros ri.
  unfold is_cart. simpl. rewrite Nat.eqb_refl. simpl.
  rewrite Nat.eqb_sym. reflexivity.
Qed.

Lemma cart_add_adds_totals_witness :
  group_total ("flour"%string, "g"%string)
    (joined_rows (user_id bob)
       (snd (shopping_cart_add (Some bob) 1 kitchen)))
  = (group_total ("flour"%string, "g"%string)
       (joined_rows (user_id bob) kitchen)
     + group_total ("flour"%string, "g"%string) (recipe_rows 1 kitchen))%Z.
Proof.
  apply (cart_add_adds_totals bob 1 kitchen
           (Response_ (ShortRecipeBody pancakes) 201)
           (snd (shopping_cart_add (Some bob) 1 kitchen))).
  reflexivity.
Defined.

Lemma flat_map_filter_irrelevant {A B} (p : A -> bool) (f : A -> list B)
  (l : list A) :
  (forall a, p a = true -> f a = []) ->
  flat_map f (filter (fun a => negb (p a)) l) = flat_map f l.
Proof.
  intros H. induction l as [|a l IH]; simpl; [reflexivity|].
  destruct (p a) eqn:E; simpl.
  - rewrite (H a E). exact IH.
  - rewrite IH. reflexivity.
Qed.

(** The store a membership view leaves: the one it found, or that one with
    the actor's pair appended or deleted. *)
Lemma favorite_store actor t s :
  snd (favorite actor t s) = s \/
  exists u, actor = Some u /\
            snd (favorite actor t s)
            = set_favorites s (favorites s ++ [mkFavorite (user_id u) t]).
Proof.
  destruct actor as [u|]; [|left; reflexivity].
  destruct (filter (has_id t) (recipes s)) as [|r [|r2 l]] eqn:F.
  - left. unfold favorite, get_object_or_404, IsAuthenticated.
    unfold_monad. rewrite F. reflexivity.
  - destruct (existsb (is_favorite (user_id u) t) (favorites s)) eqn:E.
    + left. rewrite (favorite_duplicate u t r s F E). reflexivity.
    + right. exists u. rewrite (favorite_created u t r s F E). auto.
  - left. unfold favorite, get_object_or_404, IsAuthenticated.
    unfold_monad. rewrite F. reflexivity.
Qed.

Lemma shopping_cart_add_store actor t s :
  snd (shopping_cart_add actor t s) = s \/
  exists u, actor = Some u /\
            snd (shopping_cart_add actor t s)
            = set_shopping_cart s
                (shopping_cart s ++ [mkShoppingCart (user_id u) t]).
Proof.
  destruct actor as [u|]; [|left; reflexivity].
  destruct (filter (has_id t) (recipes s)) as [|r [|r2 l]] eqn:F.
  - left. unfold shopping_cart_add, get_object_or_404, IsAuthenticated.
    unfold_monad. rewrite F. reflexivity.
  - destruct (existsb (is_cart (user_id u) t) (shopping_cart s)) eqn:E.
    + left. rewrite (shopping_cart_duplicate u t r s F E). reflexivity.
    + right. exists u. rewrite (shopping_cart_created u t r s F E). auto.
  - left. unfold shopping_cart_add, get_object_or_404, IsAuthenticated.
    unfold_monad. rewrite F. reflexivity.
Qed.

Lemma subscribe_store actor t s :
  snd (subscribe actor t s) = s \/
  exists u, actor = Some u /\
            snd (subscribe actor t s)
            = set_subscriptions s
                (subscriptions s ++ [mkSubscription t (user_id u)]).
Proof.
  destruct actor as [u|]; [|left; reflexivity].
  destruct (filter (is_user t) (users s)) as [|a [|a2 l]] eqn:F.
  - left. unfold subscribe, get_object_or_404, IsAuthenticated.
    unfold_monad. rewrite F. reflexivity.
  - destruct (Nat.eq_dec (user_id u) t) as [Eq|Ne].
    + left. subst t. rewrite (subscribe_self u a s F). reflexivity.
    + destruct (existsb (is_subscription t (user_id u)) (subscriptions s))
        eqn:E.
      * left. rewrite (subscribe_duplicate u t a s F Ne E). reflexivity.
      * right. exists u. rewrite (subscribe_created u t a s F Ne E). auto.
  - left. unfold subscribe, get_object_or_404, IsAuthenticated.
    unfold_monad. rewrite F. reflexivity.
Qed.

Lemma delete_from_favorites_store actor t s :
  snd (delete_from_favorites actor t s) = s \/
  exists u, actor = Some u /\
            snd (delete_from_favorites actor t s)
            = set_favorites s
                (filter (fun row => negb (is_favorite (user_id u) t row))
                        (favorites s)).
Proof.
  destruct actor as [u|]; [|left; reflexivity].
  destruct (filter (has_id t) (recipes s)) as [|r [|r2 l]] eqn:F.
  - left. rewrite (delete_from_favorites_missing u t s F). reflexivity.
  - destruct (existsb (is_favorite (user_id u) t) (favorites s)) eqn:E.
    + right. exists u.
      rewrite (delete_from_favorites_present u t r s F E). auto.
    + left. rewrite (delete_from_favorites_absent u t r s F E). reflexivity.
  - left. unfold delete_from_favorites, get_object_or_404, IsAuthenticated.
    unfold_monad. rewrite F. reflexivity.
Qed.

Lemma delete_from_shopping_cart_store actor t s :
  snd (delete_from_shopping_cart actor t s) = s \/
  exists u, actor = Some u /\
            snd (delete_from_shopping_cart actor t s)
            = set_shopping_cart s
                (filter (fun row => negb (is_cart (user_id u) t row))
                        (shopping_cart s)).
Proof.
  destruct actor as [u|]; [|left; reflexivity].
  destruct (filter (has_id t) (recipes s)) as [|r [|r2 l]] eqn:F.
  - left. rewrite (delete_from_shopping_cart_missing u t s F). reflexivity.
  - destruct (existsb (is_cart (user_id u) t) (shopping_cart s)) eqn:E.
    + right. exists u.
      rewrite (delete_from_shopping_cart_present u t r s F E). auto.
    + left. rewrite (delete_from_shopping_cart_absent u t r s F E).
      reflexivity.
  - left. unfold delete_from_shopping_cart, get_object_or_404,
      IsAuthenticated.
    unfold_monad. rewrite F. reflexivity.
Qed.

Lemma unsubscribe_store actor t s :
  snd (unsubscribe actor t s) = s \/
  exists u, actor = Some u /\
            snd (unsubscribe actor t s)
            = set_subscriptions s
                (filter (fun row => negb (is_subscription t (user_id u) row))
                        (subscriptions s)).
Proof.
  destruct actor as [u|]; [|left; reflexivity].
  destruct (filter (is_user t) (users s)) as [|a [|a2 l]] eqn:F.
  - left. rewrite (unsubscribe_missing u t s F). reflexivity.
  - destruct (existsb (is_subscription t (user_id u)) (subscriptions s))
      eqn:E.
    + right. exists u. rewrite (unsubscribe_present u t a s F E). auto.
    + left. rewrite (unsubscribe_absent u t a s F E). reflexivity.
  - left. unfold unsubscribe, get_object_or_404, IsAuthenticated.
    unfold_monad. rewrite F. reflexivity.
Qed.

Lemma joined_rows_cart_snoc_other user s a b :
  a <> user ->
  joined_rows user
    (set_shopping_cart s (shopping_cart s ++ [mkShoppingCart a b]))
  = joined_rows user s.
Proof.
  intros Hne. rewrite joined_rows_cart_snoc.
  unfold joined_rows. apply flat_map_ext. intros ri.
  unfold is_cart at 2. simpl.
  apply Nat.eqb_neq in Hne. rewrite Hne. simpl. apply app_nil_r.
Qed.

Lemma cart_delete_spares user a b s :
  a <> user ->
  joined_rows user
    (set_shopping_cart s
       (filter (fun row => negb (is_cart a b row)) (shopping_cart s)))
  = joined_rows user s.
Proof.
  intros Hne. unfold joined_rows. simpl. apply flat_map_ext. intros ri.
  apply flat_map_filter_irrelevant. intros c Hc.
  apply is_cart_true in Hc. subst c. unfold is_cart. simpl.
  apply Nat.eqb_neq in Hne. rewrite Hne. reflexivity.
Qed.

(** X14.  The rows a user's cart report is built from are not changed by
    any add or remove on favorites or subscriptions, by any add or remove
    on the shopping cart made by another user, or by any request of an
    anonymous user, whether the request returns or raises. *)
Theorem cart_rows_isolated user k actor target s :
  spares_cart_of user k actor ->
  joined_rows user (snd (add k actor target s)) = joined_rows user s /\
  joined_rows user (snd (remove k actor target s)) = joined_rows user s.
Proof.
  intros Hsp. split.
  - destruct k; simpl.
    + destruct (favorite_store actor target s) as [E|[u [_ E]]];
        rewrite E; reflexivity.
    + destruct (shopping_cart_add_store actor target s) as [E|[u [A E]]];
        rewrite E; [reflexivity|].
      subst actor. apply joined_rows_cart_snoc_other. exact Hsp.
    + destruct (subscribe_store actor target s) as [E|[u [_ E]]];
        rewrite E; reflexivity.
  - destruct k; simpl.
    + destruct (delete_from_favorites_store actor target s)
        as [E|[u [_ E]]]; rewrite E; reflexivity.
    + destruct (delete_from_shopping_cart_store actor target s)
        as [E|[u [A E]]]; rewrite E; [reflexivity|].
      subst actor. apply cart_delete_spares. exact Hsp.
    + destruct (unsubscribe_store actor target s) as [E|[u [_ E]]];
        rewrite E; reflexivity.
Qed.

Lemma cart_rows_isolated_witness :
  joined_rows 1 (snd (add RShoppingCart (Some bob) 2 kitchen))
  = joined_rows 1 kitchen /\
  joined_rows 1 (snd (remove RShoppingCart (Some bob) 2 kitchen))
  = joined_rows 1 kitchen.
Proof.
  apply (cart_rows_isolated 1 RShoppingCart (Some bob) 2 kitchen).
  simpl. discriminate.
Defined.


(** ** The recipes of an author, the list of authors, the favorites count *)

(** X16.  [get_recipes] gives nothing when recipes are not asked for.
    Otherwise, when [recipes_limit] parses to a positive number that a
    [bigint] holds, it gives the first [limit] recipes of the author; when
    it parses to a larger number, the query is refused and the method
    raises; and when the parameter is absent, empty, not a number, zero or
    negative, it gives all of them.  Whatever it gives is a leading part of
    the author's recipes. *)
Theorem get_recipes_limit int recipes_limit obj_recipes :
  get_recipes int false recipes_limit obj_recipes = Ok None /\
  (forall str z,
      recipes_limit = Some str -> is_empty str = false ->
      int str = Some z ->
      ((0 < z <= 9223372036854775807)%Z ->
       get_recipes int true recipes_limit obj_recipes
       = Ok (Some (firstn (Z.to_nat z) obj_recipes)) /\
       List.length (firstn (Z.to_nat z) obj_recipes)
       = Nat.min (Z.to_nat z) (List.length obj_recipes)) /\
      ((9223372036854775807 < z)%Z ->
       exists e, get_recipes int true recipes_limit obj_recipes = Err e)) /\
  ((recipes_limit = None \/
    (exists str, recipes_limit = Some str /\
                 (is_empty str = true \/ int str = None \/
                  exists z, int str = Some z /\ (z <= 0)%Z))) ->
   get_recipes int true recipes_limit obj_recipes = Ok (Some obj_recipes)) /\
  (forall r,
      get_recipes int true recipes_limit obj_recipes = Ok r ->
      exists n, r = Some (firstn n obj_recipes)).
Proof.
  split; [reflexivity|].
  unfold get_recipes, qs_slice. simpl negb. cbv iota.
  split; [|split].
  - intros str z E Hne Hi. subst. rewrite Hne, Hi. split.
    + intros Hz.
      assert (C : negb (Z.eqb z 0) && Z.ltb 0 z = true).
      { apply andb_true_iff. split.
        - apply negb_true_iff, Z.eqb_neq. lia.
        - apply Z.ltb_lt. lia. }
      assert (D : Z.ltb 9223372036854775807 z = false)
        by (apply Z.ltb_ge; lia).
      rewrite C, D. split; [reflexivity|apply length_firstn].
    + intros Hz.
      assert (C : negb (Z.eqb z 0) && Z.ltb 0 z = true).
      { apply andb_true_iff. split.
        - apply negb_true_iff, Z.eqb_neq. lia.
        - apply Z.ltb_lt. lia. }
      assert (D : Z.ltb 9223372036854775807 z = true)
        by (apply Z.ltb_lt; exact Hz).
      rewrite C, D. eexists. reflexivity.
  - intros [E|[str [E [He|[Hi|[z [Hi Hz]]]]]]]; subst; try reflexivity.
    + rewrite He. reflexivity.
    + destruct (is_empty str); [reflexivity|]. rewrite Hi. reflexivity.
    + destruct (is_empty str); [reflexivity|]. rewrite Hi.
      assert (C : Z.ltb 0 z = false) by (apply Z.ltb_ge; exact Hz).
      rewrite C, andb_false_r. reflexivity.
  - assert (All : exists n, Some obj_recipes = Some (firstn n obj_recipes))
      by (exists (List.length obj_recipes); rewrite firstn_all; reflexivity).
    intros r H.
    destruct recipes_limit as [str|];
      [|inversion H; subst; exact All].
    destruct (is_empty str); [inversion H; subst; exact All|].
    destruct (int str) as [z|]; [|inversion H; subst; exact All].
    destruct (negb (Z.eqb z 0) && Z.ltb 0 z);
      [|inversion H; subst; exact All].
    destruct (Z.ltb 9223372036854775807 z); [discriminate|].
    inversion H; subst. exists (Z.to_nat z). reflexivity.
Qed.

(** X17.  The authors listed for a user are exactly the stored users for
    whom the serializer's [is_subscribed] flag, seen by that user, is
    true. *)
Theorem subscriptions_list_agrees_with_flag request_user s a :
  In a (subscriptions_authors request_user s) <->
  In a (users s) /\ get_is_subscribed (Some request_user) a s = true.
Proof.
  unfold subscriptions_authors, get_is_subscribed.
  rewrite in_flat_map, existsb_exists. split.
  - intros [row [Hin Ha]].
    destruct (Nat.eqb (sub_subscriber row) (user_id request_user)) eqn:E;
      [|contradiction].
    apply filter_In in Ha. destruct Ha as [Hu Hid].
    split; [exact Hu|]. exists row. split; [exact Hin|].
    unfold is_subscription. apply is_user_key in Hid.
    rewrite Hid, Nat.eqb_refl, E. reflexivity.
  - intros [Hu [row [Hin Hrow]]]. exists row. split; [exact Hin|].
    unfold is_subscription in Hrow. apply andb_true_iff in Hrow.
    destruct Hrow as [H1 H2]. rewrite H2.
    apply filter_In. split; [exact Hu|].
    unfold is_user. rewrite Nat.eqb_sym. exact H1.
Qed.

(** X18.  A successful add to favorites raises the recipe's favorites count
    by one and a successful removal, in a store without repeated pairs,
    lowers it by one; the count of every other recipe stays as it was. *)
Theorem favorites_count_follows u t s resp s' r :
  (favorite (Some u) t s = (Ok resp, s') ->
   favorites_count r s'
   = favorites_count r s + (if Nat.eqb (pk r) t then 1 else 0)) /\
  (delete_from_favorites (Some u) t s = (Ok resp, s') ->
   NoDup (favorites s) ->
   favorites_count r s' + (if Nat.eqb (pk r) t then 1 else 0)
   = favorites_count r s).
Proof.
  unfold favorites_count. split.
  - intros H. apply favorite_inv in H. destruct H as [_ E]. subst s'.
    simpl. rewrite length_filter_snoc. simpl.
    rewrite (Nat.eqb_sym t). reflexivity.
  - intros H Hnd.
    assert (Hex : existsb (is_favorite (user_id u) t) (favorites s) = true).
    { destruct (existsb (is_favorite (user_id u) t) (favorites s)) eqn:E;
        [reflexivity|].
      destruct (filter (has_id t) (recipes s)) as [|r0 [|r2 l]] eqn:F.
      - rewrite (delete_from_favorites_missing u t s F) in H. discriminate.
      - rewrite (delete_from_favorites_absent u t r0 s F E) in H.
        discriminate.
      - unfold delete_from_favorites, get_object_or_404, IsAuthenticated
          in H.
        unfold_monad. rewrite F in H. discriminate. }
    apply delete_from_favorites_inv in H. subst s'. simpl.
    clear resp. induction (favorites s) as [|row l IH]; [discriminate|].
    inversion Hnd as [|x xs Hnotin Hnd']; subst. simpl in Hex |- *.
    destruct (is_favorite (user_id u) t row) eqn:E; simpl.
    + apply is_favorite_true in E. subst row. simpl.
      rewrite (Nat.eqb_sym t).
      assert (Hl : existsb (is_favorite (user_id u) t) l = false).
      { destruct (existsb (is_favorite (user_id u) t) l) eqn:X;
          [|reflexivity].
        apply existsb_exists in X. destruct X as [y [Hy Py]].
        apply is_favorite_true in Py. subst y. contradiction. }
      rewrite (existsb_false_filter_negb _ _ Hl).
      destruct (Nat.eqb (pk r) t); simpl; lia.
    + specialize (IH Hnd' Hex).
      destruct (Nat.eqb (favorite_recipe row) (pk r)); simpl; lia.
Qed.

Lemma favorites_count_follows_witness :
  favorites_count biscuit (snd (favorite (Some alice) 2 kitchen))
  = favorites_count biscuit kitchen + (if Nat.eqb (pk biscuit) 2 then 1 else 0)
  /\
  favorites_count biscuit
    (snd (delete_from_favorites (Some bob) 2 kitchen_with_favorite))
  + (if Nat.eqb (pk biscuit) 2 then 1 else 0)
  = favorites_count biscuit kitchen_with_favorite.
Proof.
  split.
  - apply (proj1 (favorites_count_follows alice 2 kitchen
                    (Response_ (ShortRecipeBody biscuit) 201)
                    (snd (favorite (Some alice) 2 kitchen)) biscuit)).
    reflexivity.
  - apply (proj2 (favorites_count_follows bob 2 kitchen_with_favorite
                    (Response_ NoBody 204)
                    (snd (delete_from_favorites (Some bob) 2
                            kitchen_with_favorite)) biscuit)).
    + reflexivity.
    + repeat constructor. simpl. tauto.
Defined.

(** ** Images sent as data URIs *)

Lemma string_app_assoc (a b c : string) :
  ((a ++ b) ++ c = a ++ (b ++ c))%string.
Proof. induction a as [|x a IH]; simpl; [reflexivity|rewrite IH; reflexivity]. Qed.

Lemma string_app_nil_r (a : string) : (a ++ "" = a)%string.
Proof. induction a as [|x a IH]; simpl; [reflexivity|rewrite IH; reflexivity]. Qed.

Lemma prefix_app (a b : string) : String.prefix a (a ++ b) = true.
Proof.
  induction a as [|x a IH]; simpl; [destruct b; reflexivity|].
  destruct (ascii_dec x x) as [_|N]; [exact IH|contradiction].
Qed.

Lemma has_char_app c (a b : string) :
  has_char c (a ++ b) = has_char c a || has_char c b.
Proof.
  induction a as [|x a IH]; simpl; [reflexivity|].
  rewrite IH. apply orb_assoc.
Qed.

(** Passing over the rest of a separator that was found. *)
Lemma split_aux_pass sep (s1 : string) :
  forall cur s2,
    s2 <> EmptyString ->
    split_aux sep (String.length s1) cur (s1 ++ s2)
    = split_aux sep 0 cur s2.
Proof.
  induction s1 as [|x s1 IH]; intros cur s2 Hne; simpl.
  - destruct s2; [contradiction|reflexivity].
  - apply IH. exact Hne.
Qed.

Lemma split_aux_pass_end sep (s1 : string) :
  forall cur, split_aux sep (String.length s1) cur s1 = [cur].
Proof.
  induction s1 as [|x s1 IH]; intros cur; simpl; [reflexivity|apply IH].
Qed.

(** A stretch without the first character of the separator joins the part
    being read. *)
Lemma split_aux_plain c0 sep' (a : string) :
  has_char c0 a = false ->
  forall cur rest,
    split_aux (String c0 sep') 0 cur (a ++ rest)
    = split_aux (String c0 sep') 0 (cur ++ a) rest.
Proof.
  induction a as [|x a IH]; intros Ha cur rest.
  - simpl. rewrite string_app_nil_r. reflexivity.
  - simpl in Ha. apply orb_false_iff in Ha. destruct Ha as [Hx Ha].
    simpl. destruct (ascii_dec c0 x) as [E|N].
    + subst. rewrite Ascii.eqb_refl in Hx. discriminate.
    + rewrite (IH Ha). rewrite string_app_assoc. reflexivity.
Qed.

Lemma split_aux_found c0 sep' cur (b : string) :
  split_aux (String c0 sep') 0 cur (String c0 sep' ++ b)
  = cur :: split_aux (String c0 sep') (String.length sep') EmptyString
             (sep' ++ b).
Proof.
  simpl. destruct (ascii_dec c0 c0) as [_|N]; [|contradiction].
  rewrite prefix_app. rewrite Nat.sub_0_r. reflexivity.
Qed.

Lemma split_two c0 sep' (a b : string) :
  has_char c0 a = false -> has_char c0 b = false ->
  split (String c0 sep') (a ++ String c0 sep' ++ b) = [a; b].
Proof.
  intros Ha Hb. unfold split.
  rewrite (split_aux_plain c0 sep' a Ha).
  rewrite split_aux_found. simpl append at 1. f_equal.
  destruct b as [|y b].
  - rewrite string_app_nil_r. apply split_aux_pass_end.
  - rewrite split_aux_pass by discriminate.
    rewrite <- (string_app_nil_r (String y b)) at 1.
    rewrite (split_aux_plain c0 sep' (String y b) Hb). reflexivity.
Qed.

Lemma split_none c0 sep' (a : string) :
  has_char c0 a = false -> split (String c0 sep') a = [a].
Proof.
  intros Ha. unfold split.
  rewrite <- (string_app_nil_r a) at 1.
  rewrite (split_aux_plain c0 sep' a Ha). reflexivity.
Qed.

(** X19.  A data URI [data:image/<ext>;base64,<body>] whose extension and
    body hold no [;] and whose extension holds no [/] becomes the file named
    [temp.<ext>] with the decoded body as content (or the decoder's error);
    a string that does not start with [data:image] is passed on as it is;
    and a string that starts with [data:image] but holds no [;] at all makes
    the unpacking raise [ValueError], which the framework does not turn
    into a client error. *)
Theorem data_uri_becomes_file b64decode :
  (forall ext body,
      has_char ";" ext = false -> has_char "/" ext = false ->
      has_char ";" body = false ->
      to_internal_value b64decode
        ("data:image/" ++ ext ++ ";base64," ++ body)
      = match b64decode body with
        | Ok content => Ok (inr (mkContentFile content ("temp." ++ ext)))
        | Err e => Err e
        end) /\
  (forall data,
      String.prefix "data:image" data = false ->
      to_internal_value b64decode data = Ok (inl data)) /\
  (forall data,
      String.prefix "data:image" data = true ->
      has_char ";" data = false ->
      to_internal_value b64decode data = Err ValueError /\
      http_status (Err ValueError) = 500).
Proof.
  split; [|split].
  - intros ext body He1 He2 Hb.
    assert (P : String.prefix "data:image"
                  ("data:image/" ++ ext ++ ";base64," ++ body) = true)
      by apply (prefix_app "data:image" (String "/" (ext ++ ";base64," ++ body))).
    assert (S1 : split ";base64,"
                   ("data:image/" ++ ext ++ ";base64," ++ body)
                 = [("data:image/" ++ ext)%string; body]).
    { rewrite <- (split_two ";" "base64," ("data:image/" ++ ext) body);
        [|rewrite has_char_app, He1; reflexivity|exact Hb].
      reflexivity. }
    assert (S2 : split "/" ("data:image/" ++ ext) = ["data:image"%string; ext])
      by (apply (split_two "/" "" "data:image" ext);
          [reflexivity|exact He2]).
    unfold to_internal_value. rewrite P, S1. cbv zeta. rewrite S2.
    reflexivity.
  - intros data H. unfold to_internal_value. rewrite H. reflexivity.
  - intros data H Hc. unfold to_internal_value. rewrite H.
    rewrite (split_none ";" "base64," data Hc). split; reflexivity.
Qed.

Lemma data_uri_becomes_file_witness :
  to_internal_value plain
    ("data:image/" ++ "png" ++ ";base64," ++ "iVBORw0KGgo=")%string
  = match plain "iVBORw0KGgo="%string with
    | Ok content =>
        Ok (inr (mkContentFile content ("temp." ++ "png")%string))
    | Err e => Err e
    end.
Proof.
  apply (proj1 (data_uri_becomes_file plain) "png"%string
           "iVBORw0KGgo="%string);
    reflexivity.
Defined.
